(** * Scale-down and teardown logic of the Doris operator

    A shallow embedding of
    [src/pkg/controller/sub_controller/fe/prepare_modify.go], which holds
    two Go packages:

    - [package fe]: [prepareStatefulsetApply] and
      [dropObserverBySqlClient], the drain of the metadata tier;
    - [package computegroups]: [reconcileStatefulset], [getScaleType],
      [initialCGStatus], [ClearResources], [ClearStatefulsetUnusedPVCs]
      and [scaledOutBENodesBySQL], the drain and teardown of a compute
      group.

    The Kubernetes client, the event recorder and the MySQL client are
    collaborators of the code: every call to them is an operation on an
    abstract world [W] that returns a result and a new world, and every
    call is written to a log together with its result. A nil pointer
    dereference is a panic. Logging through [klog] is left out.

    The helpers of [package mysql] that resolve the topology of the metadata
    tier are not under src/ and are modelled from the spec; the helpers that
    only build names, labels and configuration values are parameters. *)

From Stdlib Require Import ZArith List String Ascii Bool Lia DecimalString.
From stdpp Require Import base gmap strings list fin_maps sorting.

Local Open Scope string_scope.
Local Open Scope Z_scope.

(** ** The parts of Go's standard library the code calls *)

Module Go.

(** [int32] arithmetic wraps around. *)
Definition wrap32 (z : Z) : Z := (z + 2 ^ 31) mod 2 ^ 32 - 2 ^ 31.

Definition in_int32 (z : Z) : Prop := - 2 ^ 31 <= z < 2 ^ 31.

(** [strings.Split s sep] for a separator of one byte: the pieces between
    the occurrences of [sep]; never empty ([Split "" sep] is [[""]]). *)
Fixpoint Split (sep : ascii) (s : string) : list string :=
  match s with
  | EmptyString => [EmptyString]
  | String c rest =>
      if Ascii.eqb c sep then EmptyString :: Split sep rest
      else match Split sep rest with
           | [] => [String c EmptyString]
           | piece :: pieces => String c piece :: pieces
           end
  end.

(** [strings.HasPrefix]. *)
Definition HasPrefix (s pre : string) : bool := String.prefix pre s.

(** [strings.ReplaceAll s old new] for [old] and [new] of one byte. *)
Fixpoint ReplaceAll (s : string) (old new : ascii) : string :=
  match s with
  | EmptyString => EmptyString
  | String c rest =>
      String (if Ascii.eqb c old then new else c) (ReplaceAll rest old new)
  end.

(** The two failures of [strconv.Atoi]. *)
Inductive NumErr := ErrSyntax | ErrRange.

Definition digit (c : ascii) : option Z :=
  let n := Z.of_nat (nat_of_ascii c) in
  if (48 <=? n) && (n <=? 57) then Some (n - 48) else None.

Definition maxUint64 : Z := 2 ^ 64 - 1.

(** The loop of [strconv.ParseUint] in base 10 over the bytes of [s], from
    the value [n] read so far: a byte that is no digit is a syntax error,
    and a value beyond [uint64] a range error, whichever comes first. *)
Fixpoint parseUint (s : string) (n : Z) : NumErr + Z :=
  match s with
  | EmptyString => inr n
  | String ch rest =>
      match digit ch with
      | None => inl ErrSyntax
      | Some d =>
          if n >=? maxUint64 / 10 + 1 then inl ErrRange
          else
            let n1 := n * 10 + d in
            if n1 >? maxUint64 then inl ErrRange else parseUint rest n1
      end
  end.

(** [strconv.Atoi] on a 64-bit platform: an optional sign, then one or more
    decimal digits, and a value that fits [int]. Its fast path for short
    inputs and [ParseInt] agree, so one definition covers both. *)
Definition Atoi (s : string) : NumErr + Z :=
  match s with
  | EmptyString => inl ErrSyntax
  | String s0 rest =>
      let neg := Ascii.eqb s0 "-" in
      let body := if neg || Ascii.eqb s0 "+" then rest else s in
      match body with
      | EmptyString => inl ErrSyntax
      | _ =>
          match parseUint body 0 with
          | inl err => inl err
          | inr un =>
              if negb neg && (un >=? 2 ^ 63) then inl ErrRange
              else if neg && (un >? 2 ^ 63) then inl ErrRange
              else inr (if neg then - un else un)
          end
      end
  end.

(** [strconv.Itoa] and [strconv.FormatInt _ 10]. *)
Definition Itoa (i : Z) : string := NilZero.string_of_int (Z.to_int i).

End Go.

(** ** Data model *)

(** A Go [error]: the failure of [strconv.Atoi] on an input, or an error
    reported by a collaborator, known by its message. *)
Inductive Error :=
| NumError (input : string) (kind : Go.NumErr)
| ExtError (message : string).

(** [err.Error()]. The message of a [NumError] quotes its input with
    [strconv.Quote]; the escaping of unprintable bytes is left out. *)
Definition ErrorText (err : Error) : string :=
  match err with
  | NumError input kind =>
      let quote := String (ascii_of_nat 34) EmptyString in
      "strconv.Atoi: parsing " ++ quote ++ input ++ quote ++ ": " ++
      match kind with
      | Go.ErrSyntax => "invalid syntax"
      | Go.ErrRange => "value out of range"
      end
  | ExtError message => message
  end.

(** Modelled from the spec: the declaration of [dv1.Phase] is not under
    src/; section 3 gives it as a closed enumeration of these seven. *)
Inductive Phase :=
| Reconciling | Scaling | Ready | Suspended | SuspendFailed | ResumeFailed
| ScaleDownFailed.

#[global] Instance Phase_eq_dec : EqDecision Phase.
Proof. solve_decision. Defined.

(** Modelled from the spec: [mysql.Backend] and [mysql.Frontend] are not
    under src/; a live node record carries a host, from which the ordinal
    is derived, and the node's own identity. The code reads [Host] only. *)
Record Backend := mkBackend { BackendID : string; Host : string }.
Record Frontend := mkFrontend { FeName : string; FeHost : string }.

#[global] Instance Backend_eq_dec : EqDecision Backend.
Proof. solve_decision. Defined.
#[global] Instance Frontend_eq_dec : EqDecision Frontend.
Proof. solve_decision. Defined.

Definition Labels := list (string * string).
Definition ConfigValues := list (string * string).
Definition Secret := option (list (string * string)).

Record DBConfig := mkDBConfig {
  User : string; Password : string; DbHost : string; Port : string;
  Database : string }.

(** The fields of [appv1.StatefulSet], [corev1.Pod] and
    [corev1.PersistentVolumeClaim] the code reads. [Replicas] is a [*int32]. *)
Record StatefulSet := mkStatefulSet {
  StNamespace : string; StName : string; StReplicas : option Z }.

Record Pod := mkPod { PodName : string; PodIP : string }.

Record PersistentVolumeClaim := mkPVC { PvcNamespace : string; PvcName : string }.

(** [v1.DorisCluster], the cluster with a metadata tier. *)
Record DorisCluster := mkDorisCluster {
  DcNamespace : string;
  DcName : string;
  DcAuthSecret : string;
  FeReplicas : option Z;            (* Spec.FeSpec.Replicas, a [*int32] *)
  FeElectionNumber : option Z;      (* Spec.FeSpec.ElectionNumber *)
  FeConfigMapInfo : list string }.

Definition set_FeReplicas (cluster : DorisCluster) (r : option Z) : DorisCluster :=
  {| DcNamespace := DcNamespace cluster; DcName := DcName cluster;
     DcAuthSecret := DcAuthSecret cluster; FeReplicas := r;
     FeElectionNumber := FeElectionNumber cluster;
     FeConfigMapInfo := FeConfigMapInfo cluster |}.

(** [dv1.ComputeGroup] and [dv1.ComputeGroupStatus], with the fields of
    section 3 of the spec. *)
Record ComputeGroup := mkComputeGroup {
  UniqueId : string;
  Replicas : option Z;              (* a [*int32] *)
  ConfigMaps : list string }.

Record ComputeGroupStatus := mkCGStatus {
  CgsPhase : Phase;
  CgsUniqueId : string;
  CgsStatefulsetName : string;
  CgsServiceName : string;
  CgsReplicas : Z;
  CgsAvailableReplicas : Z;
  CgsSuspendReplicas : Z }.

#[global] Instance ComputeGroupStatus_eq_dec : EqDecision ComputeGroupStatus.
Proof. solve_decision. Defined.

Definition set_Phase (cgs : ComputeGroupStatus) (p : Phase) : ComputeGroupStatus :=
  {| CgsPhase := p; CgsUniqueId := CgsUniqueId cgs;
     CgsStatefulsetName := CgsStatefulsetName cgs;
     CgsServiceName := CgsServiceName cgs; CgsReplicas := CgsReplicas cgs;
     CgsAvailableReplicas := CgsAvailableReplicas cgs;
     CgsSuspendReplicas := CgsSuspendReplicas cgs |}.

Definition set_SuspendReplicas (cgs : ComputeGroupStatus) (n : Z) : ComputeGroupStatus :=
  {| CgsPhase := CgsPhase cgs; CgsUniqueId := CgsUniqueId cgs;
     CgsStatefulsetName := CgsStatefulsetName cgs;
     CgsServiceName := CgsServiceName cgs; CgsReplicas := CgsReplicas cgs;
     CgsAvailableReplicas := CgsAvailableReplicas cgs;
     CgsSuspendReplicas := n |}.

(** [dv1.DorisDisaggregatedCluster]. *)
Record DorisDisaggregatedCluster := mkDDC {
  Namespace : string;
  Name : string;
  AuthSecret : string;
  FeConfigMaps : list string;                        (* Spec.FeSpec.ConfigMaps *)
  ComputeGroups : list ComputeGroup;                 (* Spec.ComputeGroups *)
  ComputeGroupStatuses : list ComputeGroupStatus }.  (* Status.ComputeGroupStatuses *)

Definition set_ComputeGroupStatuses (ddc : DorisDisaggregatedCluster)
    (cgss : list ComputeGroupStatus) : DorisDisaggregatedCluster :=
  {| Namespace := Namespace ddc; Name := Name ddc; AuthSecret := AuthSecret ddc;
     FeConfigMaps := FeConfigMaps ddc; ComputeGroups := ComputeGroups ddc;
     ComputeGroupStatuses := cgss |}.

(** [sc.Event], and the reasons the code uses. *)
Inductive EventType := EventWarning | EventNormal.

Inductive EventReason :=
| FESpecSetError | CGCreateResourceFailed | CGApplyResourceFailed
| CGSqlExecFailed | CGStatefulsetDeleteFailed | CGServiceDeleteFailed
| PVCListFailed | PVCDeleteFailed.

Record Event := mkEvent {
  Type_ : EventType; Reason : EventReason; Message : string }.

(** The result of [K8sclient.Get]: the object, [IsNotFound], or another error. *)
Inductive GetResult (A : Type) :=
| Found (obj : A) | NotFound (err : Error) | GetFailed (err : Error).
Arguments Found {A} obj.
Arguments NotFound {A} err.
Arguments GetFailed {A} err.

(** ** The log of calls to the collaborators *)

Inductive Call :=
| GetStatefulSetCall (ns name : string) (res : GetResult StatefulSet)
| CreateCall (st : StatefulSet) (res : option Error)
| ApplyStatefulSetCall (st : StatefulSet) (res : option Error)
| DeleteStatefulsetCall (ns name : string) (res : option Error)
| DeleteServiceCall (ns name : string) (res : option Error)
| ListPVCCall (ns : string) (labels : Labels) (res : Error + list PersistentVolumeClaim)
| DeletePVCCall (ns name : string) (labels : Labels) (res : option Error)
| GetPodsCall (ns : string) (labels : Labels) (res : Error + list Pod)
| GetSecretCall (ns name : string) (res : Secret)
| GetConfigCall (ns : string) (info : list string) (res : ConfigValues)
| GetConfigValuesCall (ns key : string) (maps : list string) (res : ConfigValues)
| RecorderCall (ev : Event)
| NewDorisMasterSqlDBCall (conf : DBConfig) (res : option Error)
| CloseCall
| GetObserversCall (res : Error + list Frontend)
| GetBackendsByCGNameCall (cgName : string) (res : Error + list Backend)
| DropObserverCall (nodes : list Frontend) (res : option Error)
| DropBECall (nodes : list Backend) (res : option Error).

(** The calls only the two drain functions make: reading the credentials,
    listing the pods, and everything on the MySQL client. Each drain starts
    by reading the credentials. *)
Definition drainCall (c : Call) : bool :=
  match c with
  | GetSecretCall _ _ _ | GetPodsCall _ _ _
  | NewDorisMasterSqlDBCall _ _ | CloseCall | GetObserversCall _
  | GetBackendsByCGNameCall _ _ | DropObserverCall _ _ | DropBECall _ _ => true
  | _ => false
  end.

(** The node lists of the [DropBE] calls of a log, in order. *)
Definition dropBECalls (log : list Call) : list (list Backend) :=
  flat_map (fun c => match c with DropBECall nodes _ => [nodes] | _ => [] end) log.

Definition dropObserverCalls (log : list Call) : list (list Frontend) :=
  flat_map (fun c => match c with DropObserverCall nodes _ => [nodes] | _ => [] end) log.

(** The deletions of StatefulSets and Services of a log, in order. *)
Definition teardownCall (c : Call) : bool :=
  match c with
  | DeleteStatefulsetCall _ _ _ | DeleteServiceCall _ _ _ => true
  | _ => false
  end.

(** The names of the volumes a log tries to delete, in order. *)
Definition deletedPVCs (log : list Call) : list string :=
  flat_map (fun c => match c with DeletePVCCall _ name _ _ => [name] | _ => [] end) log.

(** ** Computations: a world, a log, and Go's panic *)

Inductive Res (W A : Type) :=
| Ret (a : A) (w : W) (log : list Call)
| Panic (log : list Call).
Arguments Ret {W A} a w log.
Arguments Panic {W A} log.

Definition M (W A : Type) : Type := W -> Res W A.

Definition ret {W A} (a : A) : M W A := fun w => Ret a w [].

Definition bind {W A B} (m : M W A) (k : A -> M W B) : M W B :=
  fun w =>
    match m w with
    | Ret a w1 log1 =>
        match k a w1 with
        | Ret b w2 log2 => Ret b w2 (log1 ++ log2)
        | Panic log2 => Panic (log1 ++ log2)
        end
    | Panic log1 => Panic log1
    end.

(** A nil pointer dereference. *)
Definition panic {W A} : M W A := fun _ => Panic [].

(** A call to a collaborator: its answer in the current world, logged. *)
Definition call {W R} (op : W -> R * W) (entry : R -> Call) : M W R :=
  fun w => let (r, w1) := op w in Ret r w1 [entry r].

(** [*p] for a pointer [p]. *)
Definition deref {W A} (p : option A) : M W A :=
  match p with
  | Some a => ret a
  | None => panic
  end.

(** [err == nil]. *)
Definition isNil {A} (err : option A) : bool :=
  match err with
  | None => true
  | Some _ => false
  end.

Declare Scope go_scope.
Delimit Scope go_scope with go.
Notation "x <- m ;; k" := (bind m (fun x => k))
  (at level 100, m at next level, right associativity) : go_scope.
Notation "m ;;; k" := (bind m (fun _ => k))
  (at level 100, right associativity) : go_scope.

(** A [for ... range] loop over [l] whose body updates an accumulator. *)
Fixpoint forRange {W A S} (body : S -> A -> M W S) (l : list A) (acc : S) : M W S :=
  match l with
  | [] => ret acc
  | x :: rest => bind (body acc x) (forRange body rest)
  end.

(** ** The collaborators *)

(** The Kubernetes client and the MySQL client, as operations on the world.
    [GetSecret], [GetConfig] and [GetConfigValuesFromConfigMaps] also return
    an error in Go; the code discards it at every call. *)
Record Externals (W : Type) := mkExternals {
  GetStatefulSet : string -> string -> W -> GetResult StatefulSet * W;
  CreateClientObject : StatefulSet -> W -> option Error * W;
  ApplyStatefulSet : StatefulSet -> W -> option Error * W;
  DeleteStatefulset : string -> string -> W -> option Error * W;
  DeleteService : string -> string -> W -> option Error * W;
  ListPVC : string -> Labels -> W -> (Error + list PersistentVolumeClaim) * W;
  DeletePVC : string -> string -> Labels -> W -> option Error * W;
  GetPods : string -> Labels -> W -> (Error + list Pod) * W;
  GetSecret : string -> string -> W -> Secret * W;
  GetConfig : list string -> string -> W -> ConfigValues * W;
  GetConfigValuesFromConfigMaps :
    string -> string -> list string -> W -> ConfigValues * W;
  RecorderEvent : Event -> W -> W;
  NewDorisMasterSqlDB : DBConfig -> W -> option Error * W;
  Close : W -> W;
  GetObservers : W -> (Error + list Frontend) * W;
  GetBackendsByCGName : string -> W -> (Error + list Backend) * W;
  DropObserver : list Frontend -> W -> option Error * W;
  DropBE : list Backend -> W -> option Error * W }.

Arguments GetStatefulSet {W}.
Arguments CreateClientObject {W}.
Arguments ApplyStatefulSet {W}.
Arguments DeleteStatefulset {W}.
Arguments DeleteService {W}.
Arguments ListPVC {W}.
Arguments DeletePVC {W}.
Arguments GetPods {W}.
Arguments GetSecret {W}.
Arguments GetConfig {W}.
Arguments GetConfigValuesFromConfigMaps {W}.
Arguments RecorderEvent {W}.
Arguments NewDorisMasterSqlDB {W}.
Arguments Close {W}.
Arguments GetObservers {W}.
Arguments GetBackendsByCGName {W}.
Arguments DropObserver {W}.
Arguments DropBE {W}.

(** Functions and constants of the repository that are declared outside
    src/ and only build names, labels and configuration values. The code is
    verified for every choice of them. *)
Record Helpers := mkHelpers {
  GenerateComponentStatefulSetName : DorisCluster -> string;
  GenerateExternalServiceName : DorisCluster -> string;
  GeneratePodTemplateName : DorisCluster -> string;
  GetPodLabels : DorisCluster -> Labels;
  GetClusterSecret : DorisCluster -> Secret -> string * string;
  GetElectionNumber : DorisCluster -> Z;
  GetPort : ConfigValues -> string -> Z;
  QUERY_PORT : string;
  GetStartMode : ConfigValues -> string;
  START_MODEL_FQDN : string;
  FE_RESOLVEKEY : string;
  BE_RESOLVEKEY : string;
  GetDorisLoginInformation : Secret -> string * string;
  GetFEVIPAddresss : DorisDisaggregatedCluster -> string;
  GetCGName : DorisDisaggregatedCluster -> ComputeGroup -> string;
  GetCGStatefulsetName : DorisDisaggregatedCluster -> ComputeGroup -> string;
  GetCGServiceName : DorisDisaggregatedCluster -> ComputeGroup -> string;
  newCGPodsSelector : string -> string -> Labels;
  getCacheMaxSizeAndPaths : ConfigValues -> list string * Z;
  BuildPVCName : string -> string -> string -> string;
  LogStoreName : string;
  StorageStorePreName : string;
  MergeError : option Error -> Error -> option Error }.

(** ** Topology resolution of the metadata tier *)

(** Modelled from the spec: ordinal parsing of section 4.1, which is not
    under src/ for the metadata tier: "split the pod name on its separator,
    take the final segment, parse as a non-negative integer". *)
Definition parseOrdinal (podName : string) : Error + Z :=
  let segment := List.last (Go.Split "-" podName) EmptyString in
  match Go.Atoi segment with
  | inr n => if 0 <=? n then inr n else inl (NumError segment Go.ErrSyntax)
  | inl kind => inl (NumError segment kind)
  end.

(** Modelled from the spec: the pod name of a live node record, section 4.1.
    With stable network names it is the first label of the host, which must
    carry the expected pod-name prefix; with ephemeral addresses it is the
    pod the platform reports for the host's address, and a host without a
    pod does not resolve. *)
Definition resolvePodName (ipMap : option (gmap string string))
    (podTemplateName : string) (fe : Frontend) : Error + string :=
  match ipMap with
  | None =>
      let label := List.hd EmptyString (Go.Split "." (FeHost fe)) in
      if Go.HasPrefix label podTemplateName then inr label
      else inl (ExtError ("UnresolvableTopology: " ++ FeHost fe))
  | Some pods =>
      match pods !! FeHost fe with
      | Some podName => inr podName
      | None => inl (ExtError ("UnresolvableTopology: " ++ FeHost fe))
      end
  end.

(** Modelled from the spec: [mysql.BuildSeqNumberToFrontendMap] is not under
    src/. Section 4.1: from the live node records and the pod-name prefix,
    the mapping from ordinal to record; it fails when a record does not
    resolve or its ordinal does not parse. [buildFrontendMap] is its loop
    over the records. *)
Fixpoint buildFrontendMap (frontends : list Frontend)
    (ipMap : option (gmap string string)) (podTemplateName : string)
    (frontendMap : gmap Z Frontend) : Error + gmap Z Frontend :=
  match frontends with
  | [] => inr frontendMap
  | fe :: rest =>
      match resolvePodName ipMap podTemplateName fe with
      | inl err => inl err
      | inr podName =>
          match parseOrdinal podName with
          | inl err => inl err
          | inr num =>
              buildFrontendMap rest ipMap podTemplateName (<[num := fe]> frontendMap)
          end
      end
  end.

(** Modelled from the spec: [mysql.BuildSeqNumberToFrontendMap], section 4.1,
    builds the mapping from nothing. *)
Definition BuildSeqNumberToFrontendMap (frontends : list Frontend)
    (ipMap : option (gmap string string)) (podTemplateName : string)
    : Error + gmap Z Frontend :=
  buildFrontendMap frontends ipMap podTemplateName ∅.

(** Modelled from the spec: [mysql.FindNeedDeletedFrontends] is not under
    src/. Section 4.2, step 5, and section 8: [needRemoved] nodes of the
    mapping, highest ordinals first, and only what is available when the
    mapping holds fewer. *)
Definition higherOrdinal (a b : Z * Frontend) : Prop := b.1 <= a.1.

#[global] Instance higherOrdinal_dec a b : Decision (higherOrdinal a b).
Proof. unfold higherOrdinal. apply _. Defined.

Definition FindNeedDeletedFrontends (frontendMap : gmap Z Frontend)
    (needRemovedAmount : Z) : list Frontend :=
  let descending := merge_sort higherOrdinal (map_to_list frontendMap) in
  take (Z.to_nat needRemovedAmount) (descending.*2).

(** ** The controller code *)

Section Controller.

Context {W : Type} (K : Externals W) (H : Helpers).

Local Open Scope go_scope.

(** *** Calls, logged *)

Definition k8s_GetStatefulSet (ns name : string) : M W (GetResult StatefulSet) :=
  call (GetStatefulSet K ns name) (GetStatefulSetCall ns name).
Definition k8s_CreateClientObject (st : StatefulSet) : M W (option Error) :=
  call (CreateClientObject K st) (CreateCall st).
Definition k8s_ApplyStatefulSet (st : StatefulSet) : M W (option Error) :=
  call (ApplyStatefulSet K st) (ApplyStatefulSetCall st).
Definition k8s_DeleteStatefulset (ns name : string) : M W (option Error) :=
  call (DeleteStatefulset K ns name) (DeleteStatefulsetCall ns name).
Definition k8s_DeleteService (ns name : string) : M W (option Error) :=
  call (DeleteService K ns name) (DeleteServiceCall ns name).
Definition k8s_ListPVC (ns : string) (labels : Labels)
    : M W (Error + list PersistentVolumeClaim) :=
  call (ListPVC K ns labels) (ListPVCCall ns labels).
Definition k8s_DeletePVC (ns name : string) (labels : Labels) : M W (option Error) :=
  call (DeletePVC K ns name labels) (DeletePVCCall ns name labels).
Definition k8s_GetPods (ns : string) (labels : Labels) : M W (Error + list Pod) :=
  call (GetPods K ns labels) (GetPodsCall ns labels).
Definition k8s_GetSecret (ns name : string) : M W Secret :=
  call (GetSecret K ns name) (GetSecretCall ns name).
Definition k8s_GetConfig (info : list string) (ns : string) : M W ConfigValues :=
  call (GetConfig K info ns) (GetConfigCall ns info).
Definition k8s_GetConfigValuesFromConfigMaps (ns key : string) (maps : list string)
    : M W ConfigValues :=
  call (GetConfigValuesFromConfigMaps K ns key maps) (GetConfigValuesCall ns key maps).
Definition K8srecorder_Event (t : EventType) (reason : EventReason) (message : string)
    : M W unit :=
  let ev := {| Type_ := t; Reason := reason; Message := message |} in
  call (fun w => (tt, RecorderEvent K ev w)) (fun _ => RecorderCall ev).
Definition mysql_NewDorisMasterSqlDB (conf : DBConfig) : M W (option Error) :=
  call (NewDorisMasterSqlDB K conf) (NewDorisMasterSqlDBCall conf).
Definition mysql_GetObservers : M W (Error + list Frontend) :=
  call (GetObservers K) GetObserversCall.
Definition mysql_GetBackendsByCGName (cgName : string) : M W (Error + list Backend) :=
  call (GetBackendsByCGName K cgName) (GetBackendsByCGNameCall cgName).
Definition mysql_DropObserver (nodes : list Frontend) : M W (option Error) :=
  call (DropObserver K nodes) (DropObserverCall nodes).
Definition mysql_DropBE (nodes : list Backend) : M W (option Error) :=
  call (DropBE K nodes) (DropBECall nodes).

(** [defer masterDBClient.Close()]: the connection is closed when the rest
    of the function is left, by a return or by a panic. *)
Definition deferClose {A} (m : M W A) : M W A :=
  fun w =>
    match m w with
    | Ret a w1 log => Ret a (Close K w1) (log ++ [CloseCall])
    | Panic log => Panic (log ++ [CloseCall])
    end.

(** *** package fe *)

(** The pods of the tier by address: [podMap[item.Status.PodIP] = item.GetName()]
    for the pods named after the template. *)
Definition buildPodMap (podTemplateName : string) (items : list Pod)
    : gmap string string :=
  fold_left
    (fun podMap item =>
       if Go.HasPrefix (PodName item) podTemplateName
       then <[PodIP item := PodName item]> podMap else podMap)
    items ∅.

(** [needRemovedAmount := int32(len(allObserves)) - *Replicas + electionNumber]. *)
Definition needRemovedAmount (allObserves : list Frontend) (replicas electionNumber : Z) : Z :=
  Go.wrap32 (Go.wrap32 (Go.wrap32 (Z.of_nat (length allObserves)) - replicas)
             + electionNumber).

Definition dropObserverBySqlClient (targetDCR : DorisCluster) : M W (option Error) :=
  secret <- k8s_GetSecret (DcNamespace targetDCR) (DcAuthSecret targetDCR) ;;
  let '(adminUserName, password) := GetClusterSecret H targetDCR secret in
  let serviceName := GenerateExternalServiceName H targetDCR in
  let host := (serviceName ++ "." ++ DcNamespace targetDCR)%string in
  maps <- k8s_GetConfig (FeConfigMapInfo targetDCR) (DcNamespace targetDCR) ;;
  let queryPort := GetPort H maps (QUERY_PORT H) in
  let dbConf :=
    {| User := adminUserName; Password := password; DbHost := host;
       Port := Go.Itoa queryPort; Database := "mysql" |} in
  connected <- mysql_NewDorisMasterSqlDB dbConf ;;
  match connected with
  | Some err => ret (Some err)
  | None =>
      deferClose (
        observers <- mysql_GetObservers ;;
        match observers with
        | inl err => ret (Some err)
        | inr allObserves =>
            let electionNumber := GetElectionNumber H targetDCR in
            replicas <- deref (FeReplicas targetDCR) ;;
            let needRemovedAmount :=
              needRemovedAmount allObserves replicas electionNumber in
            if needRemovedAmount <=? 0 then ret None
            else
              let podTemplateName := GeneratePodTemplateName H targetDCR in
              let drop (frontendMap : gmap Z Frontend) :=
                let observes := FindNeedDeletedFrontends frontendMap needRemovedAmount in
                mysql_DropObserver observes in
              if String.eqb (GetStartMode H maps) (START_MODEL_FQDN H) then
                match BuildSeqNumberToFrontendMap allObserves None podTemplateName with
                | inl err => ret None
                | inr frontendMap => drop frontendMap
                end
              else
                pods <- k8s_GetPods (DcNamespace targetDCR) (GetPodLabels H targetDCR) ;;
                match pods with
                | inl err => ret None
                | inr items =>
                    let podMap := buildPodMap podTemplateName items in
                    match BuildSeqNumberToFrontendMap allObserves (Some podMap)
                            podTemplateName with
                    | inl err => ret None
                    | inr frontendMap => drop frontendMap
                    end
                end
        end)
  end.

(** The function updates [cluster.Spec.FeSpec.Replicas] in place; the
    cluster it leaves is returned with the error. *)
Definition prepareStatefulsetApply (cluster : DorisCluster)
    : M W (option Error * DorisCluster) :=
  got <- k8s_GetStatefulSet (DcNamespace cluster)
           (GenerateComponentStatefulSetName H cluster) ;;
  match got with
  | NotFound _ | GetFailed _ => ret (None, cluster)
  | Found oldSt =>
      let cluster :=
        match FeReplicas cluster with
        | None => set_FeReplicas cluster (Some 0)
        | Some _ => cluster
        end in
      let ele := GetElectionNumber H cluster in
      replicas <- deref (FeReplicas cluster) ;;
      cluster <-
        (if replicas <? ele then
           K8srecorder_Event EventWarning FESpecSetError
             "The number of fe ElectionNumber is large than Replicas, Replicas has been corrected to the correct minimum value" ;;;
           ret (set_FeReplicas cluster (Some ele))
         else ret cluster) ;;
      replicas <- deref (FeReplicas cluster) ;;
      oldReplicas <- deref (StReplicas oldSt) ;;
      let wroa := Go.wrap32 (replicas - oldReplicas) in
      if wroa <? 0 then
        dropped <- dropObserverBySqlClient cluster ;;
        match dropped with
        | Some err => ret (Some err, cluster)
        | None => ret (None, cluster)
        end
      else ret (None, cluster)
  end.

(** *** package computegroups *)

(** The ordinal of a backend, lines 679 to 681: the last ["-"] segment of
    the first label of its host. *)
Definition podNum (host : string) : Error + Z :=
  let split := Go.Split "." host in
  let splitCGIDArr := Go.Split "-" (List.hd EmptyString split) in
  let segment := List.last splitCGIDArr EmptyString in
  match Go.Atoi segment with
  | inr n => inr n
  | inl kind => inl (NumError segment kind)
  end.

(** The loop of lines 676 to 689, from its accumulator [dropNodes]. *)
Fixpoint selectDropNodes (allBackends : list Backend) (cgKeepAmount : Z)
    (dropNodes : list Backend) : Error + list Backend :=
  match allBackends with
  | [] => inr dropNodes
  | node :: rest =>
      match podNum (Host node) with
      | inl err => inl err
      | inr n =>
          if n >=? cgKeepAmount
          then selectDropNodes rest cgKeepAmount (dropNodes ++ [node])
          else selectDropNodes rest cgKeepAmount dropNodes
      end
  end.

Definition scaledOutBENodesBySQL (cluster : DorisDisaggregatedCluster)
    (cgName : string) (cgKeepAmount : Z) : M W (option Error) :=
  secret <- k8s_GetSecret (Namespace cluster) (AuthSecret cluster) ;;
  let '(adminUserName, password) := GetDorisLoginInformation H secret in
  let host := GetFEVIPAddresss H cluster in
  confMap <- k8s_GetConfigValuesFromConfigMaps (Namespace cluster)
               (FE_RESOLVEKEY H) (FeConfigMaps cluster) ;;
  let queryPort := GetPort H confMap (QUERY_PORT H) in
  let dbConf :=
    {| User := adminUserName; Password := password; DbHost := host;
       Port := Go.Itoa queryPort; Database := "mysql" |} in
  connected <- mysql_NewDorisMasterSqlDB dbConf ;;
  match connected with
  | Some err => ret (Some err)
  | None =>
      deferClose (
        backends <- mysql_GetBackendsByCGName cgName ;;
        match backends with
        | inl err => ret (Some err)
        | inr allBackends =>
            match selectDropNodes allBackends cgKeepAmount [] with
            | inl err => ret (Some err)
            | inr dropNodes =>
                if (length dropNodes =? 0)%nat then ret None
                else
                  dropped <- mysql_DropBE dropNodes ;;
                  match dropped with
                  | Some err => ret (Some err)
                  | None => ret None
                  end
            end
        end)
  end.

(** [None] is the panic of dereferencing a nil [Replicas]. *)
Definition getScaleType (st est : StatefulSet) (phase : Phase) : option string :=
  match StReplicas st, StReplicas est with
  | Some replicas, Some oldReplicas =>
      if (replicas <? oldReplicas) || bool_decide (phase = ScaleDownFailed)
      then Some "scaleDown" else Some ""
  | _, _ => None
  end.

(** The index of the first status with the identifier: the [cgStatus]
    pointer of [reconcileStatefulset], nil when there is none. *)
Fixpoint findStatus (uniqueId : string) (cgss : list ComputeGroupStatus) : option nat :=
  match cgss with
  | [] => None
  | cgs :: rest =>
      if String.eqb (CgsUniqueId cgs) uniqueId then Some 0%nat
      else S <$> findStatus uniqueId rest
  end.

(** [cgStatus.Phase = phase], through the pointer into the status list. *)
Definition setPhaseAt (cluster : DorisDisaggregatedCluster) (i : nat) (phase : Phase)
    : DorisDisaggregatedCluster :=
  set_ComputeGroupStatuses cluster
    (alter (fun cgs => set_Phase cgs phase) i (ComputeGroupStatuses cluster)).

(** The function returns [(event, err)] and updates the status of the
    cluster in place; the cluster it leaves is returned with them. *)
Definition reconcileStatefulset (st : StatefulSet)
    (cluster : DorisDisaggregatedCluster) (cg : ComputeGroup)
    : M W (option Event * option Error * DorisDisaggregatedCluster) :=
  got <- k8s_GetStatefulSet (StNamespace st) (StName st) ;;
  match got with
  | NotFound _ =>
      created <- k8s_CreateClientObject st ;;
      match created with
      | Some err =>
          ret (Some {| Type_ := EventWarning; Reason := CGCreateResourceFailed;
                       Message := ErrorText err |}, Some err, cluster)
      | None => ret (None, None, cluster)
      end
  | GetFailed err => ret (None, Some err, cluster)
  | Found est =>
      let cgStatus := findStatus (UniqueId cg) (ComputeGroupStatuses cluster) in
      i <- deref cgStatus ;;
      phase <- deref (CgsPhase <$> ComputeGroupStatuses cluster !! i) ;;
      scaleType <- deref (getScaleType st est phase) ;;
      applied <- k8s_ApplyStatefulSet st ;;
      match applied with
      | Some err =>
          ret (Some {| Type_ := EventWarning; Reason := CGApplyResourceFailed;
                       Message := ErrorText err |}, Some err, cluster)
      | None =>
          if String.eqb scaleType "scaleDown" then
            cgKeepAmount <- deref (Replicas cg) ;;
            let cgName := GetCGName H cluster cg in
            dropped <- scaledOutBENodesBySQL cluster cgName cgKeepAmount ;;
            match dropped with
            | Some err =>
                ret (Some {| Type_ := EventWarning; Reason := CGSqlExecFailed;
                             Message := ErrorText err |}, Some err,
                     setPhaseAt cluster i ScaleDownFailed)
            | None => ret (None, None, setPhaseAt cluster i Scaling)
            end
          else ret (None, None, cluster)
      end
  end.

(** The phases [initialCGStatus] carries over, lines 376 to 378. *)
Definition carriedOver (phase : Phase) : bool :=
  bool_decide (phase = ScaleDownFailed) || bool_decide (phase = Suspended) ||
  bool_decide (phase = SuspendFailed) || bool_decide (phase = ResumeFailed) ||
  bool_decide (phase = Scaling).

(** The loop of lines 374 to 387 over the status list. *)
Fixpoint initialStatuses (cgss : list ComputeGroupStatus) (uniqueId : string)
    (defaultStatus : ComputeGroupStatus) : list ComputeGroupStatus :=
  match cgss with
  | [] => [defaultStatus]
  | cgs :: rest =>
      if String.eqb (CgsUniqueId cgs) uniqueId then
        let defaultStatus :=
          if carriedOver (CgsPhase cgs) then set_Phase defaultStatus (CgsPhase cgs)
          else defaultStatus in
        set_SuspendReplicas defaultStatus (CgsSuspendReplicas cgs) :: rest
      else cgs :: initialStatuses rest uniqueId defaultStatus
  end.

(** [None] is the panic of dereferencing a nil [cg.Replicas]. *)
Definition initialCGStatus (ddc : DorisDisaggregatedCluster) (cg : ComputeGroup)
    : option DorisDisaggregatedCluster :=
  match Replicas cg with
  | None => None
  | Some replicas =>
      let defaultStatus :=
        {| CgsPhase := Reconciling;
           CgsUniqueId := UniqueId cg;
           CgsStatefulsetName := GetCGStatefulsetName H ddc cg;
           CgsServiceName := GetCGServiceName H ddc cg;
           CgsReplicas := replicas;
           CgsAvailableReplicas := 0;
           CgsSuspendReplicas := 0 |} in
      Some (set_ComputeGroupStatuses ddc
              (initialStatuses (ComputeGroupStatuses ddc) (UniqueId cg) defaultStatus))
  end.

(** The names kept for replica [i], lines 532 to 537. *)
Definition reserveNamesOf (stsName : string) (npaths : nat) (i : nat) : list string :=
  let iStr := Go.Itoa (Z.of_nat i) in
  BuildPVCName H stsName iStr (LogStoreName H) ::
  List.map
    (fun j => BuildPVCName H stsName iStr
                (StorageStorePreName H ++ Go.Itoa (Z.of_nat j))%string)
    (seq 0 npaths).

(** [reservePVCNameList], lines 529 to 538. *)
Definition reservePVCNameList (stsName : string) (replicas : Z) (npaths : nat)
    : list string :=
  flat_map (reserveNamesOf stsName npaths) (seq 0 (Z.to_nat replicas)).

(** The group of the specification with the identifier: the last one, as
    the loop of lines 495 to 503 does not stop at the first. *)
Definition findGroup (uniqueId : string) (groups : list ComputeGroup)
    : option ComputeGroup :=
  fold_left
    (fun cg group => if String.eqb (UniqueId group) uniqueId then Some group else cg)
    groups None.

(** The loop of lines 548 to 554, over the claims left in the map. *)
Definition deletePVCs (pvcLabels : Labels) (claims : list PersistentVolumeClaim)
    : M W (option Error) :=
  forRange
    (fun mergeError claim =>
       deleted <- k8s_DeletePVC (PvcNamespace claim) (PvcName claim) pvcLabels ;;
       match deleted with
       | Some err =>
           K8srecorder_Event EventWarning PVCDeleteFailed (ErrorText err) ;;;
           ret (MergeError H mergeError err)
       | None => ret mergeError
       end)
    claims None.

Definition buildPVCMap (items : list PersistentVolumeClaim)
    : gmap string PersistentVolumeClaim :=
  fold_left (fun pvcMap item => <[PvcName item := item]> pvcMap) items ∅.

Definition ClearStatefulsetUnusedPVCs (ddc : DorisDisaggregatedCluster)
    (cgs : ComputeGroupStatus) : M W (option Error) :=
  let cg := findGroup (CgsUniqueId cgs) (ComputeGroups ddc) in
  let pvcLabels := newCGPodsSelector H (Name ddc) (CgsUniqueId cgs) in
  listed <- k8s_ListPVC (Namespace ddc) pvcLabels ;;
  match listed with
  | inl err =>
      K8srecorder_Event EventWarning PVCListFailed
        ("DisaggregatedComputeGroupsController ClearStatefulsetUnusedPVCs list pvc failed:"
           ++ ErrorText err ++ "!")%string ;;;
      ret (Some err)
  | inr items =>
      let pvcMap := buildPVCMap items in
      match cg with
      | Some cg =>
          replicas <- deref (Replicas cg) ;;
          let stsName := GetCGStatefulsetName H ddc cg in
          cvs <- k8s_GetConfigValuesFromConfigMaps (Namespace ddc)
                   (BE_RESOLVEKEY H) (ConfigMaps cg) ;;
          let paths := fst (getCacheMaxSizeAndPaths H cvs) in
          if bool_decide (CgsPhase cgs = Suspended)
             || bool_decide (CgsPhase cgs = SuspendFailed) || (replicas =? 0)
          then ret None
          else
            let reservePVCNameList := reservePVCNameList stsName replicas (length paths) in
            let pvcMap :=
              fold_left (fun pvcMap pvcName => delete pvcName pvcMap)
                reservePVCNameList pvcMap in
            deletePVCs pvcLabels (map_to_list pvcMap).*2
      | None => deletePVCs pvcLabels (map_to_list pvcMap).*2
      end
  end.

(** The first loop of [ClearResources], lines 430 to 441: the statuses of
    the groups to clear and of the groups of the specification. *)
Definition splitStatuses (ddc : DorisDisaggregatedCluster)
    : list ComputeGroupStatus * list ComputeGroupStatus :=
  fold_left
    (fun '(clearCGs, eCGs) cgs =>
       if existsb (fun cg => String.eqb (CgsUniqueId cgs) (UniqueId cg))
            (ComputeGroups ddc)
       then (clearCGs, (eCGs ++ [cgs])%list)
       else ((clearCGs ++ [cgs])%list, eCGs))
    (ComputeGroupStatuses ddc) ([], []).

(** The body of the second loop, lines 444 to 468. *)
Definition clearCG (ddc : DorisDisaggregatedCluster)
    (eCGs : list ComputeGroupStatus) (cgs : ComputeGroupStatus)
    : M W (list ComputeGroupStatus) :=
  stDeleted <- k8s_DeleteStatefulset (Namespace ddc) (CgsStatefulsetName cgs) ;;
  match stDeleted with
  | Some err => K8srecorder_Event EventWarning CGStatefulsetDeleteFailed (ErrorText err)
  | None => ret tt
  end ;;;
  svcDeleted <- k8s_DeleteService (Namespace ddc) (CgsServiceName cgs) ;;
  match svcDeleted with
  | Some err => K8srecorder_Event EventWarning CGServiceDeleteFailed (ErrorText err)
  | None => ret tt
  end ;;;
  let cleared := isNil stDeleted && isNil svcDeleted in
  if negb cleared then ret (eCGs ++ [cgs])%list
  else
    let cgName := Go.ReplaceAll (CgsUniqueId cgs) "_" "-" in
    let cgKeepAmount := 0 in
    dropped <- scaledOutBENodesBySQL ddc cgName cgKeepAmount ;;
    match dropped with
    | Some err =>
        K8srecorder_Event EventWarning CGSqlExecFailed
          ("computeGroupSync dropCGBySQLClient failed: " ++ ErrorText err)%string
    | None => ret tt
    end ;;;
    ret eCGs.

(** The third and fourth loops, lines 471 to 482; the errors are only logged. *)
Definition clearPVCs (ddc : DorisDisaggregatedCluster)
    (cgss : list ComputeGroupStatus) : M W unit :=
  forRange (fun _ cgs => ClearStatefulsetUnusedPVCs ddc cgs ;;; ret tt) cgss tt.

(** The function returns [(bool, error)] and replaces the status list of
    the cluster; the cluster it leaves is returned with them. *)
Definition ClearResources (ddc : DorisDisaggregatedCluster)
    : M W (bool * option Error * DorisDisaggregatedCluster) :=
  let '(clearCGs, eCGs) := splitStatuses ddc in
  eCGs <- forRange (clearCG ddc) clearCGs eCGs ;;
  clearPVCs ddc eCGs ;;;
  clearPVCs ddc clearCGs ;;;
  ret (true, None, set_ComputeGroupStatuses ddc eCGs).

End Controller.

(** ** Statements

    The definitions the theorems are stated with. *)

(** *** Computations *)

(** A computation that returns from every world, without a panic, and only
    makes calls that satisfy [P]. *)
Definition emits {W A} (P : Call -> bool) (m : M W A) : Prop :=
  forall w, exists a w' log, m w = Ret a w' log /\ forallb P log = true.

(** The calls of the compute-group drain. *)
Definition computeDrainCall (c : Call) : bool :=
  match c with
  | GetSecretCall _ _ _ | GetConfigValuesCall _ _ _ _
  | NewDorisMasterSqlDBCall _ _ | CloseCall | GetBackendsByCGNameCall _ _
  | DropBECall _ _ => true
  | _ => false
  end.

(** The calls of the storage reclamation, and those of its loop that
    deletes the claims. *)
Definition reclaimCall (c : Call) : bool :=
  match c with
  | ListPVCCall _ _ _ | GetConfigValuesCall _ _ _ _ | DeletePVCCall _ _ _ _
  | RecorderCall _ => true
  | _ => false
  end.

Definition deletePVCCall (c : Call) : bool :=
  match c with
  | DeletePVCCall _ _ _ _ | RecorderCall _ => true
  | _ => false
  end.

(** A log without any call of a drain. *)
Definition noDrain (log : list Call) : Prop :=
  forallb (fun c => negb (drainCall c)) log = true.

(** *** The drain of a compute group *)

(** The selection policy: a backend is dropped when its ordinal parses and
    is at least the keep amount. *)
Definition ordinalAtLeast (cgKeepAmount : Z) (node : Backend) : bool :=
  match podNum (Host node) with
  | inr n => cgKeepAmount <=? n
  | inl _ => false
  end.

Definition resolves (node : Backend) : Prop :=
  exists n, podNum (Host node) = inr n.

(** *** The drain of the metadata tier *)

(** The tier after [prepareStatefulsetApply] has replaced a nil replica
    count by zero, and the replica count it then works with: the desired
    count, raised to the election number. *)
Definition defaultedFe (cluster : DorisCluster) : DorisCluster :=
  match FeReplicas cluster with
  | None => set_FeReplicas cluster (Some 0)
  | Some _ => cluster
  end.

Definition desiredFeReplicas (H : Helpers) (cluster : DorisCluster) : Z :=
  Z.max (default 0 (FeReplicas cluster)) (GetElectionNumber H (defaultedFe cluster)).

(** The start mode read from the configuration of the tier. *)
Definition fqdnMode (H : Helpers) (maps : ConfigValues) : bool :=
  String.eqb (GetStartMode H maps) (START_MODEL_FQDN H).

(** The ordinal mapping the drain resolves, lines 118 to 144, from the
    configuration, the pods and the observers it was given. *)
Definition ordinalMapping (H : Helpers) (targetDCR : DorisCluster)
    (maps : ConfigValues) (items : list Pod) (allObserves : list Frontend)
    : Error + gmap Z Frontend :=
  let podTemplateName := GeneratePodTemplateName H targetDCR in
  if fqdnMode H maps
  then BuildSeqNumberToFrontendMap allObserves None podTemplateName
  else BuildSeqNumberToFrontendMap allObserves
         (Some (buildPodMap podTemplateName items)) podTemplateName.

(** *** The status of a group *)

(** The phase of a group in a status list: that of the first status with the
    group's identifier, the one [initialCGStatus] and [reconcileStatefulset]
    work on. *)
Definition phaseOf (uniqueId : string) (cgss : list ComputeGroupStatus) : option Phase :=
  CgsPhase <$> List.find (fun cgs => String.eqb (CgsUniqueId cgs) uniqueId) cgss.

(** The sticky phases of section 3 of the spec. *)
Definition sticky (phase : Phase) : Prop :=
  phase = ScaleDownFailed \/ phase = Suspended \/ phase = SuspendFailed
  \/ phase = ResumeFailed.

(** [n] initializations of the status of a group in a row. *)
Definition reinitialize (H : Helpers) (cg : ComputeGroup) (n : nat)
    (ddc : DorisDisaggregatedCluster) : option DorisDisaggregatedCluster :=
  Nat.iter n (fun cycle => cycle ≫= fun ddc => initialCGStatus H ddc cg) (Some ddc).

(** *** Teardown *)

(** Every group of the specification has a replica count, as after
    [computeGroupSync], which sets a nil [Replicas] to one. Storage
    reclamation dereferences it. *)
Definition replicasSet (ddc : DorisDisaggregatedCluster) : Prop :=
  forall cg, In cg (ComputeGroups ddc) -> Replicas cg <> None.

(** A status whose group is in the specification; [ClearResources] keeps
    these and clears the others. *)
Definition inSpec (ddc : DorisDisaggregatedCluster) (cgs : ComputeGroupStatus) : bool :=
  existsb (fun cg => String.eqb (CgsUniqueId cgs) (UniqueId cg)) (ComputeGroups ddc).

Definition keptStatuses (ddc : DorisDisaggregatedCluster) : list ComputeGroupStatus :=
  List.filter (inSpec ddc) (ComputeGroupStatuses ddc).

Definition removedStatuses (ddc : DorisDisaggregatedCluster) : list ComputeGroupStatus :=
  List.filter (fun cgs => negb (inSpec ddc cgs)) (ComputeGroupStatuses ddc).

(** The outcome of the teardown of a group: the results of the deletion of
    its StatefulSet and of its Service. It is torn down when both are nil. *)
Definition Outcome : Type := option Error * option Error.

Definition torndown (o : Outcome) : bool := isNil (fst o) && isNil (snd o).

Definition teardownCalls (ddc : DorisDisaggregatedCluster)
    (attempt : ComputeGroupStatus * Outcome) : list Call :=
  let (cgs, o) := attempt in
  [DeleteStatefulsetCall (Namespace ddc) (CgsStatefulsetName cgs) (fst o);
   DeleteServiceCall (Namespace ddc) (CgsServiceName cgs) (snd o)].

(** The statuses whose teardown failed, in order. *)
Definition retained (attempts : list (ComputeGroupStatus * Outcome))
    : list ComputeGroupStatus :=
  List.map fst (List.filter (fun attempt => negb (torndown (snd attempt))) attempts).

(** The warning [ClearResources] records when the drop of the backends of a
    cleared group fails. *)
Definition sqlWarning (err : Error) : Call :=
  RecorderCall
    {| Type_ := EventWarning; Reason := CGSqlExecFailed;
       Message := "computeGroupSync dropCGBySQLClient failed: " ++ ErrorText err |}.

(** What is known of the teardown of [cgs] with outcome [o] in a run with
    log [log]: the two results are answers of the platform to the deletions,
    and after a teardown the drain ran with keep amount zero and its error,
    if any, is recorded as a warning. *)
Definition attempted {W} (K : Externals W) (H : Helpers)
    (ddc : DorisDisaggregatedCluster) (log : list Call)
    (cgs : ComputeGroupStatus) (o : Outcome) : Prop :=
  (exists w0, fst o = fst (DeleteStatefulset K (Namespace ddc) (CgsStatefulsetName cgs) w0))
  /\ (exists w0, snd o = fst (DeleteService K (Namespace ddc) (CgsServiceName cgs) w0))
  /\ (torndown o = true ->
      exists w0 dropped w1 drainLog,
        scaledOutBENodesBySQL K H ddc (Go.ReplaceAll (CgsUniqueId cgs) "_" "-") 0 w0
        = Ret dropped w1 drainLog
        /\ forall err, dropped = Some err -> In (sqlWarning err) log).

(** ** A scripted world

    A world without state whose collaborators give fixed answers, one choice
    of the naming helpers, and the inputs the theorems are run on. *)

Module Scripted.

Record Answers := mkAnswers {
  statefulset : GetResult StatefulSet;
  applied : option Error;
  statefulsetDeleted : string -> option Error;
  serviceDeleted : string -> option Error;
  pvcs : Error + list PersistentVolumeClaim;
  pods : Error + list Pod;
  config : ConfigValues;
  connected : option Error;
  observers : Error + list Frontend;
  backends : Error + list Backend }.

(** Creations, deletions of volumes and removals of nodes succeed. *)
Definition world (a : Answers) : Externals unit :=
  {| GetStatefulSet := fun _ _ w => (statefulset a, w);
     CreateClientObject := fun _ w => (None, w);
     ApplyStatefulSet := fun _ w => (applied a, w);
     DeleteStatefulset := fun _ name w => (statefulsetDeleted a name, w);
     DeleteService := fun _ name w => (serviceDeleted a name, w);
     ListPVC := fun _ _ w => (pvcs a, w);
     DeletePVC := fun _ _ _ w => (None, w);
     GetPods := fun _ _ w => (pods a, w);
     GetSecret := fun _ _ w => (None, w);
     GetConfig := fun _ _ w => (config a, w);
     GetConfigValuesFromConfigMaps := fun _ _ _ w => (config a, w);
     RecorderEvent := fun _ w => w;
     NewDorisMasterSqlDB := fun _ w => (connected a, w);
     Close := fun w => w;
     GetObservers := fun w => (observers a, w);
     GetBackendsByCGName := fun _ w => (backends a, w);
     DropObserver := fun _ w => (None, w);
     DropBE := fun _ w => (None, w) |}.

Definition lookup (key : string) (values : ConfigValues) : option string :=
  snd <$> List.find (fun kv => String.eqb (fst kv) key) values.

(** The names are built from the cluster and the group; the storage paths
    are the values of the keys [path]. *)
Definition names : Helpers :=
  {| GenerateComponentStatefulSetName := fun dcr => (DcName dcr ++ "-fe")%string;
     GenerateExternalServiceName := fun dcr => (DcName dcr ++ "-fe-service")%string;
     GeneratePodTemplateName := fun dcr => (DcName dcr ++ "-fe")%string;
     GetPodLabels := fun dcr => [("app", DcName dcr); ("component", "fe")];
     GetClusterSecret := fun _ _ => ("root", EmptyString);
     GetElectionNumber := fun dcr => default 3 (FeElectionNumber dcr);
     GetPort := fun _ _ => 9030;
     QUERY_PORT := "query_port";
     GetStartMode := fun values => default "IP" (lookup "start_mode" values);
     START_MODEL_FQDN := "FQDN";
     FE_RESOLVEKEY := "fe.conf";
     BE_RESOLVEKEY := "be.conf";
     GetDorisLoginInformation := fun _ => ("root", EmptyString);
     GetFEVIPAddresss := fun ddc => (Name ddc ++ "-fe." ++ Namespace ddc)%string;
     GetCGName := fun _ cg => Go.ReplaceAll (UniqueId cg) "_" "-";
     GetCGStatefulsetName := fun ddc cg => (Name ddc ++ "-" ++ UniqueId cg)%string;
     GetCGServiceName := fun ddc cg => (Name ddc ++ "-" ++ UniqueId cg ++ "-svc")%string;
     newCGPodsSelector := fun name uniqueId => [("cluster", name); ("group", uniqueId)];
     getCacheMaxSizeAndPaths := fun values =>
       (List.map snd (List.filter (fun kv => String.eqb (fst kv) "path") values), 0);
     BuildPVCName := fun stsName ordinal volumeName =>
       (volumeName ++ "-" ++ stsName ++ "-" ++ ordinal)%string;
     LogStoreName := "be-log";
     StorageStorePreName := "be-storage";
     MergeError := fun merged err =>
       match merged with
       | None => Some err
       | Some old => Some (ExtError (ErrorText old ++ "; " ++ ErrorText err))
       end |}.

(** *** A cluster [ddc] in namespace [doris] with the compute group [cg1] *)

Definition group (replicas : Z) : ComputeGroup :=
  {| UniqueId := "cg1"; Replicas := Some replicas; ConfigMaps := [] |}.

Definition status (phase : Phase) (uniqueId : string) (replicas : Z) : ComputeGroupStatus :=
  {| CgsPhase := phase; CgsUniqueId := uniqueId;
     CgsStatefulsetName := "ddc-" ++ uniqueId;
     CgsServiceName := "ddc-" ++ uniqueId ++ "-svc";
     CgsReplicas := replicas; CgsAvailableReplicas := replicas;
     CgsSuspendReplicas := 0 |}.

Definition ddc (groups : list ComputeGroup) (statuses : list ComputeGroupStatus)
    : DorisDisaggregatedCluster :=
  {| Namespace := "doris"; Name := "ddc"; AuthSecret := EmptyString;
     FeConfigMaps := []; ComputeGroups := groups;
     ComputeGroupStatuses := statuses |}.

(** The StatefulSet of [cg1] with a replica count. *)
Definition cg1Set (replicas : Z) : StatefulSet :=
  {| StNamespace := "doris"; StName := "ddc-cg1"; StReplicas := Some replicas |}.

Definition backend (ordinal : string) : Backend :=
  {| BackendID := "be" ++ ordinal;
     Host := "ddc-cg1-" ++ ordinal ++ ".ddc-cg1.doris.svc.cluster.local" |}.

Definition fiveBackends : list Backend :=
  [backend "0"; backend "1"; backend "2"; backend "3"; backend "4"].

Definition refused : Error := ExtError "connection refused".

(** [cg1] runs with [previous] replicas and the live backends [live], and
    the leader answers or not. *)
Definition running (previous : Z) (connected : option Error) (live : list Backend)
    : Answers :=
  {| statefulset := Found (cg1Set previous); applied := None;
     statefulsetDeleted := fun _ => None; serviceDeleted := fun _ => None;
     pvcs := inr []; pods := inr []; config := [];
     connected := connected; observers := inr [];
     backends := inr live |}.

(** *** A cluster [dcr] with a metadata tier *)

Definition metadataTier (replicas election : Z) : DorisCluster :=
  {| DcNamespace := "doris"; DcName := "dcr"; DcAuthSecret := EmptyString;
     FeReplicas := Some replicas; FeElectionNumber := Some election;
     FeConfigMapInfo := [] |}.

Definition feSet (replicas : Z) : StatefulSet :=
  {| StNamespace := "doris"; StName := "dcr-fe"; StReplicas := Some replicas |}.

Definition observer (ordinal : string) : Frontend :=
  {| FeName := "fe" ++ ordinal;
     FeHost := "dcr-fe-" ++ ordinal ++ ".dcr-fe-internal.doris.svc.cluster.local" |}.

(** The tier is addressed by name, and these are its observers. *)
Definition byName (observers : list Frontend) : Answers :=
  {| statefulset := Found (feSet 5); applied := None;
     statefulsetDeleted := fun _ => None; serviceDeleted := fun _ => None;
     pvcs := inr []; pods := inr []; config := [("start_mode", "FQDN")];
     connected := None; observers := inr observers; backends := inr [] |}.

(** The tier is addressed by IP, and the pods cannot be listed. *)
Definition podsUnavailable (observers : list Frontend) : Answers :=
  {| statefulset := Found (feSet 5); applied := None;
     statefulsetDeleted := fun _ => None; serviceDeleted := fun _ => None;
     pvcs := inr []; pods := inl (ExtError "pods unavailable"); config := [];
     connected := None; observers := inr observers; backends := inr [] |}.

(** *** Volumes *)

Definition claim (name : string) : PersistentVolumeClaim :=
  {| PvcNamespace := "doris"; PvcName := name |}.

(** The volumes of three replicas of [cg1], each with a log volume and one
    storage path. *)
Definition threeReplicasOfVolumes : Answers :=
  {| statefulset := Found (cg1Set 2); applied := None;
     statefulsetDeleted := fun _ => None; serviceDeleted := fun _ => None;
     pvcs := inr [claim "be-log-ddc-cg1-0"; claim "be-storage0-ddc-cg1-0";
                  claim "be-log-ddc-cg1-1"; claim "be-storage0-ddc-cg1-1";
                  claim "be-log-ddc-cg1-2"; claim "be-storage0-ddc-cg1-2"];
     pods := inr []; config := [("path", "/opt/doris/storage")];
     connected := None; observers := inr []; backends := inr [] |}.

(** *** Teardown *)

(** The groups [cg2] and [cg3] left the specification; the StatefulSet of
    [cg3] cannot be deleted, and the leader does not answer. *)
Definition leftBehind : Answers :=
  {| statefulset := Found (cg1Set 3); applied := None;
     statefulsetDeleted := fun name =>
       if String.eqb name "ddc-cg3" then Some (ExtError "forbidden") else None;
     serviceDeleted := fun _ => None;
     pvcs := inr []; pods := inr []; config := [];
     connected := Some refused; observers := inr []; backends := inr [] |}.

Definition afterRemoval : DorisDisaggregatedCluster :=
  ddc [group 3] [status Ready "cg1" 3; status Ready "cg2" 2; status Ready "cg3" 1].

End Scripted.

(** * More of the controller

    The definitions of this part state further properties of the functions
    above and embed the rest of [package computegroups]: the validation of
    the specification, [feAvailable], [computeGroupSync], [Sync] and
    [updateCGStatus]. [UpdateComponentStatus], which runs [updateCGStatus]
    in one goroutine for each group, is not embedded. *)

From Stdlib Require DecimalPos.

(** ** Statements on the drains *)

(** The log of a run, whether it returned or panicked. *)
Definition logOf {W A} (r : Res W A) : list Call :=
  match r with
  | Ret _ _ log => log
  | Panic log => log
  end.

(** The connection settings of the compute-group drain, lines 644 to 661. *)
Definition computeDBConf (H : Helpers) (cluster : DorisDisaggregatedCluster)
    (secret : Secret) (confMap : ConfigValues) : DBConfig :=
  {| User := fst (GetDorisLoginInformation H secret);
     Password := snd (GetDorisLoginInformation H secret);
     DbHost := GetFEVIPAddresss H cluster;
     Port := Go.Itoa (GetPort H confMap (QUERY_PORT H));
     Database := "mysql" |}.

(** The calls every run of the compute-group drain starts with: it reads
    the credentials and the configuration and connects to the leader. *)
Definition computeDrainOpening (H : Helpers) (cluster : DorisDisaggregatedCluster)
    (secret : Secret) (confMap : ConfigValues) (connected : option Error) : list Call :=
  [GetSecretCall (Namespace cluster) (AuthSecret cluster) secret;
   GetConfigValuesCall (Namespace cluster) (FE_RESOLVEKEY H) (FeConfigMaps cluster) confMap;
   NewDorisMasterSqlDBCall (computeDBConf H cluster secret confMap) connected].

(** The calls on an open connection. *)
Definition onConnection (c : Call) : bool :=
  match c with
  | GetObserversCall _ | GetBackendsByCGNameCall _ _ | DropObserverCall _ _
  | DropBECall _ _ | CloseCall => true
  | _ => false
  end.

(** A connection that was opened in a log and closed by its last call, once. *)
Definition closedAtEnd (log : list Call) : Prop :=
  exists before, log = (before ++ [CloseCall])%list /\ ~ In CloseCall before.

(** The calls that report a failure of the leader to the drain. *)
Definition failedCall (c : Call) : bool :=
  match c with
  | NewDorisMasterSqlDBCall _ (Some _) | GetObserversCall (inl _)
  | GetBackendsByCGNameCall _ (inl _) | DropObserverCall _ (Some _)
  | DropBECall _ (Some _) => true
  | _ => false
  end.

(** The error a call reports. *)
Definition reports (c : Call) (e : Error) : Prop :=
  match c with
  | NewDorisMasterSqlDBCall _ (Some e') | GetObserversCall (inl e')
  | GetBackendsByCGNameCall _ (inl e') | DropObserverCall _ (Some e')
  | DropBECall _ (Some e') => e' = e
  | _ => False
  end.

(** The connection settings of the metadata-tier drain, lines 75 to 92, and
    the calls every run of it starts with. *)
Definition feDBConf (H : Helpers) (targetDCR : DorisCluster)
    (secret : Secret) (maps : ConfigValues) : DBConfig :=
  {| User := fst (GetClusterSecret H targetDCR secret);
     Password := snd (GetClusterSecret H targetDCR secret);
     DbHost := (GenerateExternalServiceName H targetDCR ++ "." ++ DcNamespace targetDCR)%string;
     Port := Go.Itoa (GetPort H maps (QUERY_PORT H));
     Database := "mysql" |}.

Definition feDrainOpening (H : Helpers) (targetDCR : DorisCluster)
    (secret : Secret) (maps : ConfigValues) (connected : option Error) : list Call :=
  [GetSecretCall (DcNamespace targetDCR) (DcAuthSecret targetDCR) secret;
   GetConfigCall (DcNamespace targetDCR) (FeConfigMapInfo targetDCR) maps;
   NewDorisMasterSqlDBCall (feDBConf H targetDCR secret maps) connected].

(** ** Statements on the metadata tier *)

(** The warning [prepareStatefulsetApply] records when it raises the replica
    count to the election number. *)
Definition electionWarning : Call :=
  RecorderCall
    {| Type_ := EventWarning; Reason := FESpecSetError;
       Message := "The number of fe ElectionNumber is large than Replicas, Replicas has been corrected to the correct minimum value" |}.

(** ** Statements on the reconciliation of a group *)

(** The error a call to the platform reports when it fails: reading,
    creating or applying the StatefulSet. Not finding it is no failure. *)
Definition platformReports (c : Call) (e : Error) : Prop :=
  match c with
  | GetStatefulSetCall _ _ (GetFailed e') | CreateCall _ (Some e')
  | ApplyStatefulSetCall _ (Some e') => e' = e
  | _ => False
  end.

(** ** Statements on the status list *)

(** The status of a group in a status list: the first with its identifier. *)
Definition statusOf (uniqueId : string) (cgss : list ComputeGroupStatus)
    : option ComputeGroupStatus :=
  List.find (fun cgs => String.eqb (CgsUniqueId cgs) uniqueId) cgss.

(** The identifiers of a status list, in order. *)
Definition statusIds (cgss : list ComputeGroupStatus) : list string :=
  List.map CgsUniqueId cgss.

(** ** Statements on storage reclamation *)

(** The errors of the deletions of volumes that failed in a log, in order. *)
Definition failedDeletions (log : list Call) : list Error :=
  flat_map
    (fun c => match c with DeletePVCCall _ _ _ (Some err) => [err] | _ => [] end) log.

(** The events recorded in a log, in order. *)
Definition recorded (log : list Call) : list Event :=
  flat_map (fun c => match c with RecorderCall ev => [ev] | _ => [] end) log.

(** The warnings of [ClearStatefulsetUnusedPVCs], lines 511 and 550. *)
Definition listWarning (err : Error) : Event :=
  {| Type_ := EventWarning; Reason := PVCListFailed;
     Message := "DisaggregatedComputeGroupsController ClearStatefulsetUnusedPVCs list pvc failed:"
                ++ ErrorText err ++ "!" |}.

Definition deleteWarning (err : Error) : Event :=
  {| Type_ := EventWarning; Reason := PVCDeleteFailed; Message := ErrorText err |}.

(** The selectors of the listings of volumes of a log, in order. *)
Definition listedSelectors (log : list Call) : list Labels :=
  flat_map (fun c => match c with ListPVCCall _ labels _ => [labels] | _ => [] end) log.

Section ReclaimLoop.

Local Open Scope go_scope.

Context {W : Type} (K : Externals W) (H : Helpers).

(** The loop of [deletePVCs], lines 548 to 554, from the error merged so far. *)
Definition deletePVCs_from (pvcLabels : Labels)
    (claims : list PersistentVolumeClaim) (mergeError : option Error)
    : M W (option Error) :=
  forRange
    (fun mergeError claim =>
       deleted <- k8s_DeletePVC K (PvcNamespace claim) (PvcName claim) pvcLabels ;;
       match deleted with
       | Some err =>
           K8srecorder_Event K EventWarning PVCDeleteFailed (ErrorText err) ;;;
           ret (MergeError H mergeError err)
       | None => ret mergeError
       end)
    claims mergeError.

End ReclaimLoop.

(** ** Statements on the teardown *)

(** The selector of the volumes of a status. *)
Definition selectorOf (H : Helpers) (ddc : DorisDisaggregatedCluster)
    (cgs : ComputeGroupStatus) : Labels :=
  newCGPodsSelector H (Name ddc) (CgsUniqueId cgs).

(** The calls of the teardown of a group. *)
Definition clearCall (c : Call) : bool :=
  match c with
  | ListPVCCall _ _ _ | DeletePVCCall _ _ _ _ => false
  | _ => true
  end.

(** The names of the groups whose backends a log lists, in order. *)
Definition drainedGroups (log : list Call) : list string :=
  flat_map
    (fun c => match c with GetBackendsByCGNameCall cgName _ => [cgName] | _ => [] end)
    log.

(** The name under which [ClearResources] drops the backends of a status,
    line 461. *)
Definition clearedName (cgs : ComputeGroupStatus) : string :=
  Go.ReplaceAll (CgsUniqueId cgs) "_" "-".

(** A call that lists the backends of no other group than these. *)
Definition drainsOnly (cgNames : list string) (c : Call) : bool :=
  match c with
  | GetBackendsByCGNameCall cgName _ => existsb (String.eqb cgName) cgNames
  | _ => true
  end.

(** ** The synchronization of the compute groups

    [Sync], [validateComputeGroup], [feAvailable], [computeGroupSync] and
    [updateCGStatus] call three more collaborators: the read of the
    Endpoints of the FE Service, [DefaultReconcileService] and the listing
    of the pods of a group; and they record events with reasons of their
    own. Their calls are logged beside those of the functions above. *)

(** The fields of [corev1.Endpoints], [corev1.Service] and [corev1.Pod]
    the code reads. *)
Record EndpointSubset := mkSubset { Addresses : list string }.

Record Service := mkService { SvcNamespace : string; SvcName : string }.

Record PodStatus := mkPodStatus { PsPhase : string; PsConditions : list (string * string) }.

(** [corev1.PodRunning] and [corev1.PodPending]. *)
Definition PodRunning : string := "Running".
Definition PodPending : string := "Pending".

(** The reasons of the events of [Sync]: its own, those of the events
    [reconcileStatefulset] returns, and those of the events of
    [DefaultReconcileService], which is not under src/. *)
Inductive SyncReason :=
| ComputeGroupsEmpty | WaitFEAvailable | CGUniqueIdentifierDuplicate
| CGUniqueIdentifierNotMatchRegex
| ControllerReason (reason : EventReason)
| ServiceReason (reason : string).

Record SyncEvent := mkSyncEvent {
  SeType : EventType; SeReason : SyncReason; SeMessage : string }.

Definition ofEvent (ev : Event) : SyncEvent :=
  {| SeType := Type_ ev; SeReason := ControllerReason (Reason ev);
     SeMessage := Message ev |}.

Inductive SyncCall :=
| Base (c : Call)
| GetEndpointsCall (ns name : string) (res : Error + list EndpointSubset)
| ReconcileServiceCall (svc : Service) (res : option SyncEvent * option Error)
| ListPodsCall (ns : string) (labels : Labels) (res : Error + list PodStatus)
| SyncEventCall (ev : SyncEvent).

Inductive SyncRes (W A : Type) :=
| SyncRet (a : A) (w : W) (log : list SyncCall)
| SyncPanic (log : list SyncCall).
Arguments SyncRet {W A} a w log.
Arguments SyncPanic {W A} log.

Definition SyncM (W A : Type) : Type := W -> SyncRes W A.

Definition syncRet {W A} (a : A) : SyncM W A := fun w => SyncRet a w [].

Definition syncBind {W A B} (m : SyncM W A) (k : A -> SyncM W B) : SyncM W B :=
  fun w =>
    match m w with
    | SyncRet a w1 log1 =>
        match k a w1 with
        | SyncRet b w2 log2 => SyncRet b w2 (log1 ++ log2)
        | SyncPanic log2 => SyncPanic (log1 ++ log2)
        end
    | SyncPanic log1 => SyncPanic log1
    end.

(** A computation of the functions above, its calls logged as they are. *)
Definition lift {W A} (m : M W A) : SyncM W A :=
  fun w =>
    match m w with
    | Ret a w1 log => SyncRet a w1 (List.map Base log)
    | Panic log => SyncPanic (List.map Base log)
    end.

Definition syncCall {W R} (op : W -> R * W) (entry : R -> SyncCall) : SyncM W R :=
  fun w => let (r, w1) := op w in SyncRet r w1 [entry r].

Definition syncDeref {W A} (p : option A) : SyncM W A :=
  match p with
  | Some a => syncRet a
  | None => fun _ => SyncPanic []
  end.

Fixpoint syncForRange {W A S} (body : S -> A -> SyncM W S) (l : list A) (acc : S)
    : SyncM W S :=
  match l with
  | [] => syncRet acc
  | x :: rest => syncBind (body acc x) (syncForRange body rest)
  end.

Declare Scope sync_scope.
Delimit Scope sync_scope with sync.
Notation "x <- m ;; k" := (syncBind m (fun x => k))
  (at level 100, m at next level, right associativity) : sync_scope.
Notation "m ;;; k" := (syncBind m (fun _ => k))
  (at level 100, right associativity) : sync_scope.

Record SyncExternals (W : Type) := mkSyncExternals {
  GetEndpoints : string -> string -> W -> (Error + list EndpointSubset) * W;
  DefaultReconcileService : Service -> W -> (option SyncEvent * option Error) * W;
  ListPods : string -> Labels -> W -> (Error + list PodStatus) * W;
  SyncRecorderEvent : SyncEvent -> W -> W }.

Arguments GetEndpoints {W}.
Arguments DefaultReconcileService {W}.
Arguments ListPods {W}.
Arguments SyncRecorderEvent {W}.

(** Functions and constants declared outside src/ that these functions
    use: the builders of the StatefulSet and of the Service of a group,
    which only read the cluster and the group; the string set of
    [package set]; [regexp.Match] and the pattern of the identifiers;
    [fmt.Sprintf] on a format without arguments, which is what [Eventf]
    does to the message it is given; and [k8s.PodIsReady]. *)
Record SyncHelpers := mkSyncHelpers {
  GetFEServiceName : DorisDisaggregatedCluster -> string;
  NewStatefulset :
    DorisDisaggregatedCluster -> ComputeGroup -> ConfigValues -> StatefulSet;
  newService : DorisDisaggregatedCluster -> ComputeGroup -> ConfigValues -> Service;
  SetString : Type;
  NewSetString : SetString;
  Find : SetString -> string -> bool;
  Add : SetString -> string -> SetString;
  compute_group_name_regex : string;
  regexpMatch : string -> string -> bool * option Error;
  Sprintf : string -> string;
  PodIsReady : PodStatus -> bool }.

(** What the code expects of the string set: a new set holds nothing, and
    a set holds what was added to it. *)
Definition lawfulSet (P : SyncHelpers) : Prop :=
  (forall s, Find P (NewSetString P) s = false)
  /\ (forall set s t, Find P (Add P set s) t = String.eqb s t || Find P set t).

Definition set_Replicas (cg : ComputeGroup) (r : option Z) : ComputeGroup :=
  {| UniqueId := UniqueId cg; Replicas := r; ConfigMaps := ConfigMaps cg |}.

Definition set_ComputeGroups (ddc : DorisDisaggregatedCluster)
    (groups : list ComputeGroup) : DorisDisaggregatedCluster :=
  {| Namespace := Namespace ddc; Name := Name ddc; AuthSecret := AuthSecret ddc;
     FeConfigMaps := FeConfigMaps ddc; ComputeGroups := groups;
     ComputeGroupStatuses := ComputeGroupStatuses ddc |}.

Definition set_AvailableReplicas (cgs : ComputeGroupStatus) (n : Z)
    : ComputeGroupStatus :=
  {| CgsPhase := CgsPhase cgs; CgsUniqueId := CgsUniqueId cgs;
     CgsStatefulsetName := CgsStatefulsetName cgs;
     CgsServiceName := CgsServiceName cgs; CgsReplicas := CgsReplicas cgs;
     CgsAvailableReplicas := n;
     CgsSuspendReplicas := CgsSuspendReplicas cgs |}.

Section SyncController.

Context {W : Type} (K : Externals W) (H : Helpers)
  (X : SyncExternals W) (P : SyncHelpers).

Local Open Scope sync_scope.

Definition K8srecorder_SyncEvent (t : EventType) (reason : SyncReason)
    (message : string) : SyncM W unit :=
  let ev := {| SeType := t; SeReason := reason; SeMessage := message |} in
  syncCall (fun w => (tt, SyncRecorderEvent X ev w)) (fun _ => SyncEventCall ev).

(** [K8srecorder.Eventf] with a format and no arguments. *)
Definition K8srecorder_Eventf (t : EventType) (reason : SyncReason)
    (messageFmt : string) : SyncM W unit :=
  K8srecorder_SyncEvent t reason (Sprintf P messageFmt).

(** [validateDuplicated], lines 391 to 402: the loop carries the duplicates
    found and the set of the identifiers seen. *)
Definition validateDuplicated (cgs : list ComputeGroup) : string :=
  fst (fold_left
         (fun '(dupl, uniqueIds) cg =>
            ((if Find P uniqueIds (UniqueId cg)
              then dupl ++ UniqueId cg ++ ";" else dupl)%string,
             Add P uniqueIds (UniqueId cg)))
         cgs (EmptyString, NewSetString P)).

(** [validateRegex], lines 405 to 422; the error of [regexp.Match] is only
    logged. *)
Definition validateRegex (cgs : list ComputeGroup) : string * bool :=
  let regStr :=
    fold_left
      (fun regStr cg =>
         let (res, _) := regexpMatch P (compute_group_name_regex P) (UniqueId cg) in
         if negb res
         then (regStr ++ UniqueId cg ++ " not match " ++ compute_group_name_regex P)%string
         else regStr)
      cgs EmptyString in
  if negb (String.eqb regStr EmptyString) then (regStr, false)
  else (EmptyString, true).

Definition validateComputeGroup (cgs : list ComputeGroup) : option SyncEvent * bool :=
  let dupl := validateDuplicated cgs in
  if negb (String.eqb dupl EmptyString) then
    (Some {| SeType := EventWarning; SeReason := CGUniqueIdentifierDuplicate;
             SeMessage := "unique identifier " ++ dupl ++ " duplicate in compute groups." |},
     false)
  else
    let (reg, res) := validateRegex cgs in
    if negb res then
      (Some {| SeType := EventWarning; SeReason := CGUniqueIdentifierNotMatchRegex;
               SeMessage := reg |}, false)
    else (None, true).

Definition feAvailable (ddc : DorisDisaggregatedCluster) : SyncM W bool :=
  got <- syncCall (GetEndpoints X (Namespace ddc) (GetFEServiceName P ddc))
           (GetEndpointsCall (Namespace ddc) (GetFEServiceName P ddc)) ;;
  match got with
  | inl _ => syncRet false
  | inr subsets =>
      syncRet (existsb (fun sub => (0 <? length (Addresses sub))%nat) subsets)
  end.

(** [computeGroupSync] is given [&cgs[i]], a pointer into the specification
    of the cluster: it is given the index here, and the group it defaults
    is the group of the cluster ([resource.GetInt32Pointer(1)] is a pointer
    to one). The function returns [(event, err)]; the cluster it leaves is
    returned with them. *)
Definition computeGroupSync (ddc : DorisDisaggregatedCluster) (i : nat)
    : SyncM W (option SyncEvent * option Error * DorisDisaggregatedCluster) :=
  cg <- syncDeref (ComputeGroups ddc !! i) ;;
  let cg :=
    match Replicas cg with
    | None => set_Replicas cg (Some 1)
    | Some _ => cg
    end in
  let ddc := set_ComputeGroups ddc (<[i := cg]> (ComputeGroups ddc)) in
  cvs <- lift (k8s_GetConfigValuesFromConfigMaps K (Namespace ddc)
                 (BE_RESOLVEKEY H) (ConfigMaps cg)) ;;
  let st := NewStatefulset P ddc cg cvs in
  let svc := newService P ddc cg cvs in
  ddc <- syncDeref (initialCGStatus H ddc cg) ;;
  reconciled <- syncCall (DefaultReconcileService X svc) (ReconcileServiceCall svc) ;;
  let '(event, err) := reconciled in
  match err with
  | Some _ => syncRet (event, err, ddc)
  | None =>
      reconciled <- lift (reconcileStatefulset K H st ddc cg) ;;
      let '(event, err, ddc) := reconciled in
      syncRet (ofEvent <$> event, err, ddc)
  end.

(** The body of the loop of [Sync], lines 236 to 241. *)
Definition syncGroup (ddc : DorisDisaggregatedCluster) (i : nat)
    : SyncM W DorisDisaggregatedCluster :=
  synced <- computeGroupSync ddc i ;;
  let '(event, err, ddc) := synced in
  match err, event with
  | Some _, Some event =>
      K8srecorder_SyncEvent (SeType event) (SeReason event) (SeMessage event) ;;;
      syncRet ddc
  | _, _ => syncRet ddc
  end.

(** The function returns an error and updates the cluster in place; the
    cluster it leaves is returned with the error. *)
Definition Sync (ddc : DorisDisaggregatedCluster)
    : SyncM W (option Error * DorisDisaggregatedCluster) :=
  if (length (ComputeGroups ddc) =? 0)%nat then
    K8srecorder_SyncEvent EventWarning ComputeGroupsEmpty
      "compute group empty, the cluster will not work normal." ;;;
    syncRet (None, ddc)
  else
    available <- feAvailable ddc ;;
    if negb available then
      K8srecorder_SyncEvent EventNormal WaitFEAvailable "fe have not ready." ;;;
      syncRet (None, ddc)
    else
      let (event, res) := validateComputeGroup (ComputeGroups ddc) in
      if negb res then
        event <- syncDeref event ;;
        K8srecorder_Eventf (SeType event) (SeReason event) (SeMessage event) ;;;
        syncRet (Some (ExtError "validating compute group failed"), ddc)
      else
        ddc <- syncForRange syncGroup (seq 0 (length (ComputeGroups ddc))) ddc ;;
        syncRet (None, ddc).

(** The loop of lines 620 to 628: the three [int32] counters. *)
Definition classifyPods (items : list PodStatus) : Z * Z * Z :=
  fold_left
    (fun '(availableReplicas, creatingReplicas, failedReplicas) pod =>
       if PodIsReady P pod
       then (Go.wrap32 (availableReplicas + 1), creatingReplicas, failedReplicas)
       else if String.eqb (PsPhase pod) PodRunning || String.eqb (PsPhase pod) PodPending
       then (availableReplicas, Go.wrap32 (creatingReplicas + 1), failedReplicas)
       else (availableReplicas, creatingReplicas, Go.wrap32 (failedReplicas + 1)))
    items (0, 0, 0).

(** [updateCGStatus] is given a pointer to the status; the status it leaves
    is returned with the error. *)
Definition updateCGStatus (ddc : DorisDisaggregatedCluster) (cgs : ComputeGroupStatus)
    : SyncM W (option Error * ComputeGroupStatus) :=
  let selector := newCGPodsSelector H (Name ddc) (CgsUniqueId cgs) in
  listed <- syncCall (ListPods X (Namespace ddc) selector)
              (ListPodsCall (Namespace ddc) selector) ;;
  match listed with
  | inl err => syncRet (Some err, cgs)
  | inr items =>
      let '(availableReplicas, _, _) := classifyPods items in
      let cgs := set_AvailableReplicas cgs availableReplicas in
      let cgs :=
        if availableReplicas =? CgsReplicas cgs then set_Phase cgs Ready else cgs in
      syncRet (None, cgs)
  end.

End SyncController.

(** ** Statements on the validation *)

(** The identifiers of the groups of a specification, in order. *)
Definition groupIds (cgs : list ComputeGroup) : list string :=
  List.map UniqueId cgs.

(** The identifier of a group matches the pattern of the identifiers. *)
Definition matchesRegex (P : SyncHelpers) (cg : ComputeGroup) : bool :=
  fst (regexpMatch P (compute_group_name_regex P) (UniqueId cg)).

(** ** Statements on the synchronization *)

(** A group with the replica count [computeGroupSync] leaves it: one when
    it was nil. *)
Definition defaultReplicas (cg : ComputeGroup) : ComputeGroup :=
  match Replicas cg with
  | None => set_Replicas cg (Some 1)
  | Some _ => cg
  end.

(** The calls [Sync] makes before it works on any group: the read of the
    Endpoints of the FE Service, and events. *)
Definition guardCall (c : SyncCall) : bool :=
  match c with
  | GetEndpointsCall _ _ _ | SyncEventCall _ => true
  | _ => false
  end.

Definition validationError : Error := ExtError "validating compute group failed".

(** What [feAvailable] answers in a world. *)
Definition feReady {W} (X : SyncExternals W) (P : SyncHelpers)
    (ddc : DorisDisaggregatedCluster) (w : W) : bool :=
  match feAvailable X P ddc w with
  | SyncRet available _ _ => available
  | SyncPanic _ => false
  end.

(** The three conditions under which [Sync] works on the groups: there are
    groups, the FE is available, and the specification is valid. *)
Definition passesGuards {W} (X : SyncExternals W) (P : SyncHelpers)
    (ddc : DorisDisaggregatedCluster) (w : W) : bool :=
  negb (length (ComputeGroups ddc) =? 0)%nat
  && feReady X P ddc w
  && snd (validateComputeGroup P (ComputeGroups ddc)).

(** The Services a log reconciles, and the events it records, in order. *)
Definition reconciledServices (log : list SyncCall) : list Service :=
  flat_map (fun c => match c with ReconcileServiceCall svc _ => [svc] | _ => [] end) log.

Definition syncEvents (log : list SyncCall) : list SyncEvent :=
  flat_map (fun c => match c with SyncEventCall ev => [ev] | _ => [] end) log.

(** The calls of a log to the collaborators of the functions above. *)
Definition baseCalls (log : list SyncCall) : list Call :=
  flat_map (fun c => match c with Base c => [c] | _ => [] end) log.

(** The pods of a list that are ready. *)
Definition readyPods (P : SyncHelpers) (items : list PodStatus) : list PodStatus :=
  List.filter (PodIsReady P) items.

(** ** A scripted world for the synchronization

    The three collaborators of [Sync] give fixed answers; the string set is
    a list, the pattern accepts the identifiers made of lower-case letters,
    digits and underscores, the messages hold no formatting verb, and a pod
    is ready when it has the condition [Ready] with status [True]. *)

Module ScriptedSync.

Import Scripted.

Record SyncAnswers := mkSyncAnswers {
  endpoints : Error + list EndpointSubset;
  service : option SyncEvent * option Error;
  podList : Error + list PodStatus }.

Definition syncWorld (a : SyncAnswers) : SyncExternals unit :=
  {| GetEndpoints := fun _ _ w => (endpoints a, w);
     DefaultReconcileService := fun _ w => (service a, w);
     ListPods := fun _ _ w => (podList a, w);
     SyncRecorderEvent := fun _ w => w |}.

Definition identifierByte (c : ascii) : bool :=
  let n := nat_of_ascii c in
  ((97 <=? n) && (n <=? 122) || (48 <=? n) && (n <=? 57) || (n =? 95))%nat.

Fixpoint identifier (s : string) : bool :=
  match s with
  | EmptyString => true
  | String c rest => identifierByte c && identifier rest
  end.

Definition syncNames : SyncHelpers :=
  {| GetFEServiceName := fun ddc => (Name ddc ++ "-fe")%string;
     NewStatefulset := fun ddc cg _ =>
       {| StNamespace := Namespace ddc;
          StName := GetCGStatefulsetName names ddc cg;
          StReplicas := Replicas cg |};
     newService := fun ddc cg _ =>
       {| SvcNamespace := Namespace ddc; SvcName := GetCGServiceName names ddc cg |};
     SetString := list string;
     NewSetString := [];
     Find := fun set s => existsb (fun t => String.eqb t s) set;
     Add := fun set s => s :: set;
     compute_group_name_regex := "^[a-z0-9_]+$";
     regexpMatch := fun _ s =>
       (negb (String.eqb s EmptyString) && identifier s, None);
     Sprintf := fun message => message;
     PodIsReady := fun pod =>
       existsb (fun c => String.eqb (fst c) "Ready" && String.eqb (snd c) "True")
         (PsConditions pod) |}.

(** The FE has an address, or none. *)
Definition feUp : Error + list EndpointSubset :=
  inr [{| Addresses := [] |}; {| Addresses := ["10.0.0.5"] |}].

Definition feDown : Error + list EndpointSubset := inr [{| Addresses := [] |}].

(** The Services are reconciled, or not. *)
Definition serviceOk : option SyncEvent * option Error := (None, None).

Definition serviceFails : option SyncEvent * option Error :=
  (Some {| SeType := EventWarning; SeReason := ServiceReason "ServiceFailed";
           SeMessage := "forbidden" |},
   Some (ExtError "forbidden")).

Definition readyPod : PodStatus :=
  {| PsPhase := "Running"; PsConditions := [("Ready", "True")] |}.

Definition pendingPod : PodStatus :=
  {| PsPhase := "Pending"; PsConditions := [("Ready", "False")] |}.

Definition answers (endpoints : Error + list EndpointSubset)
    (service : option SyncEvent * option Error) : SyncAnswers :=
  {| endpoints := endpoints; service := service;
     podList := inr [readyPod; pendingPod; readyPod] |}.

(** A specification with the groups [cg1], without a replica count, and
    [cg2], and the status of [cg2]. *)
Definition twoGroups : DorisDisaggregatedCluster :=
  ddc [{| UniqueId := "cg1"; Replicas := None; ConfigMaps := [] |};
       {| UniqueId := "cg2"; Replicas := Some 2; ConfigMaps := [] |}]
      [status Ready "cg2" 2].

(** The same identifier twice. *)
Definition duplicated : DorisDisaggregatedCluster :=
  ddc [group 3; group 2] [].

(** The volumes cannot be listed. *)
Definition volumesUnavailable : Answers :=
  {| statefulset := Found (cg1Set 2); applied := None;
     statefulsetDeleted := fun _ => None; serviceDeleted := fun _ => None;
     pvcs := inl (ExtError "volumes unavailable");
     pods := inr []; config := [];
     connected := None; observers := inr []; backends := inr [] |}.

End ScriptedSync.

(** ** Statements on the names of the pods *)

(** A byte occurs in a string. *)
Fixpoint contains (c : ascii) (s : string) : bool :=
  match s with
  | EmptyString => false
  | String c' rest => Ascii.eqb c' c || contains c rest
  end.

(** The value of decimal digits read after the value [acc]. *)
Fixpoint digitsValue (d : Decimal.uint) (acc : Z) : Z :=
  match d with
  | Decimal.Nil => acc
  | Decimal.D0 l => digitsValue l (10 * acc)
  | Decimal.D1 l => digitsValue l (10 * acc + 1)
  | Decimal.D2 l => digitsValue l (10 * acc + 2)
  | Decimal.D3 l => digitsValue l (10 * acc + 3)
  | Decimal.D4 l => digitsValue l (10 * acc + 4)
  | Decimal.D5 l => digitsValue l (10 * acc + 5)
  | Decimal.D6 l => digitsValue l (10 * acc + 6)
  | Decimal.D7 l => digitsValue l (10 * acc + 7)
  | Decimal.D8 l => digitsValue l (10 * acc + 8)
  | Decimal.D9 l => digitsValue l (10 * acc + 9)
  end.

(** The host of the pod of ordinal [n] of a StatefulSet, under a domain. *)
Definition podHost (stsName : string) (n : Z) (domain : string) : string :=
  (stsName ++ "-" ++ Go.Itoa n ++ "." ++ domain)%string.

(** * Properties of the model *)

(** ** Go's functions on a few inputs *)

Example Split_examples :
  Go.Split "." "a.b.c" = ["a"; "b"; "c"]
  /\ Go.Split "-" "ddc-cg1-3" = ["ddc"; "cg1"; "3"]
  /\ Go.Split "." EmptyString = [EmptyString]
  /\ Go.Split "-" "a-" = ["a"; EmptyString].
Proof. repeat split; reflexivity. Qed.

Example Atoi_examples :
  Go.Atoi "12" = inr 12
  /\ Go.Atoi "007" = inr 7
  /\ Go.Atoi "+5" = inr 5
  /\ Go.Atoi "-5" = inr (-5)
  /\ Go.Atoi EmptyString = inl Go.ErrSyntax
  /\ Go.Atoi "-" = inl Go.ErrSyntax
  /\ Go.Atoi "1_0" = inl Go.ErrSyntax
  /\ Go.Atoi "3a" = inl Go.ErrSyntax
  /\ Go.Atoi "9223372036854775807" = inr (2 ^ 63 - 1)
  /\ Go.Atoi "9223372036854775808" = inl Go.ErrRange
  /\ Go.Atoi "-9223372036854775808" = inr (- 2 ^ 63)
  /\ Go.Atoi "99999999999999999999999x" = inl Go.ErrRange.
Proof. repeat split; reflexivity. Qed.

Example Itoa_examples :
  Go.Itoa 0 = "0" /\ Go.Itoa 12 = "12" /\ Go.Itoa (-5) = "-5".
Proof. repeat split; reflexivity. Qed.

Example ReplaceAll_example : Go.ReplaceAll "cg_a_1" "_" "-" = "cg-a-1".
Proof. reflexivity. Qed.

Example wrap32_examples :
  Go.wrap32 5 = 5 /\ Go.wrap32 (2 ^ 31) = - 2 ^ 31 /\ Go.wrap32 (- 2 ^ 31 - 1) = 2 ^ 31 - 1.
Proof. repeat split; reflexivity. Qed.

(** ** Arithmetic of [int32] *)

Lemma wrap32_small z : Go.in_int32 z -> Go.wrap32 z = z.
Proof.
  unfold Go.in_int32, Go.wrap32. intros Hz.
  rewrite Z.mod_small; lia.
Qed.

Lemma wrap32_wrap32_add a b : Go.wrap32 (Go.wrap32 a + b) = Go.wrap32 (a + b).
Proof.
  unfold Go.wrap32. f_equal.
  replace ((a + 2 ^ 31) mod 2 ^ 32 - 2 ^ 31 + b + 2 ^ 31)
    with ((a + 2 ^ 31) mod 2 ^ 32 + b) by lia.
  rewrite Zplus_mod_idemp_l. f_equal. lia.
Qed.

Lemma wrap32_wrap32_sub a b : Go.wrap32 (Go.wrap32 a - b) = Go.wrap32 (a - b).
Proof. apply (wrap32_wrap32_add a (- b)). Qed.

(** ** Computations that return *)

Section Emits.

Context {W : Type} (P : Call -> bool).

Lemma emits_ret {A} (a : A) : emits (W := W) P (ret a).
Proof. intros w. now exists a, w, []. Qed.

Lemma emits_bind {A B} (m : M W A) (k : A -> M W B) :
  emits P m -> (forall a, emits P (k a)) -> emits P (bind m k).
Proof.
  intros Hm Hk w. unfold bind.
  destruct (Hm w) as (a & w1 & log1 & -> & H1).
  destruct (Hk a w1) as (b & w2 & log2 & -> & H2).
  exists b, w2, (log1 ++ log2)%list. split; [reflexivity|].
  rewrite forallb_app, H1, H2. reflexivity.
Qed.

Lemma emits_call {R} (op : W -> R * W) (entry : R -> Call) :
  (forall r, P (entry r) = true) -> emits P (call op entry).
Proof.
  intros HP w. unfold call. destruct (op w) as [r w1].
  exists r, w1, [entry r]. split; [reflexivity|]. simpl. now rewrite HP.
Qed.

Lemma emits_deref {A} (a : A) : emits (W := W) P (deref (Some a)).
Proof. apply emits_ret. Qed.

Lemma emits_deferClose (K : Externals W) {A} (m : M W A) :
  P CloseCall = true -> emits P m -> emits P (deferClose K m).
Proof.
  intros HP Hm w. unfold deferClose.
  destruct (Hm w) as (a & w1 & log & -> & Hlog).
  exists a, (Close K w1), (log ++ [CloseCall])%list. split; [reflexivity|].
  rewrite forallb_app, Hlog. simpl. now rewrite HP.
Qed.

Lemma emits_forRange {A S} (body : S -> A -> M W S) (l : list A) :
  (forall acc x, In x l -> emits P (body acc x)) ->
  forall acc, emits P (forRange body l acc).
Proof.
  induction l as [|x rest IH]; intros Hbody acc; simpl.
  - apply emits_ret.
  - apply emits_bind.
    + apply Hbody. now left.
    + intros acc'. apply IH. intros acc'' y Hy. apply Hbody. now right.
Qed.

End Emits.

(** Steps through a computation that returns. *)
Ltac emits_step :=
  first
    [ apply emits_ret
    | apply emits_deref
    | apply emits_call; intros; reflexivity
    | apply emits_deferClose; [reflexivity|]
    | apply emits_bind; [|intros ?] ].

(** ** The drain of a compute group *)

Example podNum_example :
  podNum "ddc-cg1-3.ddc-cg1.doris.svc.cluster.local" = inr 3
  /\ podNum "10.0.0.7" = inr 10
  /\ podNum "ddc-cg1-x.svc" = inl (NumError "x" Go.ErrSyntax).
Proof. repeat split; reflexivity. Qed.

Section Selection.

Context {W : Type} (K : Externals W) (H : Helpers).

Lemma selectDropNodes_inr allBackends keep dropNodes nodes :
  selectDropNodes allBackends keep dropNodes = inr nodes ->
  nodes = (dropNodes ++ List.filter (ordinalAtLeast keep) allBackends)%list
  /\ Forall resolves allBackends.
Proof.
  revert dropNodes.
  induction allBackends as [|node rest IH]; intros dropNodes; simpl.
  - intros [= <-]. rewrite app_nil_r. split; [reflexivity | constructor].
  - unfold ordinalAtLeast at 1.
    destruct (podNum (Host node)) as [err|n] eqn:Hn; [discriminate|].
    rewrite Z.geb_leb.
    destruct (keep <=? n); intros Hsel; apply IH in Hsel as [-> Hall];
      (split; [|constructor; [exists n; exact Hn | exact Hall]]).
    + now rewrite <- app_assoc.
    + reflexivity.
Qed.

Lemma selectDropNodes_resolves allBackends keep dropNodes :
  Forall resolves allBackends ->
  selectDropNodes allBackends keep dropNodes
  = inr (dropNodes ++ List.filter (ordinalAtLeast keep) allBackends)%list.
Proof.
  intros Hall. revert dropNodes.
  induction Hall as [|node rest [n Hn] _ IH]; intros dropNodes; simpl.
  - now rewrite app_nil_r.
  - unfold ordinalAtLeast at 1. rewrite Hn, Z.geb_leb.
    destruct (keep <=? n); rewrite IH; [now rewrite <- app_assoc | reflexivity].
Qed.

Lemma selectDropNodes_inl allBackends keep dropNodes err :
  selectDropNodes allBackends keep dropNodes = inl err ->
  exists node, In node allBackends /\ podNum (Host node) = inl err.
Proof.
  revert dropNodes.
  induction allBackends as [|node rest IH]; intros dropNodes; simpl; [discriminate|].
  destruct (podNum (Host node)) as [err'|n] eqn:Hn.
  - intros [= <-]. exists node. auto.
  - destruct (n >=? keep); intros Hsel; apply IH in Hsel as (node' & Hin & Hp);
      exists node'; auto.
Qed.

End Selection.

Section DrainReturns.

Context {W : Type} (K : Externals W) (H : Helpers).

Lemma scaledOutBENodesBySQL_emits cluster cgName keep :
  emits computeDrainCall (scaledOutBENodesBySQL K H cluster cgName keep).
Proof.
  unfold scaledOutBENodesBySQL.
  emits_step; [unfold k8s_GetSecret; emits_step|].
  destruct (GetDorisLoginInformation H a) as [user password].
  emits_step; [unfold k8s_GetConfigValuesFromConfigMaps; emits_step|].
  emits_step; [unfold mysql_NewDorisMasterSqlDB; emits_step|].
  destruct a1 as [err|]; [emits_step|].
  emits_step.
  emits_step; [unfold mysql_GetBackendsByCGName; emits_step|].
  destruct a1 as [err|allBackends]; [emits_step|].
  destruct (selectDropNodes allBackends keep []) as [err|dropNodes]; [emits_step|].
  destruct (length dropNodes =? 0)%nat; [emits_step|].
  emits_step; [unfold mysql_DropBE; emits_step|].
  destruct a1; emits_step.
Qed.

End DrainReturns.

(** Membership in a log that is written out. *)
Ltac in_log Hin :=
  simpl in Hin;
  repeat (destruct Hin as [Hin|Hin]; [try discriminate Hin|]);
  try contradiction.


Section Drain.

Context {W : Type} (K : Externals W) (H : Helpers).


(** Every failure of the compute-group drain is returned: that of the
    connection, of the listing, of an ordinal that does not parse, and of
    the removal. *)
Lemma scaledOutBENodesBySQL_returns_errors
    (cluster : DorisDisaggregatedCluster) (cgName : string) (R : Z) (w : W) :
  exists err w' log,
    scaledOutBENodesBySQL K H cluster cgName R w = Ret err w' log
    /\ (forall conf e, In (NewDorisMasterSqlDBCall conf (Some e)) log -> err = Some e)
    /\ (forall e, In (GetBackendsByCGNameCall cgName (inl e)) log -> err = Some e)
    /\ (forall allBackends e,
          In (GetBackendsByCGNameCall cgName (inr allBackends)) log ->
          selectDropNodes allBackends R [] = inl e -> err = Some e)
    /\ (forall nodes dropped, In (DropBECall nodes dropped) log -> err = dropped).
Proof.
  unfold scaledOutBENodesBySQL, bind, k8s_GetSecret, call.
  destruct (GetSecret K (Namespace cluster) (AuthSecret cluster) w) as [secret w1].
  destruct (GetDorisLoginInformation H secret) as [user password].
  unfold k8s_GetConfigValuesFromConfigMaps, call.
  destruct (GetConfigValuesFromConfigMaps K _ _ _ w1) as [confMap w2].
  unfold mysql_NewDorisMasterSqlDB, call.
  destruct (NewDorisMasterSqlDB K _ w2) as [[err|] w3]; cbn.
  { do 3 eexists. split; [reflexivity|].
    repeat split; intros; match goal with Hin : In _ _ |- _ => in_log Hin end.
    congruence. }
  unfold deferClose, bind, mysql_GetBackendsByCGName, call.
  destruct (GetBackendsByCGName K cgName w3) as [[err|allBackends] w4]; cbn.
  { do 3 eexists. split; [reflexivity|].
    repeat split; intros; match goal with Hin : In _ _ |- _ => in_log Hin end.
    congruence. }
  destruct (selectDropNodes allBackends R []) as [err|dropNodes] eqn:Hsel; cbn.
  { do 3 eexists. split; [reflexivity|].
    repeat split; intros; match goal with Hin : In _ _ |- _ => in_log Hin end.
    congruence. }
  destruct (length dropNodes =? 0)%nat; cbn.
  { do 3 eexists. split; [reflexivity|].
    repeat split; intros; match goal with Hin : In _ _ |- _ => in_log Hin end.
    congruence. }
  unfold mysql_DropBE, call.
  destruct (DropBE K dropNodes w4) as [[err|] w5]; cbn;
    (do 3 eexists; split; [reflexivity|];
     repeat split; intros; match goal with Hin : In _ _ |- _ => in_log Hin end;
     congruence).
Qed.

End Drain.

(** ** The drain of the metadata tier *)

Lemma needRemovedAmount_exact allObserves replicas electionNumber :
  Go.in_int32 (Z.of_nat (length allObserves) - replicas + electionNumber) ->
  needRemovedAmount allObserves replicas electionNumber
  = Z.of_nat (length allObserves) - replicas + electionNumber.
Proof.
  intros Hrange. unfold needRemovedAmount.
  rewrite wrap32_wrap32_sub, wrap32_wrap32_add. now apply wrap32_small.
Qed.

Lemma FindNeedDeletedFrontends_length frontendMap n :
  length (FindNeedDeletedFrontends frontendMap n)
  = Nat.min (Z.to_nat n) (size frontendMap).
Proof.
  unfold FindNeedDeletedFrontends.
  rewrite length_take, length_fmap, merge_sort_Permutation, length_map_to_list.
  reflexivity.
Qed.

Lemma FindNeedDeletedFrontends_from_map frontendMap n fe :
  In fe (FindNeedDeletedFrontends frontendMap n) ->
  exists ordinal, frontendMap !! ordinal = Some fe.
Proof.
  unfold FindNeedDeletedFrontends. rewrite <- list_elem_of_In.
  intros Hin. apply subseteq_take in Hin.
  apply list_elem_of_fmap in Hin as ([ordinal fe'] & -> & Hin).
  rewrite merge_sort_Permutation in Hin.
  apply elem_of_map_to_list in Hin. now exists ordinal.
Qed.

(** The mapping holds at most one entry for each observer, and fewer only
    when two observers resolve to one ordinal. *)
Lemma buildFrontendMap_size frontends ipMap podTemplateName :
  forall frontendMap resolved,
    buildFrontendMap frontends ipMap podTemplateName frontendMap = inr resolved ->
    (size resolved <= size frontendMap + length frontends)%nat.
Proof.
  induction frontends as [|fe rest IH]; intros frontendMap resolved; simpl.
  - intros [= <-]. lia.
  - destruct (resolvePodName ipMap podTemplateName fe) as [err|podName];
      [discriminate|].
    destruct (parseOrdinal podName) as [err|num]; [discriminate|].
    intros Hrest. apply IH in Hrest.
    pose proof (map_size_insert num fe frontendMap) as Hinsert.
    destruct (frontendMap !! num); simpl in Hinsert; lia.
Qed.

Lemma BuildSeqNumberToFrontendMap_size frontends ipMap podTemplateName resolved :
  BuildSeqNumberToFrontendMap frontends ipMap podTemplateName = inr resolved ->
  (size resolved <= length frontends)%nat.
Proof.
  intros Hbuild. apply buildFrontendMap_size in Hbuild.
  now rewrite map_size_empty in Hbuild.
Qed.

Section ObserverDrain.

Context {W : Type} (K : Externals W) (H : Helpers).

(** C2. The metadata-tier drain, for a cluster whose replica count [R] is
    at least the election number [Q], as [prepareStatefulsetApply] leaves
    it before it calls the drain, returns and never calls [DropBE]. For
    the [L] observers it was given, it works with
    [needRemoved = L - R + Q], computed in [int32]; when that is at most
    zero it makes no removal call and returns nil; when it is positive and
    the ordinal mapping resolves, it makes exactly one [DropObserver]
    call, returns the result of that call, and the call carries the
    frontends [FindNeedDeletedFrontends] is asked to pick from the
    mapping: exactly [needRemoved] of them when the mapping holds every
    observer, that is, when no two observers resolve to one ordinal. *)
Theorem dropObserverBySqlClient_removes
    (targetDCR : DorisCluster) (R : Z) (w : W) :
  FeReplicas targetDCR = Some R ->
  GetElectionNumber H targetDCR <= R ->
  exists err w' log,
    dropObserverBySqlClient K H targetDCR w = Ret err w' log
    /\ dropBECalls log = []
    /\ forall allObserves,
         In (GetObserversCall (inr allObserves)) log ->
         let Q := GetElectionNumber H targetDCR in
         let L := Z.of_nat (length allObserves) in
         let needRemoved := needRemovedAmount allObserves R Q in
         (Go.in_int32 (L - R + Q) -> needRemoved = L - R + Q)
         /\ (needRemoved <= 0 -> dropObserverCalls log = [] /\ err = None)
         /\ (0 < needRemoved ->
             forall maps items frontendMap,
               In (GetConfigCall (DcNamespace targetDCR)
                     (FeConfigMapInfo targetDCR) maps) log ->
               fqdnMode H maps = true
               \/ In (GetPodsCall (DcNamespace targetDCR)
                        (GetPodLabels H targetDCR) (inr items)) log ->
               ordinalMapping H targetDCR maps items allObserves = inr frontendMap ->
               exists observes,
                 dropObserverCalls log = [observes]
                 /\ In (DropObserverCall observes err) log
                 /\ observes = FindNeedDeletedFrontends frontendMap needRemoved
                 /\ (size frontendMap = length allObserves ->
                     Go.in_int32 (L - R + Q) ->
                     Z.of_nat (length observes) = needRemoved)
                 /\ forall fe, In fe observes ->
                      exists ordinal, frontendMap !! ordinal = Some fe).
Proof.
  intros HR HQ.
  unfold dropObserverBySqlClient, bind, k8s_GetSecret, call.
  destruct (GetSecret K _ _ w) as [secret w1].
  destruct (GetClusterSecret H targetDCR secret) as [user password].
  unfold k8s_GetConfig, call.
  destruct (GetConfig K _ _ w1) as [maps w2].
  unfold mysql_NewDorisMasterSqlDB, call.
  destruct (NewDorisMasterSqlDB K _ w2) as [[err|] w3]; cbn.
  { do 3 eexists. split; [reflexivity|]. split; [reflexivity|].
    intros ? Hin. in_log Hin. }
  unfold deferClose, bind, mysql_GetObservers, call.
  destruct (GetObservers K w3) as [[err|allObserves] w4]; cbn.
  { do 3 eexists. split; [reflexivity|]. split; [reflexivity|].
    intros ? Hin. in_log Hin. }
  rewrite HR. cbn.
  set (needRemoved := needRemovedAmount allObserves R (GetElectionNumber H targetDCR)).
  destruct (Z.leb_spec needRemoved 0) as [Hle|Hlt]; cbn.
  { do 3 eexists. split; [reflexivity|]. split; [reflexivity|].
    intros ? Hin. in_log Hin. injection Hin as <-. cbn.
    split; [apply needRemovedAmount_exact|].
    split; [now intros _ | intros Hpos; fold needRemoved in Hpos; lia]. }
  destruct (String.eqb (GetStartMode H maps) (START_MODEL_FQDN H)) eqn:Hmode.
  - destruct (BuildSeqNumberToFrontendMap allObserves None _)
      as [err|frontendMap] eqn:Hbuild; cbn.
    + do 3 eexists. split; [reflexivity|]. split; [reflexivity|].
      intros ? Hin. in_log Hin. injection Hin as <-. cbn.
      split; [apply needRemovedAmount_exact|].
      split; [intros Hle; fold needRemoved in Hle; lia|].
      intros _ maps' items m Hmaps _ Hmap. in_log Hmaps.
      injection Hmaps as <-. unfold ordinalMapping, fqdnMode in Hmap.
      rewrite Hmode in Hmap. congruence.
    + unfold mysql_DropObserver, call.
      destruct (DropObserver K _ w4) as [dropped w5]; cbn.
      do 3 eexists. split; [reflexivity|]. split; [reflexivity|].
      intros ? Hin. in_log Hin. injection Hin as <-. cbn.
      split; [apply needRemovedAmount_exact|].
      split; [intros Hle; fold needRemoved in Hle; lia|].
      intros _ maps' items m Hmaps _ Hmap. in_log Hmaps.
      injection Hmaps as <-. unfold ordinalMapping, fqdnMode in Hmap.
      rewrite Hmode in Hmap. assert (m = frontendMap) as -> by congruence.
      eexists. split; [reflexivity|]. split; [simpl; tauto|].
      split; [reflexivity|].
      split.
      { intros Hsize Hrange. rewrite FindNeedDeletedFrontends_length, Hsize.
        pose proof (needRemovedAmount_exact _ _ _ Hrange) as Hexact.
        fold needRemoved in Hexact. lia. }
      apply FindNeedDeletedFrontends_from_map.
  - unfold k8s_GetPods, call.
    destruct (GetPods K _ _ w4) as [[err|items] w5]; cbn.
    + do 3 eexists. split; [reflexivity|]. split; [reflexivity|].
      intros ? Hin. in_log Hin. injection Hin as <-. cbn.
      split; [apply needRemovedAmount_exact|].
      split; [intros Hle; fold needRemoved in Hle; lia|].
      intros _ maps' items m Hmaps Hpods Hmap. in_log Hmaps.
      injection Hmaps as <-. unfold fqdnMode in Hpods.
      destruct Hpods as [Hfqdn|Hpods]; [congruence|]. in_log Hpods.
    + destruct (BuildSeqNumberToFrontendMap allObserves (Some _) _)
        as [err|frontendMap] eqn:Hbuild; cbn.
      * do 3 eexists. split; [reflexivity|]. split; [reflexivity|].
        intros ? Hin. in_log Hin. injection Hin as <-. cbn.
        split; [apply needRemovedAmount_exact|].
        split; [intros Hle; fold needRemoved in Hle; lia|].
        intros _ maps' items' m Hmaps Hpods Hmap. in_log Hmaps.
        injection Hmaps as <-. unfold fqdnMode in Hpods.
        destruct Hpods as [Hfqdn|Hpods]; [congruence|]. in_log Hpods.
        injection Hpods as <-. unfold ordinalMapping, fqdnMode in Hmap.
        rewrite Hmode in Hmap. congruence.
      * unfold mysql_DropObserver, call.
        destruct (DropObserver K _ w5) as [dropped w6]; cbn.
        do 3 eexists. split; [reflexivity|]. split; [reflexivity|].
        intros ? Hin. in_log Hin. injection Hin as <-. cbn.
        split; [apply needRemovedAmount_exact|].
        split; [intros Hle; fold needRemoved in Hle; lia|].
        intros _ maps' items' m Hmaps Hpods Hmap. in_log Hmaps.
        injection Hmaps as <-. unfold fqdnMode in Hpods.
        destruct Hpods as [Hfqdn|Hpods]; [congruence|]. in_log Hpods.
        injection Hpods as <-. unfold ordinalMapping, fqdnMode in Hmap.
        rewrite Hmode in Hmap. assert (m = frontendMap) as -> by congruence.
        eexists. split; [reflexivity|]. split; [simpl; tauto|].
        split; [reflexivity|].
        split.
      { intros Hsize Hrange. rewrite FindNeedDeletedFrontends_length, Hsize.
        pose proof (needRemovedAmount_exact _ _ _ Hrange) as Hexact.
        fold needRemoved in Hexact. lia. }
        apply FindNeedDeletedFrontends_from_map.
Qed.

(** The failures of the metadata-tier drain: those of the connection, of
    the listing of the observers and of the removal are returned; a failure
    to list the pods is not, the drain returns nil and removes nothing. *)
Lemma dropObserverBySqlClient_errors (targetDCR : DorisCluster) (w w' : W)
    (err : option Error) (log : list Call) :
  dropObserverBySqlClient K H targetDCR w = Ret err w' log ->
  (forall conf e, In (NewDorisMasterSqlDBCall conf (Some e)) log -> err = Some e)
  /\ (forall e, In (GetObserversCall (inl e)) log -> err = Some e)
  /\ (forall nodes dropped, In (DropObserverCall nodes dropped) log -> err = dropped)
  /\ (forall ns labels e,
        In (GetPodsCall ns labels (inl e)) log ->
        err = None /\ dropObserverCalls log = []).
Proof.
  unfold dropObserverBySqlClient, bind, k8s_GetSecret, call.
  destruct (GetSecret K _ _ w) as [secret w1].
  destruct (GetClusterSecret H targetDCR secret) as [user password].
  unfold k8s_GetConfig, call.
  destruct (GetConfig K _ _ w1) as [maps w2].
  unfold mysql_NewDorisMasterSqlDB, call.
  destruct (NewDorisMasterSqlDB K _ w2) as [[e|] w3]; cbn.
  { intros [= <- <- <-].
    repeat split; intros; match goal with Hin : In _ _ |- _ => in_log Hin end.
    congruence. }
  unfold deferClose, bind, mysql_GetObservers, call.
  destruct (GetObservers K w3) as [[e|allObserves] w4]; cbn.
  { intros [= <- <- <-].
    repeat split; intros; match goal with Hin : In _ _ |- _ => in_log Hin end.
    congruence. }
  destruct (FeReplicas targetDCR) as [R|]; cbn; [|discriminate].
  destruct (needRemovedAmount allObserves R (GetElectionNumber H targetDCR) <=? 0); cbn.
  { intros [= <- <- <-].
    repeat split; intros; match goal with Hin : In _ _ |- _ => in_log Hin end. }
  destruct (String.eqb (GetStartMode H maps) (START_MODEL_FQDN H)).
  - destruct (BuildSeqNumberToFrontendMap allObserves None _) as [e|frontendMap]; cbn.
    + intros [= <- <- <-].
      repeat split; intros; match goal with Hin : In _ _ |- _ => in_log Hin end.
    + unfold mysql_DropObserver, call.
      destruct (DropObserver K _ w4) as [dropped w5]; cbn.
      intros [= <- <- <-].
      repeat split; intros; match goal with Hin : In _ _ |- _ => in_log Hin end.
      congruence.
  - unfold k8s_GetPods, call.
    destruct (GetPods K _ _ w4) as [[e|items] w5]; cbn.
    + intros [= <- <- <-].
      repeat split; intros; match goal with Hin : In _ _ |- _ => in_log Hin end.
    + destruct (BuildSeqNumberToFrontendMap allObserves (Some _) _)
        as [e|frontendMap]; cbn.
      * intros [= <- <- <-].
        repeat split; intros; match goal with Hin : In _ _ |- _ => in_log Hin end.
      * unfold mysql_DropObserver, call.
        destruct (DropObserver K _ w5) as [dropped w6]; cbn.
        intros [= <- <- <-].
        repeat split; intros; match goal with Hin : In _ _ |- _ => in_log Hin end.
        congruence.
Qed.

End ObserverDrain.

(** ** The status of a group *)

Lemma findStatus_lookup uniqueId cgss i :
  findStatus uniqueId cgss = Some i ->
  exists cgs,
    cgss !! i = Some cgs
    /\ List.find (fun cgs => String.eqb (CgsUniqueId cgs) uniqueId) cgss = Some cgs.
Proof.
  revert i. induction cgss as [|cgs rest IH]; intros i; simpl; [discriminate|].
  destruct (String.eqb (CgsUniqueId cgs) uniqueId).
  - intros [= <-]. now exists cgs.
  - destruct (findStatus uniqueId rest) as [j|]; [|discriminate].
    intros [= <-]. destruct (IH j eq_refl) as (cgs' & Hl & Hf). now exists cgs'.
Qed.

Lemma phaseOf_findStatus uniqueId cgss phase :
  phaseOf uniqueId cgss = Some phase ->
  exists i, findStatus uniqueId cgss = Some i
            /\ CgsPhase <$> cgss !! i = Some phase.
Proof.
  unfold phaseOf.
  induction cgss as [|cgs rest IH]; simpl; [discriminate|].
  destruct (String.eqb (CgsUniqueId cgs) uniqueId).
  - intros Hp. now exists 0%nat.
  - intros Hp. destruct (IH Hp) as (i & -> & Hi). now exists (S i).
Qed.

Lemma phaseOf_set_Phase uniqueId cgss i phase :
  findStatus uniqueId cgss = Some i ->
  phaseOf uniqueId (alter (fun cgs => set_Phase cgs phase) i cgss) = Some phase.
Proof.
  unfold phaseOf. revert i.
  induction cgss as [|cgs rest IH]; intros i; simpl; [discriminate|].
  destruct (String.eqb (CgsUniqueId cgs) uniqueId) eqn:Heq.
  - intros [= <-]. simpl. now rewrite Heq.
  - destruct (findStatus uniqueId rest) as [j|]; [|discriminate].
    intros [= <-]. simpl. rewrite Heq. now apply IH.
Qed.

Section Initialization.

Context (H : Helpers).

Lemma initialStatuses_phase cgss uniqueId defaultStatus :
  CgsUniqueId defaultStatus = uniqueId ->
  phaseOf uniqueId (initialStatuses cgss uniqueId defaultStatus)
  = Some match phaseOf uniqueId cgss with
         | Some phase => if carriedOver phase then phase else CgsPhase defaultStatus
         | None => CgsPhase defaultStatus
         end.
Proof.
  intros Hid. unfold phaseOf.
  induction cgss as [|cgs rest IH]; simpl.
  - rewrite Hid, String.eqb_refl. reflexivity.
  - destruct (String.eqb (CgsUniqueId cgs) uniqueId) eqn:Heq; simpl.
    + destruct (carriedOver (CgsPhase cgs)); simpl;
        rewrite Hid, String.eqb_refl; reflexivity.
    + rewrite Heq. exact IH.
Qed.

Lemma initialCGStatus_phase ddc cg replicas :
  Replicas cg = Some replicas ->
  exists ddc',
    initialCGStatus H ddc cg = Some ddc'
    /\ phaseOf (UniqueId cg) (ComputeGroupStatuses ddc')
       = Some match phaseOf (UniqueId cg) (ComputeGroupStatuses ddc) with
              | Some phase => if carriedOver phase then phase else Reconciling
              | None => Reconciling
              end.
Proof.
  intros Hr. unfold initialCGStatus. rewrite Hr.
  eexists. split; [reflexivity|].
  simpl. now rewrite initialStatuses_phase.
Qed.

(** A phase that is carried over survives any number of initializations. *)
Lemma reinitialize_phase ddc cg replicas phase n :
  Replicas cg = Some replicas ->
  phaseOf (UniqueId cg) (ComputeGroupStatuses ddc) = Some phase ->
  carriedOver phase = true ->
  exists ddc',
    reinitialize H cg n ddc = Some ddc'
    /\ phaseOf (UniqueId cg) (ComputeGroupStatuses ddc') = Some phase.
Proof.
  intros Hr Hphase Hcarried.
  induction n as [|n (ddc' & Hrun & Hphase')].
  - exists ddc. split; [reflexivity | exact Hphase].
  - destruct (initialCGStatus_phase ddc' cg replicas Hr) as (ddc'' & Hinit & Hp).
    exists ddc''. split.
    + unfold reinitialize in *. simpl. rewrite Hrun. exact Hinit.
    + rewrite Hp, Hphase', Hcarried. reflexivity.
Qed.

Lemma sticky_carriedOver phase : sticky phase -> carriedOver phase = true.
Proof. intros [->|[->|[->| ->]]]; reflexivity. Qed.

(** C5. [initialCGStatus] keeps the phase of a group whose status is in
    [ScaleDownFailed], [Suspended], [SuspendFailed] or [ResumeFailed]
    instead of resetting it to [Reconciling], and so does every further
    initialization: after any number of them the phase is the same. *)
Theorem initialCGStatus_preserves_sticky
    (ddc : DorisDisaggregatedCluster) (cg : ComputeGroup) (replicas : Z)
    (phase : Phase) :
  Replicas cg = Some replicas ->
  phaseOf (UniqueId cg) (ComputeGroupStatuses ddc) = Some phase ->
  sticky phase ->
  (exists ddc',
     initialCGStatus H ddc cg = Some ddc'
     /\ phaseOf (UniqueId cg) (ComputeGroupStatuses ddc') = Some phase)
  /\ (forall n, exists ddc',
        reinitialize H cg n ddc = Some ddc'
        /\ phaseOf (UniqueId cg) (ComputeGroupStatuses ddc') = Some phase).
Proof.
  intros Hr Hphase Hsticky. apply sticky_carriedOver in Hsticky. split.
  - destruct (initialCGStatus_phase ddc cg replicas Hr) as (ddc' & Hinit & Hp).
    exists ddc'. split; [exact Hinit|].
    rewrite Hp, Hphase, Hsticky. reflexivity.
  - intros n. now apply reinitialize_phase with replicas.
Qed.

(** C9. [initialCGStatus] keeps the phase [Scaling] as well. *)
Theorem initialCGStatus_preserves_Scaling
    (ddc : DorisDisaggregatedCluster) (cg : ComputeGroup) (replicas : Z) :
  Replicas cg = Some replicas ->
  phaseOf (UniqueId cg) (ComputeGroupStatuses ddc) = Some Scaling ->
  exists ddc',
    initialCGStatus H ddc cg = Some ddc'
    /\ phaseOf (UniqueId cg) (ComputeGroupStatuses ddc') = Some Scaling.
Proof.
  intros Hr Hphase.
  destruct (initialCGStatus_phase ddc cg replicas Hr) as (ddc' & Hinit & Hp).
  exists ddc'. split; [exact Hinit|].
  rewrite Hp, Hphase. reflexivity.
Qed.

(** The other two phases are reset. *)
Lemma initialCGStatus_resets ddc cg replicas phase :
  Replicas cg = Some replicas ->
  phaseOf (UniqueId cg) (ComputeGroupStatuses ddc) = Some phase ->
  phase = Reconciling \/ phase = Ready ->
  exists ddc',
    initialCGStatus H ddc cg = Some ddc'
    /\ phaseOf (UniqueId cg) (ComputeGroupStatuses ddc') = Some Reconciling.
Proof.
  intros Hr Hphase Hreset.
  destruct (initialCGStatus_phase ddc cg replicas Hr) as (ddc' & Hinit & Hp).
  exists ddc'. split; [exact Hinit|].
  rewrite Hp, Hphase. destruct Hreset as [-> | ->]; reflexivity.
Qed.

End Initialization.

(** ** Reconciliation of the StatefulSet of a group *)

Section Reconcile.

Context {W : Type} (K : Externals W) (H : Helpers).

(** C6. When [reconcileStatefulset] finds the StatefulSet, detects a
    scale-down and has applied the new StatefulSet, it runs the drain with
    the replica count of the group as keep amount and returns the drain's
    error: on an error the phase of the group is [ScaleDownFailed] and a
    warning is returned with the error, otherwise the phase is [Scaling]. *)
Theorem reconcileStatefulset_scaleDown
    (st est : StatefulSet) (cluster : DorisDisaggregatedCluster)
    (cg : ComputeGroup) (phase : Phase) (keep : Z) (w w1 w2 : W) :
  GetStatefulSet K (StNamespace st) (StName st) w = (Found est, w1) ->
  phaseOf (UniqueId cg) (ComputeGroupStatuses cluster) = Some phase ->
  getScaleType st est phase = Some "scaleDown" ->
  ApplyStatefulSet K st w1 = (None, w2) ->
  Replicas cg = Some keep ->
  exists dropped w3 drainLog event cluster' log,
    scaledOutBENodesBySQL K H cluster (GetCGName H cluster cg) keep w2
    = Ret dropped w3 drainLog
    /\ reconcileStatefulset K H st cluster cg w
       = Ret (event, dropped, cluster') w3 log
    /\ match dropped with
       | Some err =>
           phaseOf (UniqueId cg) (ComputeGroupStatuses cluster') = Some ScaleDownFailed
           /\ event = Some {| Type_ := EventWarning; Reason := CGSqlExecFailed;
                              Message := ErrorText err |}
       | None =>
           phaseOf (UniqueId cg) (ComputeGroupStatuses cluster') = Some Scaling
           /\ event = None
       end.
Proof.
  intros Hget Hphase Hscale Happly Hkeep.
  destruct (phaseOf_findStatus _ _ _ Hphase) as (i & Hi & Hpi).
  destruct (scaledOutBENodesBySQL_emits K H cluster (GetCGName H cluster cg) keep w2)
    as (dropped & w3 & drainLog & Hdrain & _).
  unfold reconcileStatefulset, bind, k8s_GetStatefulSet, k8s_ApplyStatefulSet, call.
  rewrite Hget, Hi. cbn. rewrite Hpi. cbn. rewrite Hscale. cbn.
  rewrite Happly. cbn. rewrite Hkeep. cbn. rewrite Hdrain.
  exists dropped, w3, drainLog.
  destruct dropped as [err|]; cbn; do 3 eexists;
    (split; [reflexivity|]); (split; [reflexivity|]);
    (split; [|reflexivity]); cbn; now apply phaseOf_set_Phase.
Qed.



End Reconcile.

(** ** Storage reclamation *)

Section Reclaim.

Context {W : Type} (K : Externals W) (H : Helpers).






(** The loop over the claims tries each of them, in order. *)
Lemma deletePVCs_tries_all pvcLabels claims mergeError w :
  exists err w' log,
    forRange
      (fun mergeError claim =>
         bind (k8s_DeletePVC K (PvcNamespace claim) (PvcName claim) pvcLabels)
           (fun deleted =>
              match deleted with
              | Some err =>
                  bind (K8srecorder_Event K EventWarning PVCDeleteFailed (ErrorText err))
                    (fun _ => ret (MergeError H mergeError err))
              | None => ret mergeError
              end))
      claims mergeError w = Ret err w' log
    /\ deletedPVCs log = List.map PvcName claims
    /\ forallb deletePVCCall log = true.
Proof.
  revert mergeError w.
  induction claims as [|claim claims IH]; intros mergeError w; simpl.
  - now exists mergeError, w, [].
  - unfold bind at 1. unfold bind at 1. unfold k8s_DeletePVC at 1, call at 1.
    destruct (DeletePVC K _ _ _ w) as [[err|] w1]; cbn.
    + match goal with
      | |- context [forRange _ claims ?m ?w0] =>
          destruct (IH m w0) as (err' & w' & log & Hrun & Hdel & Hcalls)
      end.
      rewrite Hrun.
      do 3 eexists. split; [reflexivity|]. cbn.
      fold (deletedPVCs log). now rewrite Hdel, Hcalls.
    + destruct (IH mergeError w1) as (err' & w' & log & Hrun & Hdel & Hcalls).
      rewrite Hrun.
      do 3 eexists. split; [reflexivity|]. cbn.
      fold (deletedPVCs log). now rewrite Hdel, Hcalls.
Qed.

Lemma reserveNamesOf_length stsName npaths i :
  length (reserveNamesOf H stsName npaths i) = S npaths.
Proof. unfold reserveNamesOf. simpl. now rewrite length_map, length_seq. Qed.




Lemma deletePVCs_run pvcLabels claims w :
  exists err w' log,
    deletePVCs K H pvcLabels claims w = Ret err w' log
    /\ deletedPVCs log = List.map PvcName claims
    /\ forallb deletePVCCall log = true.
Proof. apply deletePVCs_tries_all. Qed.


End Reclaim.

(** ** Teardown of the groups that left the specification *)

Section Teardown.

Context {W : Type} (K : Externals W) (H : Helpers).

Lemma findGroup_In uniqueId groups cg :
  findGroup uniqueId groups = Some cg -> In cg groups.
Proof.
  unfold findGroup.
  induction groups as [|group groups IH] using rev_ind; simpl; [discriminate|].
  rewrite fold_left_app. simpl. rewrite in_app_iff.
  destruct (String.eqb (UniqueId group) uniqueId).
  - intros [= <-]. right. now left.
  - intros Hfound. left. now apply IH.
Qed.

Lemma ClearStatefulsetUnusedPVCs_emits ddc cgs :
  replicasSet ddc ->
  emits reclaimCall (ClearStatefulsetUnusedPVCs K H ddc cgs).
Proof.
  intros Hset. unfold ClearStatefulsetUnusedPVCs.
  emits_step; [unfold k8s_ListPVC; emits_step|].
  assert (Hdelete : forall claims,
            emits reclaimCall
              (deletePVCs K H (newCGPodsSelector H (Name ddc) (CgsUniqueId cgs)) claims)).
  { intros claims w.
    destruct (deletePVCs_run K H (newCGPodsSelector H (Name ddc) (CgsUniqueId cgs))
                claims w) as (err & w' & log & Hrun & _ & Hcalls).
    exists err, w', log. split; [exact Hrun|].
    rewrite forallb_forall in *. intros c Hc. apply Hcalls in Hc.
    now destruct c. }
  destruct a as [err|items].
  { emits_step; [unfold K8srecorder_Event; emits_step | emits_step]. }
  destruct (findGroup (CgsUniqueId cgs) (ComputeGroups ddc)) as [cg|] eqn:Hcg;
    [|apply Hdelete].
  apply findGroup_In, Hset in Hcg.
  destruct (Replicas cg) as [replicas|]; [|contradiction].
  emits_step; [emits_step|].
  emits_step; [unfold k8s_GetConfigValuesFromConfigMaps; emits_step|].
  match goal with |- context [if ?b then _ else _] => destruct b end;
    [emits_step | apply Hdelete].
Qed.

Lemma clearPVCs_emits ddc cgss :
  replicasSet ddc -> emits reclaimCall (clearPVCs K H ddc cgss).
Proof.
  intros Hset. unfold clearPVCs. apply emits_forRange. intros [] cgs _.
  emits_step; [now apply ClearStatefulsetUnusedPVCs_emits | emits_step].
Qed.

Lemma splitStatuses_filter ddc :
  splitStatuses ddc = (removedStatuses ddc, keptStatuses ddc).
Proof.
  unfold splitStatuses, removedStatuses, keptStatuses, inSpec.
  set (spec := fun cgs : ComputeGroupStatus =>
                 existsb (fun cg => String.eqb (CgsUniqueId cgs) (UniqueId cg))
                   (ComputeGroups ddc)).
  induction (ComputeGroupStatuses ddc) as [|cgs cgss IH] using rev_ind;
    [reflexivity|].
  rewrite fold_left_app, IH, !List.filter_app. simpl.
  fold (spec cgs). destruct (spec cgs); simpl; now rewrite ?app_nil_r.
Qed.

Lemma filter_teardown_none P log :
  forallb P log = true ->
  (forall c, P c = true -> teardownCall c = false) ->
  List.filter teardownCall log = [].
Proof.
  intros Hlog HP. rewrite forallb_forall in Hlog.
  induction log as [|c log IH]; simpl; [reflexivity|].
  rewrite (HP c) by (apply Hlog; now left).
  apply IH. intros c' Hc'. apply Hlog. now right.
Qed.

Lemma attempted_weaken ddc log log' cgs o :
  (forall c, In c log -> In c log') ->
  attempted K H ddc log cgs o -> attempted K H ddc log' cgs o.
Proof.
  intros Hsub (Hst & Hsvc & Hdrop). split; [exact Hst|]. split; [exact Hsvc|].
  intros Ho. destruct (Hdrop Ho) as (w0 & dropped & w1 & drainLog & Hrun & Hwarn).
  exists w0, dropped, w1, drainLog. split; [exact Hrun|].
  intros err Herr. apply Hsub. now apply Hwarn.
Qed.

(** The teardown of one group, the body of the second loop. *)
Lemma clearCG_run ddc eCGs cgs w :
  exists o w' log,
    clearCG K H ddc eCGs cgs w
    = Ret (if torndown o then eCGs else (eCGs ++ [cgs])%list) w' log
    /\ List.filter teardownCall log = teardownCalls ddc (cgs, o)
    /\ attempted K H ddc log cgs o.
Proof.
  unfold clearCG, bind, k8s_DeleteStatefulset, k8s_DeleteService, call.
  destruct (DeleteStatefulset K (Namespace ddc) (CgsStatefulsetName cgs) w)
    as [stDeleted w1] eqn:Hst.
  assert (Hst' : exists w0, stDeleted
            = fst (DeleteStatefulset K (Namespace ddc) (CgsStatefulsetName cgs) w0))
    by (exists w; now rewrite Hst).
  clear Hst.
  assert (Hsvc' : forall w2,
            exists w0, fst (DeleteService K (Namespace ddc) (CgsServiceName cgs) w2)
            = fst (DeleteService K (Namespace ddc) (CgsServiceName cgs) w0))
    by (intros w2; now exists w2).
  destruct stDeleted as [stErr|]; cbn.
  - match goal with
    | |- context [DeleteService K ?ns ?name ?w2] =>
        specialize (Hsvc' w2);
        destruct (DeleteService K ns name w2) as [svcDeleted w3]
    end.
    exists (Some stErr, svcDeleted).
    destruct svcDeleted as [svcErr|]; cbn; do 2 eexists;
      (split; [reflexivity|]); (split; [reflexivity|]);
      (split; [exact Hst'|]); (split; [exact Hsvc'|]); discriminate.
  - specialize (Hsvc' w1).
    destruct (DeleteService K (Namespace ddc) (CgsServiceName cgs) w1)
      as [svcDeleted w3].
    exists (None, svcDeleted).
    destruct svcDeleted as [svcErr|]; cbn.
    + do 2 eexists. split; [reflexivity|]. split; [reflexivity|].
      split; [exact Hst'|]. split; [exact Hsvc'|]. discriminate.
    + destruct (scaledOutBENodesBySQL_emits K H ddc
                  (Go.ReplaceAll (CgsUniqueId cgs) "_" "-") 0 w3)
        as (dropped & w4 & drainLog & Hrun & Hcalls).
      rewrite Hrun.
      assert (Hnone : List.filter teardownCall drainLog = []).
      { apply (filter_teardown_none _ _ Hcalls). now intros []. }
      destruct dropped as [err|]; cbn; do 2 eexists;
        (split; [reflexivity|]);
        (split; [simpl; rewrite List.filter_app, Hnone; reflexivity|]);
        (split; [exact Hst'|]); (split; [exact Hsvc'|]);
        intros _; exists w3; do 3 eexists; (split; [exact Hrun|]).
      * intros err' [= <-]. right. right. apply in_app_iff. right. now left.
      * intros err' [=].
Qed.

(** The second loop: an outcome for each group to clear. *)
Lemma clearCGs_run ddc clearCGs : forall eCGs w,
  exists outcomes eCGs' w' log,
    forRange (clearCG K H ddc) clearCGs eCGs w = Ret eCGs' w' log
    /\ length outcomes = length clearCGs
    /\ List.filter teardownCall log
       = flat_map (teardownCalls ddc) (combine clearCGs outcomes)
    /\ eCGs' = (eCGs ++ retained (combine clearCGs outcomes))%list
    /\ Forall2 (attempted K H ddc log) clearCGs outcomes.
Proof.
  induction clearCGs as [|cgs clearCGs IH]; intros eCGs w; simpl.
  - exists [], eCGs, w, []. rewrite app_nil_r. repeat split. constructor.
  - unfold bind.
    destruct (clearCG_run ddc eCGs cgs w) as (o & w1 & log1 & -> & Hcalls1 & Ho).
    destruct (IH (if torndown o then eCGs else (eCGs ++ [cgs])%list) w1)
      as (outcomes & eCGs' & w' & log2 & -> & Hlen & Hcalls2 & -> & Hall).
    exists (o :: outcomes),
      ((if torndown o then eCGs else (eCGs ++ [cgs])%list)
       ++ retained (combine clearCGs outcomes))%list.
    do 2 eexists. split; [reflexivity|].
    split; [simpl; now rewrite Hlen|].
    split; [rewrite List.filter_app, Hcalls1, Hcalls2; reflexivity|].
    split.
    + unfold retained. simpl. destruct (torndown o); simpl; [reflexivity|].
      now rewrite <- app_assoc.
    + constructor.
      * eapply attempted_weaken; [|exact Ho]. intros c Hc.
        apply in_app_iff. now left.
      * eapply Forall2_impl; [exact Hall|]. intros cgs' o'.
        apply attempted_weaken. intros c Hc. apply in_app_iff. now right.
Qed.

(** [ClearResources] as a whole. *)
Lemma ClearResources_run ddc w :
  replicasSet ddc ->
  exists outcomes ddc' w' log,
    ClearResources K H ddc w = Ret (true, None, ddc') w' log
    /\ length outcomes = length (removedStatuses ddc)
    /\ List.filter teardownCall log
       = flat_map (teardownCalls ddc) (combine (removedStatuses ddc) outcomes)
    /\ ComputeGroupStatuses ddc'
       = (keptStatuses ddc ++ retained (combine (removedStatuses ddc) outcomes))%list
    /\ Forall2 (attempted K H ddc log) (removedStatuses ddc) outcomes.
Proof.
  intros Hset. unfold ClearResources. rewrite splitStatuses_filter.
  unfold bind.
  destruct (clearCGs_run ddc (removedStatuses ddc) (keptStatuses ddc) w)
    as (outcomes & eCGs & w1 & log1 & -> & Hlen & Hcalls & -> & Hall).
  destruct (clearPVCs_emits ddc
              (keptStatuses ddc ++ retained (combine (removedStatuses ddc) outcomes))
              Hset w1) as ([] & w2 & log2 & -> & Hcalls2).
  destruct (clearPVCs_emits ddc (removedStatuses ddc) Hset w2)
    as ([] & w3 & log3 & -> & Hcalls3).
  exists outcomes. do 3 eexists. cbn. split; [reflexivity|].
  split; [exact Hlen|].
  split.
  { rewrite !List.filter_app, Hcalls, app_nil_r.
    rewrite (filter_teardown_none _ _ Hcalls2), (filter_teardown_none _ _ Hcalls3);
      [now rewrite !app_nil_r | now intros [] | now intros []]. }
  split; [reflexivity|].
  eapply Forall2_impl; [exact Hall|]. intros cgs o.
  apply attempted_weaken. intros c Hc. apply in_app_iff. now left.
Qed.

Lemma Forall2_combine {A B} (P : A -> B -> Prop) l1 l2 a b :
  Forall2 P l1 l2 -> In (a, b) (combine l1 l2) -> P a b.
Proof.
  induction 1 as [|x y l1 l2 Hxy _ IH]; simpl; [easy|].
  intros [[= <- <-]|Hin]; auto.
Qed.

Lemma combine_In_l {A B} (l1 : list A) (l2 : list B) a :
  length l2 = length l1 -> In a l1 -> exists b, In (a, b) (combine l1 l2).
Proof.
  revert l2. induction l1 as [|x l1 IH]; intros [|y l2]; simpl; try easy.
  intros [= Hlen] [<-|Hin].
  - exists y. now left.
  - destruct (IH l2 Hlen Hin) as (b & Hb). exists b. now right.
Qed.

Lemma combine_fst {A B} (l1 : list A) (l2 : list B) :
  length l2 = length l1 -> List.map fst (combine l1 l2) = l1.
Proof.
  revert l2. induction l1 as [|x l1 IH]; intros [|y l2]; simpl; try easy.
  intros [= Hlen]. now rewrite IH.
Qed.

Lemma retained_In attempts cgs :
  In cgs (retained attempts) <->
  exists o, In (cgs, o) attempts /\ torndown o = false.
Proof.
  unfold retained. rewrite in_map_iff. split.
  - intros ([cgs' o] & <- & Hin). apply filter_In in Hin as [Hin Ho].
    exists o. split; [exact Hin|]. simpl in Ho. now destruct (torndown o).
  - intros (o & Hin & Ho). exists (cgs, o). split; [reflexivity|].
    apply filter_In. split; [exact Hin|]. simpl. now rewrite Ho.
Qed.

(** C8. [ClearResources] attempts the teardown of every status whose group
    left the specification, one deletion of its StatefulSet and one of its
    Service, in order, and the status list it leaves is the statuses of the
    groups of the specification followed by the statuses whose teardown
    failed: a status is kept when one of its two deletions failed, and it
    is dropped only when both succeeded. *)
Theorem ClearResources_keeps_failed_teardowns
    (ddc : DorisDisaggregatedCluster) (w : W) :
  replicasSet ddc ->
  exists attempts ddc' w' log,
    ClearResources K H ddc w = Ret (true, None, ddc') w' log
    /\ List.map fst attempts = removedStatuses ddc
    /\ List.filter teardownCall log = flat_map (teardownCalls ddc) attempts
    /\ ComputeGroupStatuses ddc' = (keptStatuses ddc ++ retained attempts)%list
    /\ (forall cgs o,
          In (cgs, o) attempts -> torndown o = false ->
          In cgs (ComputeGroupStatuses ddc'))
    /\ (forall cgs,
          In cgs (removedStatuses ddc) ->
          ~ In cgs (ComputeGroupStatuses ddc') ->
          In (cgs, (None, None)) attempts).
Proof.
  intros Hset.
  destruct (ClearResources_run ddc w Hset)
    as (outcomes & ddc' & w' & log & Hrun & Hlen & Hcalls & Hstatuses & _).
  exists (combine (removedStatuses ddc) outcomes), ddc', w', log.
  split; [exact Hrun|].
  split; [now apply combine_fst|].
  split; [exact Hcalls|].
  split; [exact Hstatuses|].
  rewrite Hstatuses. split.
  - intros cgs o Hin Ho. apply in_app_iff. right.
    apply retained_In. now exists o.
  - intros cgs Hremoved Hdropped.
    destruct (combine_In_l _ outcomes cgs Hlen Hremoved) as ([stDeleted svcDeleted] & Hin).
    destruct (torndown (stDeleted, svcDeleted)) eqn:Ho.
    + unfold torndown in Ho. simpl in Ho.
      destruct stDeleted, svcDeleted; try discriminate. exact Hin.
    + exfalso. apply Hdropped, in_app_iff. right. apply retained_In. eauto.
Qed.

(** C10. [ClearResources] returns [(true, nil)] whatever fails. For a
    status whose group left the specification: when the deletions of its
    StatefulSet and of its Service succeed and the drop of its backends,
    the drain with keep amount zero, fails, the status is dropped from the
    list all the same, and the failure is recorded as a warning. *)
Theorem ClearResources_drops_after_failed_drain
    (ddc : DorisDisaggregatedCluster) (w : W) :
  replicasSet ddc ->
  exists ddc' w' log,
    ClearResources K H ddc w = Ret (true, None, ddc') w' log
    /\ forall cgs,
         In cgs (ComputeGroupStatuses ddc) ->
         inSpec ddc cgs = false ->
         (forall w0,
            fst (DeleteStatefulset K (Namespace ddc) (CgsStatefulsetName cgs) w0)
            = None) ->
         (forall w0,
            fst (DeleteService K (Namespace ddc) (CgsServiceName cgs) w0) = None) ->
         (forall w0, exists err w1 drainLog,
            scaledOutBENodesBySQL K H ddc
              (Go.ReplaceAll (CgsUniqueId cgs) "_" "-") 0 w0
            = Ret (Some err) w1 drainLog) ->
         ~ In cgs (ComputeGroupStatuses ddc')
         /\ exists err, In (sqlWarning err) log.
Proof.
  intros Hset.
  destruct (ClearResources_run ddc w Hset)
    as (outcomes & ddc' & w' & log & Hrun & Hlen & _ & Hstatuses & Hall).
  exists ddc', w', log. split; [exact Hrun|].
  intros cgs Hin Hspec Hst Hsvc Hdrain.
  assert (Htorn : forall o, In (cgs, o) (combine (removedStatuses ddc) outcomes) ->
                            attempted K H ddc log cgs o /\ torndown o = true).
  { intros o Ho. pose proof (Forall2_combine _ _ _ _ _ Hall Ho) as Hatt.
    split; [exact Hatt|].
    destruct Hatt as ((w1 & H1) & (w2 & H2) & _).
    unfold torndown. now rewrite H1, H2, Hst, Hsvc. }
  split.
  - rewrite Hstatuses, in_app_iff. intros [Hkept|Hretained].
    + apply filter_In in Hkept as [_ Hkept]. congruence.
    + apply retained_In in Hretained as (o & Ho & Hfailed).
      apply Htorn in Ho as [_ Ho]. congruence.
  - assert (Hremoved : In cgs (removedStatuses ddc)).
    { apply filter_In. split; [exact Hin|]. now rewrite Hspec. }
    destruct (combine_In_l _ outcomes cgs Hlen Hremoved) as (o & Ho).
    apply Htorn in Ho as [(_ & _ & Hdropped) Ho].
    destruct (Hdropped Ho) as (w0 & dropped & w1 & drainLog & Hrun0 & Hwarn).
    destruct (Hdrain w0) as (err & w1' & drainLog' & Hrun1).
    exists err. apply Hwarn. congruence.
Qed.

End Teardown.

(** ** Runs on the scripted world *)

Section Runs.

Import Scripted.

(** Scale-down of [cg1] from five replicas to three: the backends of
    ordinals 3 and 4 are dropped in one call. *)
Example scaledOutBENodesBySQL_5_to_3 :
  exists log,
    scaledOutBENodesBySQL (world (running 5 None fiveBackends)) names
      (ddc [group 3] [status Reconciling "cg1" 5]) "cg1" 3 tt
    = Ret None tt log
    /\ dropBECalls log = [[backend "3"; backend "4"]].
Proof. eexists. split; vm_compute; reflexivity. Qed.

Example reconcileStatefulset_5_to_3 :
  exists log,
    reconcileStatefulset (world (running 5 None fiveBackends)) names (cg1Set 3)
      (ddc [group 3] [status Reconciling "cg1" 5]) (group 3) tt
    = Ret (None, None, ddc [group 3] [status Scaling "cg1" 5]) tt log
    /\ dropBECalls log = [[backend "3"; backend "4"]].
Proof. eexists. split; vm_compute; reflexivity. Qed.

(** Two replicas are wanted and the volumes of three are there: the two
    volumes of the third replica are deleted. *)
Example ClearStatefulsetUnusedPVCs_2_of_3 :
  exists log,
    ClearStatefulsetUnusedPVCs (world threeReplicasOfVolumes) names
      (ddc [group 2] [status Ready "cg1" 2]) (status Ready "cg1" 2) tt
    = Ret None tt log
    /\ deletedPVCs log = ["be-storage0-ddc-cg1-2"; "be-log-ddc-cg1-2"].
Proof. eexists. split; vm_compute; reflexivity. Qed.

(** [cg2] is torn down and dropped although its backends could not be
    dropped; [cg3], whose StatefulSet could not be deleted, is kept. *)
Example ClearResources_example :
  exists log,
    ClearResources (world leftBehind) names afterRemoval tt
    = Ret (true, None,
           ddc [group 3] [status Ready "cg1" 3; status Ready "cg3" 1]) tt log
    /\ In (sqlWarning refused) log.
Proof. eexists. split; [vm_compute; reflexivity|]. vm_compute. tauto. Qed.

(** Two observers, four replicas wanted, three of them electable: one
    observer is removed, that of the highest ordinal. *)
Example dropObserverBySqlClient_example :
  needRemovedAmount [observer "3"; observer "4"] 4 3 = 1
  /\ exists log,
       dropObserverBySqlClient (world (byName [observer "3"; observer "4"])) names
         (metadataTier 4 3) tt
       = Ret None tt log
       /\ dropObserverCalls log = [[observer "4"]].
Proof. split; [reflexivity|]. eexists. split; vm_compute; reflexivity. Qed.


(** C4, the failing input. The tier is addressed by IP, one of its two
    observers is to be removed, and the pods cannot be listed: the drain
    logs the failure and returns nil, with no removal call. With stable
    names and an observer whose ordinal does not parse, the same. The
    compute-group drain, on a backend whose ordinal does not parse,
    returns the error. *)
Theorem dropObserverBySqlClient_swallows_resolution_errors :
  (exists log,
     dropObserverBySqlClient
       (world (podsUnavailable [observer "3"; observer "4"])) names
       (metadataTier 4 3) tt
     = Ret None tt log
     /\ 0 < needRemovedAmount [observer "3"; observer "4"] 4 3
     /\ In (GetPodsCall "doris" [("app", "dcr"); ("component", "fe")]
              (inl (ExtError "pods unavailable"))) log
     /\ dropObserverCalls log = [])
  /\ (exists err log,
        BuildSeqNumberToFrontendMap [observer "3"; observer "x"] None "dcr-fe"
        = inl err
        /\ dropObserverBySqlClient
             (world (byName [observer "3"; observer "x"])) names
             (metadataTier 4 3) tt
           = Ret None tt log
        /\ dropObserverCalls log = [])
  /\ (exists log,
        scaledOutBENodesBySQL
          (world (running 5 None [backend "3"; backend "x"])) names
          (ddc [group 3] []) "cg1" 3 tt
        = Ret (Some (NumError "x" Go.ErrSyntax)) tt log
        /\ dropBECalls log = []).
Proof.
  split; [|split].
  - eexists. split; [vm_compute; reflexivity|].
    split; [reflexivity|]. split; [vm_compute; tauto | vm_compute; reflexivity].
  - do 2 eexists. split; [vm_compute; reflexivity|].
    split; vm_compute; reflexivity.
  - eexists. split; vm_compute; reflexivity.
Qed.

(** *** The theorems at these inputs *)

Lemma dropObserverBySqlClient_removes_witness :
  FeReplicas (metadataTier 4 3) = Some 4
  /\ GetElectionNumber names (metadataTier 4 3) <= 4
  /\ exists err w' log,
       dropObserverBySqlClient (world (byName [observer "2"; observer "3"; observer "4"]))
         names (metadataTier 4 3) tt
       = Ret err w' log
       /\ dropBECalls log = []
       /\ exists observes,
            dropObserverCalls log = [observes]
            /\ Z.of_nat (length observes) = 3 - 4 + 3.
Proof.
  split; [reflexivity|]. split; [simpl; lia|].
  destruct (dropObserverBySqlClient_removes
              (world (byName [observer "2"; observer "3"; observer "4"])) names
              (metadataTier 4 3) 4 tt eq_refl)
    as (err & w' & log & Hrun & Hbe & Hdrop); [simpl; lia|].
  exists err, w', log. split; [exact Hrun|]. split; [exact Hbe|].
  assert (Hlog : In (GetObserversCall
                       (inr [observer "2"; observer "3"; observer "4"])) log
                 /\ In (GetConfigCall "doris" [] [("start_mode", "FQDN")]) log).
  { vm_compute in Hrun. injection Hrun as _ _ <-. simpl. tauto. }
  destruct Hlog as [Hobservers Hconfig].
  destruct (Hdrop _ Hobservers) as (_ & _ & Hpositive).
  destruct (Hpositive eq_refl [("start_mode", "FQDN")] []
              {[ 2 := observer "2"; 3 := observer "3"; 4 := observer "4" ]}
              Hconfig (or_introl eq_refl))
    as (observes & Hcalls & _ & _ & Hcount & _); [vm_compute; reflexivity|].
  exists observes. split; [exact Hcalls|].
  apply Hcount; [reflexivity | vm_compute; split; [discriminate | reflexivity]].
Defined.


Lemma initialCGStatus_preserves_sticky_witness :
  Replicas (group 3) = Some 3
  /\ phaseOf "cg1" [status Ready "cg0" 1; status ScaleDownFailed "cg1" 5]
     = Some ScaleDownFailed
  /\ sticky ScaleDownFailed
  /\ (exists ddc',
        initialCGStatus names
          (ddc [group 3] [status Ready "cg0" 1; status ScaleDownFailed "cg1" 5])
          (group 3) = Some ddc'
        /\ phaseOf "cg1" (ComputeGroupStatuses ddc') = Some ScaleDownFailed)
  /\ (forall n, exists ddc',
        reinitialize names (group 3) n
          (ddc [group 3] [status Ready "cg0" 1; status ScaleDownFailed "cg1" 5])
        = Some ddc'
        /\ phaseOf "cg1" (ComputeGroupStatuses ddc') = Some ScaleDownFailed).
Proof.
  split; [reflexivity|]. split; [reflexivity|]. split; [now left|].
  apply (initialCGStatus_preserves_sticky names
           (ddc [group 3] [status Ready "cg0" 1; status ScaleDownFailed "cg1" 5])
           (group 3) 3 ScaleDownFailed);
    [reflexivity | reflexivity | now left].
Defined.

Lemma initialCGStatus_preserves_Scaling_witness :
  Replicas (group 3) = Some 3
  /\ phaseOf "cg1" [status Scaling "cg1" 5] = Some Scaling
  /\ exists ddc',
       initialCGStatus names (ddc [group 3] [status Scaling "cg1" 5]) (group 3)
       = Some ddc'
       /\ phaseOf "cg1" (ComputeGroupStatuses ddc') = Some Scaling.
Proof.
  split; [reflexivity|]. split; [reflexivity|].
  apply (initialCGStatus_preserves_Scaling names
           (ddc [group 3] [status Scaling "cg1" 5]) (group 3) 3);
    reflexivity.
Defined.

(** The leader does not answer: the phase becomes [ScaleDownFailed]. *)
Lemma reconcileStatefulset_scaleDown_witness :
  GetStatefulSet (world (running 5 (Some refused) fiveBackends)) "doris" "ddc-cg1" tt
  = (Found (cg1Set 5), tt)
  /\ phaseOf "cg1" [status Reconciling "cg1" 5] = Some Reconciling
  /\ getScaleType (cg1Set 3) (cg1Set 5) Reconciling = Some "scaleDown"
  /\ ApplyStatefulSet (world (running 5 (Some refused) fiveBackends)) (cg1Set 3) tt
     = (None, tt)
  /\ Replicas (group 3) = Some 3
  /\ exists dropped w3 drainLog event cluster' log,
       scaledOutBENodesBySQL (world (running 5 (Some refused) fiveBackends)) names
         (ddc [group 3] [status Reconciling "cg1" 5]) "cg1" 3 tt
       = Ret dropped w3 drainLog
       /\ reconcileStatefulset (world (running 5 (Some refused) fiveBackends)) names
            (cg1Set 3) (ddc [group 3] [status Reconciling "cg1" 5]) (group 3) tt
          = Ret (event, dropped, cluster') w3 log
       /\ match dropped with
          | Some err =>
              phaseOf "cg1" (ComputeGroupStatuses cluster') = Some ScaleDownFailed
              /\ event = Some {| Type_ := EventWarning; Reason := CGSqlExecFailed;
                                 Message := ErrorText err |}
          | None =>
              phaseOf "cg1" (ComputeGroupStatuses cluster') = Some Scaling
              /\ event = None
          end.
Proof.
  do 5 (split; [reflexivity|]).
  apply (reconcileStatefulset_scaleDown
           (world (running 5 (Some refused) fiveBackends)) names
           (cg1Set 3) (cg1Set 5) (ddc [group 3] [status Reconciling "cg1" 5])
           (group 3) Reconciling 3 tt tt tt);
    reflexivity.
Defined.


Lemma replicasSet_afterRemoval : replicasSet afterRemoval.
Proof. intros cg [<-|[]]. discriminate. Defined.

Lemma ClearResources_keeps_failed_teardowns_witness :
  replicasSet afterRemoval
  /\ exists attempts ddc' w' log,
       ClearResources (world leftBehind) names afterRemoval tt
       = Ret (true, None, ddc') w' log
       /\ List.map fst attempts = removedStatuses afterRemoval
       /\ ComputeGroupStatuses ddc'
          = (keptStatuses afterRemoval ++ retained attempts)%list.
Proof.
  split; [exact replicasSet_afterRemoval|].
  destruct (ClearResources_keeps_failed_teardowns (world leftBehind) names
              afterRemoval tt replicasSet_afterRemoval)
    as (attempts & ddc' & w' & log & Hrun & Hfst & _ & Hstatuses & _).
  exists attempts, ddc', w', log. auto.
Defined.

Lemma ClearResources_drops_after_failed_drain_witness :
  replicasSet afterRemoval
  /\ exists ddc' w' log,
       ClearResources (world leftBehind) names afterRemoval tt
       = Ret (true, None, ddc') w' log
       /\ ~ In (status Ready "cg2" 2) (ComputeGroupStatuses ddc')
       /\ exists err, In (sqlWarning err) log.
Proof.
  split; [exact replicasSet_afterRemoval|].
  destruct (ClearResources_drops_after_failed_drain (world leftBehind) names
              afterRemoval tt replicasSet_afterRemoval)
    as (ddc' & w' & log & Hrun & Hdropped).
  exists ddc', w', log. split; [exact Hrun|].
  apply Hdropped.
  - right. left. reflexivity.
  - reflexivity.
  - intros []. reflexivity.
  - intros []. reflexivity.
  - intros []. do 3 eexists. vm_compute. reflexivity.
Defined.

End Runs.

(** * Further properties *)

(** ** The runs of the compute-group drain *)

Section DrainRuns.

Context {W : Type} (K : Externals W) (H : Helpers).

(** The five ways the compute-group drain runs. *)
Lemma scaledOutBENodesBySQL_cases
    (cluster : DorisDisaggregatedCluster) (cgName : string) (R : Z) (w : W) :
  exists secret confMap,
    let opening := computeDrainOpening H cluster secret confMap in
    let run := scaledOutBENodesBySQL K H cluster cgName R w in
    (exists e w', run = Ret (Some e) w' (opening (Some e)))
    \/ (exists e w',
          run = Ret (Some e) w'
                  (opening None ++ [GetBackendsByCGNameCall cgName (inl e); CloseCall]))
    \/ (exists allBackends e w',
          selectDropNodes allBackends R [] = inl e
          /\ run = Ret (Some e) w'
                     (opening None
                      ++ [GetBackendsByCGNameCall cgName (inr allBackends); CloseCall]))
    \/ (exists allBackends w',
          selectDropNodes allBackends R [] = inr []
          /\ run = Ret None w'
                     (opening None
                      ++ [GetBackendsByCGNameCall cgName (inr allBackends); CloseCall]))
    \/ (exists allBackends nodes dropped w',
          selectDropNodes allBackends R [] = inr nodes
          /\ nodes <> []
          /\ run = Ret dropped w'
                     (opening None
                      ++ [GetBackendsByCGNameCall cgName (inr allBackends);
                          DropBECall nodes dropped; CloseCall])).
Proof.
  unfold scaledOutBENodesBySQL, computeDrainOpening, computeDBConf,
    bind, k8s_GetSecret, call.
  destruct (GetSecret K (Namespace cluster) (AuthSecret cluster) w) as [secret w1].
  exists secret.
  destruct (GetDorisLoginInformation H secret) as [user password].
  unfold k8s_GetConfigValuesFromConfigMaps, call.
  destruct (GetConfigValuesFromConfigMaps K _ _ _ w1) as [confMap w2].
  exists confMap.
  unfold mysql_NewDorisMasterSqlDB, call.
  destruct (NewDorisMasterSqlDB K _ w2) as [[e|] w3]; cbn.
  { left. now exists e, w3. }
  unfold deferClose, bind, mysql_GetBackendsByCGName, call.
  destruct (GetBackendsByCGName K cgName w3) as [[e|allBackends] w4]; cbn.
  { right. left. now do 2 eexists. }
  destruct (selectDropNodes allBackends R []) as [e|dropNodes] eqn:Hsel; cbn.
  { right. right. left. exists allBackends, e. now eexists. }
  destruct dropNodes as [|node dropNodes]; cbn.
  { right. right. right. left. exists allBackends. now eexists. }
  unfold mysql_DropBE, call.
  destruct (DropBE K (node :: dropNodes) w4) as [dropped w5]; cbn.
  right. right. right. right. exists allBackends, (node :: dropNodes), dropped.
  eexists. split; [exact Hsel|]. split; [discriminate|].
  now destruct dropped.
Qed.

(** X1. The compute-group drain returns nil exactly when it connected,
    listed the backends, parsed the ordinal of every one of them and, if it
    removed any, removed them without error; and an error it returns is the
    one the leader reported or the one of a host that does not parse. *)
Theorem scaledOutBENodesBySQL_nil_iff_done
    (cluster : DorisDisaggregatedCluster) (cgName : string) (R : Z) (w : W) :
  exists err w' log,
    scaledOutBENodesBySQL K H cluster cgName R w = Ret err w' log
    /\ (err = None <->
        forallb (fun c => negb (failedCall c)) log = true
        /\ forall allBackends,
             In (GetBackendsByCGNameCall cgName (inr allBackends)) log ->
             Forall resolves allBackends)
    /\ (forall e, err = Some e ->
          (exists c, In c log /\ reports c e)
          \/ exists allBackends node,
               In (GetBackendsByCGNameCall cgName (inr allBackends)) log
               /\ In node allBackends /\ podNum (Host node) = inl e).
Proof.
  destruct (scaledOutBENodesBySQL_cases cluster cgName R w)
    as (secret & confMap & Hcases).
  cbv zeta in Hcases. unfold computeDrainOpening in Hcases.
  destruct Hcases as [(e & w' & ->)|[(e & w' & ->)|[(bs & e & w' & Hsel & ->)
    |[(bs & w' & Hsel & ->)|(bs & nodes & dropped & w' & Hsel & Hne & ->)]]]];
    do 3 eexists; (split; [reflexivity|]); cbn.
  - split; [split; [discriminate | intros [[=] _]]|].
    intros e' [= <-]. left. eexists. split; [right; right; left; reflexivity|].
    reflexivity.
  - split; [split; [discriminate | intros [[=] _]]|].
    intros e' [= <-]. left. eexists.
    split; [right; right; right; left; reflexivity|]. reflexivity.
  - split.
    + split; [discriminate|]. intros [_ Hall].
      specialize (Hall bs). rewrite selectDropNodes_resolves in Hsel by tauto.
      discriminate.
    + intros e' [= <-]. right.
      destruct (selectDropNodes_inl _ _ _ _ Hsel) as (node & Hin & Hnode).
      exists bs, node. tauto.
  - split; [|discriminate]. split; [|reflexivity]. intros _.
    split; [reflexivity|]. intros bs' Hin. in_log Hin. injection Hin as <-.
    now apply selectDropNodes_inr in Hsel.
  - destruct dropped as [e|]; cbn.
    + split; [split; [discriminate | intros [[=] _]]|].
      intros e' [= <-]. left. eexists.
      split; [do 4 right; left; reflexivity|]. reflexivity.
    + split; [|discriminate]. split; [|reflexivity]. intros _.
      split; [reflexivity|]. intros bs' Hin. in_log Hin. injection Hin as <-.
      now apply selectDropNodes_inr in Hsel.
Qed.

(** X2. The compute-group drain closes the connection it opened, once and
    as its last call; when the connection fails it makes no call on a
    connection, not even [Close]. *)
Theorem scaledOutBENodesBySQL_closes_connection
    (cluster : DorisDisaggregatedCluster) (cgName : string) (R : Z) (w : W) :
  exists err w' log,
    scaledOutBENodesBySQL K H cluster cgName R w = Ret err w' log
    /\ ((exists conf, In (NewDorisMasterSqlDBCall conf None) log) -> closedAtEnd log)
    /\ ((forall conf, ~ In (NewDorisMasterSqlDBCall conf None) log) ->
        forallb (fun c => negb (onConnection c)) log = true).
Proof.
  destruct (scaledOutBENodesBySQL_cases cluster cgName R w)
    as (secret & confMap & Hcases).
  cbv zeta in Hcases. unfold computeDrainOpening in Hcases.
  destruct Hcases as [(e & w' & ->)|[(e & w' & ->)|[(bs & e & w' & Hsel & ->)
    |[(bs & w' & Hsel & ->)|(bs & nodes & dropped & w' & Hsel & Hne & ->)]]]];
    do 3 eexists; (split; [reflexivity|]).
  - split; [intros (conf & Hin); in_log Hin | reflexivity].
  - split.
    + intros _. eexists [_; _; _; _]. split; [reflexivity|].
      intros Hin. in_log Hin.
    + intros Hnone. exfalso. eapply Hnone. right. right. left. reflexivity.
  - split.
    + intros _. eexists [_; _; _; _]. split; [reflexivity|].
      intros Hin. in_log Hin.
    + intros Hnone. exfalso. eapply Hnone. right. right. left. reflexivity.
  - split.
    + intros _. eexists [_; _; _; _]. split; [reflexivity|].
      intros Hin. in_log Hin.
    + intros Hnone. exfalso. eapply Hnone. right. right. left. reflexivity.
  - split.
    + intros _. eexists [_; _; _; _; _]. split; [reflexivity|].
      intros Hin. in_log Hin.
    + intros Hnone. exfalso. eapply Hnone. right. right. left. reflexivity.
Qed.

End DrainRuns.

(** ** Ordinals are never negative *)









Section FullDrop.

Context {W : Type} (K : Externals W) (H : Helpers).


End FullDrop.

(** ** The runs of the metadata-tier drain *)

Section ObserverRuns.

Context {W : Type} (K : Externals W) (H : Helpers).

(** The ways the metadata-tier drain runs: it fails to connect, fails to
    list the observers, panics on a nil replica count, returns nil without
    a removal, or returns the result of its one removal. *)
Lemma dropObserverBySqlClient_cases (targetDCR : DorisCluster) (w : W) :
  exists secret maps,
    let opening := feDrainOpening H targetDCR secret maps in
    let run := dropObserverBySqlClient K H targetDCR w in
    let listed (r : Error + list Pod) :=
      GetPodsCall (DcNamespace targetDCR) (GetPodLabels H targetDCR) r in
    (exists e w', run = Ret (Some e) w' (opening (Some e)))
    \/ (exists e w',
          run = Ret (Some e) w' (opening None ++ [GetObserversCall (inl e); CloseCall]))
    \/ (exists allObserves,
          FeReplicas targetDCR = None
          /\ run = Panic (opening None ++ [GetObserversCall (inr allObserves); CloseCall]))
    \/ (exists allObserves mid w',
          run = Ret None w'
                  (opening None ++ GetObserversCall (inr allObserves) :: mid ++ [CloseCall])
          /\ (mid = [] \/ exists r, mid = [listed r]))
    \/ (exists allObserves mid nodes dropped w',
          run = Ret dropped w'
                  (opening None ++ GetObserversCall (inr allObserves) :: mid
                   ++ [DropObserverCall nodes dropped; CloseCall])
          /\ (mid = [] \/ exists items, mid = [listed (inr items)])).
Proof.
  unfold dropObserverBySqlClient, feDrainOpening, feDBConf, bind, k8s_GetSecret, call.
  destruct (GetSecret K _ _ w) as [secret w1]. exists secret.
  destruct (GetClusterSecret H targetDCR secret) as [user password].
  unfold k8s_GetConfig, call.
  destruct (GetConfig K _ _ w1) as [maps w2]. exists maps.
  unfold mysql_NewDorisMasterSqlDB, call.
  destruct (NewDorisMasterSqlDB K _ w2) as [[e|] w3]; cbn.
  { left. now exists e, w3. }
  unfold deferClose, bind, mysql_GetObservers, call.
  destruct (GetObservers K w3) as [[e|allObserves] w4]; cbn.
  { right. left. now do 2 eexists. }
  destruct (FeReplicas targetDCR) as [R|] eqn:HR; cbn.
  2:{ right. right. left. now exists allObserves. }
  right. right. right.
  destruct (needRemovedAmount allObserves R (GetElectionNumber H targetDCR) <=? 0); cbn.
  { left. exists allObserves, []. eexists. split; [reflexivity | now left]. }
  destruct (String.eqb (GetStartMode H maps) (START_MODEL_FQDN H)).
  - destruct (BuildSeqNumberToFrontendMap allObserves None _) as [e|frontendMap]; cbn.
    + left. exists allObserves, []. eexists. split; [reflexivity | now left].
    + unfold mysql_DropObserver, call.
      destruct (DropObserver K _ w4) as [dropped w5]; cbn.
      right. exists allObserves, []. do 3 eexists. split; [reflexivity | now left].
  - unfold k8s_GetPods, call.
    destruct (GetPods K _ _ w4) as [[e|items] w5]; cbn.
    + left. exists allObserves. eexists [_]. eexists.
      split; [reflexivity | right; now eexists].
    + destruct (BuildSeqNumberToFrontendMap allObserves (Some _) _)
        as [e|frontendMap]; cbn.
      * left. exists allObserves. eexists [_]. eexists.
        split; [reflexivity | right; now eexists].
      * unfold mysql_DropObserver, call.
        destruct (DropObserver K _ w5) as [dropped w6]; cbn.
        right. exists allObserves. eexists [_]. do 3 eexists.
        split; [reflexivity | right; now eexists].
Qed.

(** X4. The metadata-tier drain closes the connection it opened, once and
    as its last call, also when it panics on a nil replica count; when the
    connection fails it makes no call on a connection. *)
Theorem dropObserverBySqlClient_closes_connection (targetDCR : DorisCluster) (w : W) :
  let log := logOf (dropObserverBySqlClient K H targetDCR w) in
  ((exists conf, In (NewDorisMasterSqlDBCall conf None) log) -> closedAtEnd log)
  /\ ((forall conf, ~ In (NewDorisMasterSqlDBCall conf None) log) ->
      forallb (fun c => negb (onConnection c)) log = true).
Proof.
  destruct (dropObserverBySqlClient_cases targetDCR w) as (secret & maps & Hcases).
  cbv zeta in *. unfold feDrainOpening in Hcases.
  destruct Hcases as [(e & w' & ->)|[(e & w' & ->)|[(obs & HR & ->)
    |[(obs & mid & w' & -> & Hmid)|(obs & mid & nodes & dropped & w' & -> & Hmid)]]]];
    cbn [logOf].
  - split; [intros (conf & Hin); in_log Hin | reflexivity].
  - split.
    + intros _. eexists [_; _; _; _]. split; [reflexivity|].
      intros Hin. in_log Hin.
    + intros Hnone. exfalso. eapply Hnone. right. right. left. reflexivity.
  - split.
    + intros _. eexists [_; _; _; _]. split; [reflexivity|].
      intros Hin. in_log Hin.
    + intros Hnone. exfalso. eapply Hnone. right. right. left. reflexivity.
  - split.
    + intros _. destruct Hmid as [->|(r & ->)].
      * eexists [_; _; _; _]. split; [reflexivity|]. intros Hin. in_log Hin.
      * eexists [_; _; _; _; _]. split; [reflexivity|]. intros Hin. in_log Hin.
    + intros Hnone. exfalso. eapply Hnone. right. right. left. reflexivity.
  - split.
    + intros _. destruct Hmid as [->|(r & ->)].
      * eexists [_; _; _; _; _]. split; [reflexivity|]. intros Hin. in_log Hin.
      * eexists [_; _; _; _; _; _]. split; [reflexivity|]. intros Hin. in_log Hin.
    + intros Hnone. exfalso. eapply Hnone. right. right. left. reflexivity.
Qed.

End ObserverRuns.

(** ** The preparation of the metadata tier *)

Section Prepare.

Context {W : Type} (K : Externals W) (H : Helpers).

(** The metadata-tier drain returns for a cluster with a replica count. *)
Lemma dropObserverBySqlClient_returns (targetDCR : DorisCluster) (R : Z) (w : W) :
  FeReplicas targetDCR = Some R ->
  exists err w' log, dropObserverBySqlClient K H targetDCR w = Ret err w' log.
Proof.
  intros HR.
  destruct (dropObserverBySqlClient_cases K H targetDCR w) as (secret & maps & Hcases).
  cbv zeta in Hcases.
  destruct Hcases as [(e & w' & ->)|[(e & w' & ->)|[(obs & Hnil & _)
    |[(obs & mid & w' & -> & _)|(obs & mid & nodes & dropped & w' & -> & _)]]]];
    try (now do 3 eexists).
  congruence.
Qed.

(** X5. When [prepareStatefulsetApply] finds the StatefulSet of the tier, it
    returns, and the replica count it leaves in the cluster is the desired
    count raised to the election number, so never below it; nothing else of
    the cluster changes, and the warning is recorded exactly when the count
    was raised. When the StatefulSet is not found, the cluster is left as it
    is, with its replica count not raised, and nothing else is called. *)
Theorem prepareStatefulsetApply_raises_to_election_number
    (cluster : DorisCluster) (w : W) :
  let found := fst (GetStatefulSet K (DcNamespace cluster)
                      (GenerateComponentStatefulSetName H cluster) w) in
  (forall oldSt previous,
     found = Found oldSt -> StReplicas oldSt = Some previous ->
     exists err w' log,
       prepareStatefulsetApply K H cluster w
       = Ret (err, set_FeReplicas cluster (Some (desiredFeReplicas H cluster))) w' log
       /\ GetElectionNumber H (defaultedFe cluster) <= desiredFeReplicas H cluster
       /\ (In electionWarning log <->
           default 0 (FeReplicas cluster) < GetElectionNumber H (defaultedFe cluster)))
  /\ ((forall oldSt, found <> Found oldSt) ->
      exists w',
        prepareStatefulsetApply K H cluster w
        = Ret (None, cluster) w'
            [GetStatefulSetCall (DcNamespace cluster)
               (GenerateComponentStatefulSetName H cluster) found]).
Proof.
  cbv zeta. unfold prepareStatefulsetApply, bind, k8s_GetStatefulSet, call.
  destruct (GetStatefulSet K _ _ w) as [got w1]. cbn [fst]. split.
  - intros oldSt previous -> Hold. cbn.
    unfold desiredFeReplicas, defaultedFe.
    set (cluster0 := match FeReplicas cluster with
                     | Some _ => cluster
                     | None => set_FeReplicas cluster (Some 0)
                     end).
    set (ele := GetElectionNumber H cluster0).
    set (R := default 0 (FeReplicas cluster)).
    assert (Hrep : FeReplicas cluster0 = Some R).
    { subst cluster0 R. destruct (FeReplicas cluster) eqn:Hr; [exact Hr | reflexivity]. }
    assert (Hset : forall n, set_FeReplicas cluster0 (Some n) = set_FeReplicas cluster (Some n)).
    { intros n. subst cluster0. now destruct (FeReplicas cluster). }
    assert (Hsame : cluster0 = set_FeReplicas cluster (Some R)).
    { subst cluster0 R. destruct cluster as [ns name auth [r|] el info]; reflexivity. }
    rewrite Hrep. cbn.
    destruct (Z.ltb_spec R ele) as [Hlt|Hge].
    + unfold K8srecorder_Event, call. cbn. rewrite Hold. cbn.
      rewrite Hset. replace (Z.max R ele) with ele by lia.
      destruct (Go.wrap32 (ele - previous) <? 0).
      * match goal with
        | |- context [dropObserverBySqlClient K H ?c ?w0] =>
            destruct (dropObserverBySqlClient_returns c ele w0 eq_refl)
              as (err & w' & log & Hrun)
        end.
        rewrite Hrun. exists err, w'. eexists.
        split; [now destruct err|]. split; [lia|].
        split; [intros _; exact Hlt | intros _; right; left; reflexivity].
      * cbn. do 3 eexists. split; [reflexivity|]. split; [lia|].
        split; [intros _; exact Hlt | intros _; right; left; reflexivity].
    + cbn. rewrite Hrep. cbn. rewrite Hold. cbn.
      replace (Z.max R ele) with R by lia. rewrite <- Hsame.
      destruct (Go.wrap32 (R - previous) <? 0).
      * destruct (dropObserverBySqlClient_cases K H cluster0 w1)
          as (secret & maps & Hcases).
        cbv zeta in Hcases. unfold feDrainOpening in Hcases.
        destruct Hcases as [(e & w' & ->)|[(e & w' & ->)|[(obs & Hnil & _)
          |[(obs & mid & w' & -> & Hmid)|(obs & mid & nodes & dropped & w' & -> & Hmid)]]]];
          try congruence.
        -- do 3 eexists. split; [reflexivity|]. split; [lia|].
           split; [intros Hin; in_log Hin | lia].
        -- do 3 eexists. split; [reflexivity|]. split; [lia|].
           split; [intros Hin; in_log Hin | lia].
        -- do 3 eexists. split; [reflexivity|]. split; [lia|].
           split; [|lia]. intros Hin.
           destruct Hmid as [->|(r & ->)]; in_log Hin.
        -- exists dropped, w'. eexists. split; [now destruct dropped|].
           split; [lia|]. split; [|lia]. intros Hin.
           destruct Hmid as [->|(r & ->)]; in_log Hin.
      * cbn. do 3 eexists. split; [reflexivity|]. split; [lia|].
        split; [intros Hin; in_log Hin | lia].
  - intros Hnot. destruct got as [oldSt|e|e]; [now elim (Hnot oldSt)| |];
      cbn; now eexists.
Qed.

(** X6. When the StatefulSet found has more replicas than the count
    [prepareStatefulsetApply] works with, the function runs the drain on the
    cluster with that count and returns what the drain returns, error or
    nil; before the drain it only reads the StatefulSet and records the
    warning. *)
Theorem prepareStatefulsetApply_drains_on_shrink
    (cluster : DorisCluster) (oldSt : StatefulSet) (previous : Z) (w w1 : W) :
  GetStatefulSet K (DcNamespace cluster) (GenerateComponentStatefulSetName H cluster) w
  = (Found oldSt, w1) ->
  StReplicas oldSt = Some previous ->
  desiredFeReplicas H cluster < previous ->
  Go.in_int32 (desiredFeReplicas H cluster - previous) ->
  let cluster' := set_FeReplicas cluster (Some (desiredFeReplicas H cluster)) in
  exists w2 err w' before drainLog,
    dropObserverBySqlClient K H cluster' w2 = Ret err w' drainLog
    /\ prepareStatefulsetApply K H cluster w
       = Ret (err, cluster') w' (before ++ drainLog)%list
    /\ noDrain before.
Proof.
  intros Hget Hold Hshrink Hrange. cbv zeta.
  unfold prepareStatefulsetApply, bind, k8s_GetStatefulSet, call.
  rewrite Hget. cbn.
  unfold desiredFeReplicas, defaultedFe in *.
  set (cluster0 := match FeReplicas cluster with
                   | Some _ => cluster
                   | None => set_FeReplicas cluster (Some 0)
                   end) in *.
  set (ele := GetElectionNumber H cluster0) in *.
  set (R := default 0 (FeReplicas cluster)) in *.
  assert (Hrep : FeReplicas cluster0 = Some R).
  { subst cluster0 R. destruct (FeReplicas cluster) eqn:Hr; [exact Hr | reflexivity]. }
  assert (Hset : forall n, set_FeReplicas cluster0 (Some n) = set_FeReplicas cluster (Some n)).
  { intros n. subst cluster0. now destruct (FeReplicas cluster). }
  assert (Hsame : cluster0 = set_FeReplicas cluster (Some R)).
  { subst cluster0 R. destruct cluster as [ns name auth [r|] el info]; reflexivity. }
  rewrite Hrep. cbn.
  destruct (Z.ltb_spec R ele) as [Hlt|Hge].
  - unfold K8srecorder_Event, call. cbn. rewrite Hold. cbn. rewrite Hset.
    replace (Z.max R ele) with ele in * by lia.
    rewrite wrap32_small by exact Hrange.
    destruct (Z.ltb_spec (ele - previous) 0) as [_|Hge]; [|lia].
    match goal with
    | |- context [dropObserverBySqlClient K H ?c ?w0] =>
        destruct (dropObserverBySqlClient_returns c ele w0 eq_refl)
          as (err & w' & log & Hrun);
        exists w0, err, w'
    end.
    eexists [_; _], log. split; [exact Hrun|]. rewrite Hrun.
    split; [destruct err; cbn; rewrite app_nil_r; reflexivity | reflexivity].
  - cbn. rewrite Hrep. cbn. rewrite Hold. cbn.
    replace (Z.max R ele) with R in * by lia. rewrite <- Hsame.
    rewrite wrap32_small by exact Hrange.
    destruct (Z.ltb_spec (R - previous) 0) as [_|Hge']; [|lia].
    destruct (dropObserverBySqlClient_returns cluster0 R w1 Hrep)
      as (err & w' & log & Hrun).
    exists w1, err, w'. eexists [_], log. split; [exact Hrun|]. rewrite Hrun.
    split; [destruct err; cbn; rewrite app_nil_r; reflexivity | reflexivity].
Qed.

End Prepare.

(** ** The outcomes of the reconciliation of a StatefulSet *)

Section ReconcileOutcome.

Context {W : Type} (K : Externals W) (H : Helpers).

(** What a run of [reconcileStatefulset] that returns did. *)
Lemma reconcileStatefulset_run
    (st : StatefulSet) (cluster cluster' : DorisDisaggregatedCluster)
    (cg : ComputeGroup) (w w' : W) (event : option Event) (err : option Error)
    (log : list Call) :
  reconcileStatefulset K H st cluster cg w = Ret (event, err, cluster') w' log ->
  (forall c e, In c log -> platformReports c e \/ reports c e -> err = Some e)
  /\ (forall ev, event = Some ev ->
        exists e, err = Some e /\ Type_ ev = EventWarning /\ Message ev = ErrorText e)
  /\ (cluster' = cluster
      \/ exists i phase,
           findStatus (UniqueId cg) (ComputeGroupStatuses cluster) = Some i
           /\ (phase = Scaling \/ phase = ScaleDownFailed)
           /\ cluster' = setPhaseAt cluster i phase)
  /\ (~ In (ApplyStatefulSetCall st None) log -> cluster' = cluster /\ noDrain log).
Proof.
  unfold reconcileStatefulset, bind, k8s_GetStatefulSet, k8s_CreateClientObject,
    k8s_ApplyStatefulSet, call.
  destruct (GetStatefulSet K _ _ w) as [[est|e0|e0] w1]; cbn.
  - destruct (findStatus (UniqueId cg) (ComputeGroupStatuses cluster)) as [i|] eqn:Hi;
      cbn; [|discriminate].
    destruct (ComputeGroupStatuses cluster !! i) as [cgs|]; cbn; [|discriminate].
    destruct (getScaleType st est (CgsPhase cgs)) as [scaleType|]; cbn; [|discriminate].
    destruct (ApplyStatefulSet K st w1) as [[e|] w2]; cbn.
    { intros [= <- <- <- <- <-].
      split; [intros c e' Hin Hrep; in_log Hin; subst; cbn in Hrep;
              destruct Hrep as [Hrep|Hrep]; try contradiction; congruence|].
      split; [intros ev [= <-]; now exists e|].
      split; [now left|]. intros _. now split. }
    destruct (String.eqb scaleType "scaleDown").
    2:{ cbn. intros [= <- <- <- <- <-].
        split; [intros c e' Hin Hrep; in_log Hin; subst; cbn in Hrep; tauto|].
        split; [discriminate|]. split; [now left|].
        intros Hnot. exfalso. apply Hnot. right. now left. }
    destruct (Replicas cg) as [keep|]; cbn; [|discriminate].
    destruct (scaledOutBENodesBySQL_cases K H cluster (GetCGName H cluster cg) keep w2)
      as (secret & confMap & Hcases).
    cbv zeta in Hcases. unfold computeDrainOpening in Hcases.
    destruct Hcases as [(e & w3 & ->)|[(e & w3 & ->)|[(bs & e & w3 & Hsel & ->)
      |[(bs & w3 & Hsel & ->)|(bs & nodes & [e|] & w3 & Hsel & Hne & ->)]]]];
      cbn; intros [= <- <- <- <- <-];
      (split; [intros c e' Hin Hrep; in_log Hin; subst; cbn in Hrep;
               destruct Hrep as [Hrep|Hrep]; try contradiction; congruence|]);
      (split; [first [discriminate | intros ev [= <-]; now eexists]|]);
      (split; [right; exists i; eexists; split; [reflexivity|]; split;
               [|reflexivity]; tauto|]);
      intros Hnot; exfalso; apply Hnot; right; now left.
  - destruct (CreateClientObject K st w1) as [[e|] w2]; cbn;
      intros [= <- <- <- <- <-].
    + split; [intros c e' Hin Hrep; in_log Hin; subst; cbn in Hrep;
              destruct Hrep as [Hrep|Hrep]; try contradiction; congruence|].
      split; [intros ev [= <-]; now exists e|].
      split; [now left|]. intros _. now split.
    + split; [intros c e' Hin Hrep; in_log Hin; subst; cbn in Hrep; tauto|].
      split; [discriminate|]. split; [now left|]. intros _. now split.
  - intros [= <- <- <- <- <-].
    split; [intros c e' Hin Hrep; in_log Hin; subst; cbn in Hrep;
            destruct Hrep as [Hrep|Hrep]; try contradiction; congruence|].
    split; [discriminate|]. split; [now left|]. intros _. now split.
Qed.

(** X7. Whenever [reconcileStatefulset] returns: a failure the platform or
    the leader reported is the error it returns; an event it returns is a
    warning that carries the text of the returned error; it changes nothing
    of the cluster but the phase of the group, to [Scaling] or
    [ScaleDownFailed]; and unless it applied the StatefulSet without error,
    it leaves the cluster as it is and runs no drain. *)
Theorem reconcileStatefulset_outcome
    (st : StatefulSet) (cluster cluster' : DorisDisaggregatedCluster)
    (cg : ComputeGroup) (w w' : W) (event : option Event) (err : option Error)
    (log : list Call) :
  reconcileStatefulset K H st cluster cg w = Ret (event, err, cluster') w' log ->
  (forall c e, In c log -> platformReports c e \/ reports c e -> err = Some e)
  /\ (forall ev, event = Some ev ->
        exists e, err = Some e /\ Type_ ev = EventWarning /\ Message ev = ErrorText e)
  /\ (cluster' = cluster
      \/ exists i phase,
           findStatus (UniqueId cg) (ComputeGroupStatuses cluster) = Some i
           /\ (phase = Scaling \/ phase = ScaleDownFailed)
           /\ cluster' = setPhaseAt cluster i phase)
  /\ (~ In (ApplyStatefulSetCall st None) log -> cluster' = cluster /\ noDrain log).
Proof. apply reconcileStatefulset_run. Qed.

End ReconcileOutcome.

(** ** The status list under initialization *)

Section InitialStatus.

Context (H : Helpers).

Lemma initialStatuses_other cgss uniqueId defaultStatus other :
  CgsUniqueId defaultStatus = uniqueId ->
  other <> uniqueId ->
  statusOf other (initialStatuses cgss uniqueId defaultStatus) = statusOf other cgss.
Proof.
  intros Hid Hother. unfold statusOf.
  assert (Hneq : String.eqb uniqueId other = false) by now apply String.eqb_neq.
  induction cgss as [|cgs rest IH]; simpl.
  - now rewrite Hid, Hneq.
  - destruct (String.eqb_spec (CgsUniqueId cgs) uniqueId) as [Heq|Hne]; simpl.
    + rewrite Heq, Hneq.
      destruct (carriedOver (CgsPhase cgs)); simpl; now rewrite Hid, Hneq.
    + now rewrite IH.
Qed.

Lemma initialStatuses_ids cgss uniqueId defaultStatus :
  CgsUniqueId defaultStatus = uniqueId ->
  statusIds (initialStatuses cgss uniqueId defaultStatus)
  = (statusIds cgss
     ++ match statusOf uniqueId cgss with Some _ => [] | None => [uniqueId] end)%list.
Proof.
  intros Hid. unfold statusIds, statusOf.
  induction cgss as [|cgs rest IH]; simpl.
  - now rewrite Hid.
  - destruct (String.eqb_spec (CgsUniqueId cgs) uniqueId) as [Heq|Hne]; simpl.
    + rewrite app_nil_r.
      destruct (carriedOver (CgsPhase cgs)); simpl; now rewrite Hid, Heq.
    + now rewrite IH.
Qed.

Lemma statusOf_In uniqueId cgss cgs :
  statusOf uniqueId cgss = Some cgs -> In uniqueId (statusIds cgss).
Proof.
  intros Hfind. apply find_some in Hfind as [Hin Heq].
  apply String.eqb_eq in Heq as <-. now apply in_map.
Qed.

Lemma statusOf_None uniqueId cgss :
  statusOf uniqueId cgss = None -> ~ In uniqueId (statusIds cgss).
Proof.
  intros Hfind Hin. apply in_map_iff in Hin as (cgs & Hid & Hin).
  apply (find_none _ _ Hfind) in Hin. rewrite Hid, String.eqb_refl in Hin.
  discriminate.
Qed.

(** X8. [initialCGStatus] keeps the status list well formed: the statuses
    of the other groups and the specification are untouched; the list grows
    by one status, at its end, exactly when the group had none; and
    identifiers that were unique stay unique. *)
Theorem initialCGStatus_keeps_the_others
    (ddc : DorisDisaggregatedCluster) (cg : ComputeGroup) (replicas : Z) :
  Replicas cg = Some replicas ->
  exists ddc',
    initialCGStatus H ddc cg = Some ddc'
    /\ ComputeGroups ddc' = ComputeGroups ddc
    /\ (forall other, other <> UniqueId cg ->
          statusOf other (ComputeGroupStatuses ddc')
          = statusOf other (ComputeGroupStatuses ddc))
    /\ statusIds (ComputeGroupStatuses ddc')
       = (statusIds (ComputeGroupStatuses ddc)
          ++ match statusOf (UniqueId cg) (ComputeGroupStatuses ddc) with
             | Some _ => []
             | None => [UniqueId cg]
             end)%list
    /\ (List.NoDup (statusIds (ComputeGroupStatuses ddc)) ->
        List.NoDup (statusIds (ComputeGroupStatuses ddc'))).
Proof.
  intros Hr. unfold initialCGStatus. rewrite Hr.
  eexists. split; [reflexivity|]. cbn [ComputeGroups ComputeGroupStatuses
    set_ComputeGroupStatuses].
  split; [reflexivity|].
  split; [intros other Hother; now apply initialStatuses_other|].
  rewrite initialStatuses_ids by reflexivity.
  split; [reflexivity|]. intros Hnodup.
  destruct (statusOf (UniqueId cg) (ComputeGroupStatuses ddc)) eqn:Hfind.
  - now rewrite app_nil_r.
  - apply statusOf_None in Hfind.
    apply List.NoDup_app; [exact Hnodup | |].
    + apply List.NoDup_cons; [easy | constructor].
    + intros x Hx [<-|[]]. contradiction.
Qed.

Lemma initialStatuses_entry cgss uniqueId defaultStatus :
  CgsUniqueId defaultStatus = uniqueId ->
  statusOf uniqueId (initialStatuses cgss uniqueId defaultStatus)
  = Some match statusOf uniqueId cgss with
         | Some old =>
             set_SuspendReplicas
               (if carriedOver (CgsPhase old)
                then set_Phase defaultStatus (CgsPhase old) else defaultStatus)
               (CgsSuspendReplicas old)
         | None => defaultStatus
         end.
Proof.
  intros Hid. unfold statusOf.
  induction cgss as [|cgs rest IH]; simpl.
  - now rewrite Hid, String.eqb_refl.
  - destruct (String.eqb (CgsUniqueId cgs) uniqueId) eqn:Heq; simpl.
    + destruct (carriedOver (CgsPhase cgs)); simpl;
        now rewrite Hid, String.eqb_refl.
    + now rewrite Heq.
Qed.

(** X9. The status [initialCGStatus] leaves for the group is built afresh
    from the specification: the replica count and the names of the
    StatefulSet and of the Service are those of the specification, the
    count of available replicas is back to zero, and of the status the
    group had only the suspended replica count is carried over, with the
    phase when it is one of the five that are kept. *)
Theorem initialCGStatus_refreshes_the_status
    (ddc : DorisDisaggregatedCluster) (cg : ComputeGroup) (replicas : Z) :
  Replicas cg = Some replicas ->
  exists ddc' cgs,
    initialCGStatus H ddc cg = Some ddc'
    /\ statusOf (UniqueId cg) (ComputeGroupStatuses ddc') = Some cgs
    /\ CgsUniqueId cgs = UniqueId cg
    /\ CgsReplicas cgs = replicas
    /\ CgsStatefulsetName cgs = GetCGStatefulsetName H ddc cg
    /\ CgsServiceName cgs = GetCGServiceName H ddc cg
    /\ CgsAvailableReplicas cgs = 0
    /\ CgsSuspendReplicas cgs
       = match statusOf (UniqueId cg) (ComputeGroupStatuses ddc) with
         | Some old => CgsSuspendReplicas old
         | None => 0
         end
    /\ CgsPhase cgs
       = match statusOf (UniqueId cg) (ComputeGroupStatuses ddc) with
         | Some old => if carriedOver (CgsPhase old) then CgsPhase old else Reconciling
         | None => Reconciling
         end.
Proof.
  intros Hr. unfold initialCGStatus. rewrite Hr.
  do 2 eexists. split; [reflexivity|].
  cbn [ComputeGroupStatuses set_ComputeGroupStatuses].
  split; [now apply initialStatuses_entry|].
  destruct (statusOf (UniqueId cg) (ComputeGroupStatuses ddc)) as [old|];
    [destruct (carriedOver (CgsPhase old))|]; cbn; repeat split; reflexivity.
Qed.

End InitialStatus.

(** ** Storage reclamation: errors and removed groups *)

Section ReclaimErrors.

Context {W : Type} (K : Externals W) (H : Helpers).

(** The loop over the claims merges the errors of the deletions that fail,
    in order, and records a warning for each. *)
Lemma deletePVCs_merges pvcLabels claims : forall mergeError w,
  exists err w' log,
    deletePVCs_from K H pvcLabels claims mergeError w = Ret err w' log
    /\ err = fold_left (MergeError H) (failedDeletions log) mergeError
    /\ recorded log = List.map deleteWarning (failedDeletions log)
    /\ listedSelectors log = [].
Proof.
  unfold deletePVCs_from.
  induction claims as [|claim claims IH]; intros mergeError w; simpl.
  - now exists mergeError, w, [].
  - unfold bind at 1. unfold bind at 1. unfold k8s_DeletePVC at 1, call at 1.
    destruct (DeletePVC K _ _ _ w) as [[err|] w1]; cbn.
    + match goal with
      | |- context [forRange _ claims ?m ?w0] =>
          destruct (IH m w0) as (err' & w' & log & Hrun & Herr & Hrec & Hlist)
      end.
      rewrite Hrun. do 3 eexists. split; [reflexivity|]. cbn.
      fold (failedDeletions log) (recorded log) (listedSelectors log).
      now rewrite Hrec, Hlist.
    + destruct (IH mergeError w1) as (err' & w' & log & Hrun & Herr & Hrec & Hlist).
      rewrite Hrun. do 3 eexists. split; [reflexivity|]. cbn.
      fold (failedDeletions log) (recorded log) (listedSelectors log).
      now rewrite Hrec, Hlist.
Qed.


(** The log and the error of a storage reclamation that returns. *)
Lemma ClearStatefulsetUnusedPVCs_log
    (ddc : DorisDisaggregatedCluster) (cgs : ComputeGroupStatus)
    (w w' : W) (err : option Error) (log : list Call) :
  ClearStatefulsetUnusedPVCs K H ddc cgs w = Ret err w' log ->
  exists listed rest,
    log = ListPVCCall (Namespace ddc)
            (newCGPodsSelector H (Name ddc) (CgsUniqueId cgs)) listed :: rest
    /\ listedSelectors rest = []
    /\ match listed with
       | inl failure =>
           err = Some failure
           /\ rest = [RecorderCall (listWarning failure)]
       | inr _ =>
           err = fold_left (MergeError H) (failedDeletions log) None
           /\ recorded log = List.map deleteWarning (failedDeletions log)
           /\ (failedDeletions log = [] -> err = None)
       end.
Proof.
  unfold ClearStatefulsetUnusedPVCs, bind, k8s_ListPVC, call.
  destruct (ListPVC K _ _ w) as [[failure|items] w1]; cbn.
  { intros [= <- <- <-]. do 2 eexists. split; [reflexivity|].
    split; [reflexivity|]. split; reflexivity. }
  assert (Hdelete : forall claims w0 err0 w0' log0 before,
            deletePVCs K H (newCGPodsSelector H (Name ddc) (CgsUniqueId cgs))
              claims w0 = Ret err0 w0' log0 ->
            failedDeletions before = [] -> recorded before = [] ->
            listedSelectors before = [] ->
            listedSelectors (before ++ log0) = []
            /\ err0 = fold_left (MergeError H) (failedDeletions (before ++ log0)) None
            /\ recorded (before ++ log0)
               = List.map deleteWarning (failedDeletions (before ++ log0))
            /\ (failedDeletions (before ++ log0) = [] -> err0 = None)).
  { intros claims w0 err0 w0' log0 before Hrun Hfail Hrec Hlist.
    destruct (deletePVCs_merges
                (newCGPodsSelector H (Name ddc) (CgsUniqueId cgs)) claims None w0)
      as (err1 & w1' & log1 & Hrun1 & Herr & Hrec1 & Hlist1).
    change (deletePVCs_from K H ?l ?c None) with (deletePVCs K H l c) in Hrun1.
    rewrite Hrun in Hrun1. injection Hrun1 as <- <- <-.
    unfold failedDeletions, recorded, listedSelectors in *.
    rewrite !flat_map_app, Hfail, Hrec, Hlist. simpl.
    split; [exact Hlist1|]. split; [exact Herr|]. split; [exact Hrec1|].
    intros Hnone. rewrite Herr, Hnone. reflexivity. }
  destruct (findGroup (CgsUniqueId cgs) (ComputeGroups ddc)) as [cg|].
  - destruct (Replicas cg) as [replicas|]; cbn; [|discriminate].
    unfold k8s_GetConfigValuesFromConfigMaps, call.
    destruct (GetConfigValuesFromConfigMaps K _ _ _ w1) as [cvs w2]. cbn.
    match goal with |- context [if ?b then _ else _] => destruct b end; cbn.
    + intros [= <- <- <-]. do 2 eexists. split; [reflexivity|].
      split; [reflexivity|]. repeat split; reflexivity.
    + match goal with
      | |- context [deletePVCs K H ?labels ?claims ?w0] =>
          destruct (deletePVCs K H labels claims w0) as [err0 w0' log0|] eqn:Hrun;
            [|discriminate]
      end.
      intros [= <- <- <-]. do 2 eexists. split; [reflexivity|].
      destruct (Hdelete _ _ _ _ _ [GetConfigValuesCall (Namespace ddc)
                  (BE_RESOLVEKEY H) (ConfigMaps cg) cvs] Hrun eq_refl eq_refl eq_refl)
        as (Hlist & Herr & Hrec & Hnone).
      rewrite ?app_nil_r. cbn in *. auto.
  - match goal with
    | |- context [deletePVCs K H ?labels ?claims ?w0] =>
        destruct (deletePVCs K H labels claims w0) as [err0 w0' log0|] eqn:Hrun;
          [|discriminate]
    end.
    intros [= <- <- <-]. do 2 eexists. split; [reflexivity|].
    destruct (Hdelete _ _ _ _ _ [] Hrun eq_refl eq_refl eq_refl)
      as (Hlist & Herr & Hrec & Hnone).
    cbn in *. auto.
Qed.

(** X10. The error of a storage reclamation that returns. When the volumes
    cannot be listed, the error of the listing is returned, one
    [PVCListFailed] warning is recorded and nothing else is done. Otherwise
    the error is the merge, in order, of the errors of the deletions that
    failed, nil when none did, and the events recorded are one
    [PVCDeleteFailed] warning for each of them. *)
Theorem ClearStatefulsetUnusedPVCs_reports
    (ddc : DorisDisaggregatedCluster) (cgs : ComputeGroupStatus)
    (w w' : W) (err : option Error) (log : list Call) :
  ClearStatefulsetUnusedPVCs K H ddc cgs w = Ret err w' log ->
  exists listed rest,
    log = ListPVCCall (Namespace ddc)
            (newCGPodsSelector H (Name ddc) (CgsUniqueId cgs)) listed :: rest
    /\ listedSelectors rest = []
    /\ match listed with
       | inl failure =>
           err = Some failure
           /\ rest = [RecorderCall (listWarning failure)]
       | inr _ =>
           err = fold_left (MergeError H) (failedDeletions log) None
           /\ recorded log = List.map deleteWarning (failedDeletions log)
           /\ (failedDeletions log = [] -> err = None)
       end.
Proof. apply ClearStatefulsetUnusedPVCs_log. Qed.


End ReclaimErrors.

(** ** The teardown as a whole *)

Section TeardownCoverage.

Context {W : Type} (K : Externals W) (H : Helpers).

Lemma emits_weaken {A} (P Q : Call -> bool) (m : M W A) :
  (forall c, P c = true -> Q c = true) -> emits P m -> emits Q m.
Proof.
  intros HPQ Hm w. destruct (Hm w) as (a & w' & log & Hrun & Hlog).
  exists a, w', log. split; [exact Hrun|].
  rewrite forallb_forall in *. auto.
Qed.

Lemma clearCG_emits ddc eCGs cgs : emits clearCall (clearCG K H ddc eCGs cgs).
Proof.
  unfold clearCG.
  emits_step; [unfold k8s_DeleteStatefulset; emits_step|].
  emits_step; [destruct a; [unfold K8srecorder_Event|]; emits_step|].
  emits_step; [unfold k8s_DeleteService; emits_step|].
  emits_step; [destruct a1; [unfold K8srecorder_Event|]; emits_step|].
  destruct (negb (isNil a && isNil a1)); [emits_step|].
  emits_step.
  { eapply emits_weaken; [|apply scaledOutBENodesBySQL_emits]. now intros []. }
  emits_step; [destruct a3; [unfold K8srecorder_Event|]; emits_step|].
  emits_step.
Qed.

Lemma no_listing P log :
  forallb P log = true ->
  (forall c, P c = true -> clearCall c = true) ->
  listedSelectors log = [] /\ deletedPVCs log = [].
Proof.
  intros Hlog HP. rewrite forallb_forall in Hlog.
  induction log as [|c log IH]; [easy|].
  assert (Hc : clearCall c = true) by (apply HP, Hlog; now left).
  destruct IH as [IHl IHd]; [intros c' Hc'; apply Hlog; now right|].
  unfold listedSelectors, deletedPVCs in *. simpl. rewrite IHl, IHd.
  now destruct c.
Qed.

Lemma no_drain P log :
  forallb P log = true ->
  (forall c, P c = true -> drainCall c = false) ->
  noDrain log.
Proof.
  intros Hlog HP. unfold noDrain. rewrite forallb_forall in *.
  intros c Hc. now rewrite (HP c (Hlog c Hc)).
Qed.

(** The reclamation of the volumes of a list of statuses lists the volumes
    of each of them, in order. *)
Lemma clearPVCs_listing ddc cgss : replicasSet ddc -> forall w,
  exists w' log,
    clearPVCs K H ddc cgss w = Ret tt w' log
    /\ listedSelectors log = List.map (selectorOf H ddc) cgss
    /\ forallb reclaimCall log = true.
Proof.
  intros Hset. unfold clearPVCs.
  induction cgss as [|cgs cgss IH]; intros w; simpl.
  - now exists w, [].
  - unfold bind at 1. unfold bind at 1.
    destruct (ClearStatefulsetUnusedPVCs_emits K H ddc cgs Hset w)
      as (err & w1 & log1 & Hrun & Hcalls).
    rewrite Hrun.
    destruct (ClearStatefulsetUnusedPVCs_log K H _ _ _ _ _ _ Hrun)
      as (listed & rest & -> & Hrest & _).
    cbn. destruct (IH w1) as (w' & log & -> & Hlist & Hcalls').
    do 2 eexists. split; [reflexivity|]. split.
    + unfold listedSelectors in *. cbn.
      rewrite !flat_map_app, Hrest, Hlist. reflexivity.
    + rewrite app_nil_r. cbn in Hcalls. cbn [forallb reclaimCall andb].
      rewrite forallb_app, Hcalls, Hcalls'. reflexivity.
Qed.

(** X12. Every status gets its storage reclaimed. [ClearResources] lists
    the volumes of each status it leaves in the cluster and then of each
    status whose group left the specification, in order; so the volumes of
    a group whose teardown failed are listed twice. Nothing else lists
    volumes, and only these reclamations delete any. *)
Theorem ClearResources_reclaims_every_status
    (ddc : DorisDisaggregatedCluster) (w : W) :
  replicasSet ddc ->
  exists ddc' w' log,
    ClearResources K H ddc w = Ret (true, None, ddc') w' log
    /\ listedSelectors log
       = List.map (selectorOf H ddc)
           (ComputeGroupStatuses ddc' ++ removedStatuses ddc)
    /\ (forall cgs, In cgs (ComputeGroupStatuses ddc) ->
        In (selectorOf H ddc cgs) (listedSelectors log)).
Proof.
  intros Hset. unfold ClearResources. rewrite splitStatuses_filter.
  unfold bind.
  destruct (emits_forRange clearCall (clearCG K H ddc) (removedStatuses ddc)
              (fun acc cgs _ => clearCG_emits ddc acc cgs) (keptStatuses ddc) w)
    as (eCGs & w1 & log1 & Hrun1 & Hcalls1).
  rewrite Hrun1.
  destruct (clearPVCs_listing ddc eCGs Hset w1) as (w2 & log2 & -> & Hlist2 & _).
  destruct (clearPVCs_listing ddc (removedStatuses ddc) Hset w2)
    as (w3 & log3 & -> & Hlist3 & _).
  destruct (no_listing _ _ Hcalls1 (fun c Hc => Hc)) as [Hlist1 _].
  do 3 eexists. split; [reflexivity|].
  cbn [ComputeGroupStatuses set_ComputeGroupStatuses].
  assert (Hall : listedSelectors (log1 ++ log2 ++ log3 ++ [])
                 = List.map (selectorOf H ddc) (eCGs ++ removedStatuses ddc)).
  { unfold listedSelectors in *.
    rewrite !flat_map_app, Hlist1, Hlist2, Hlist3, List.map_app. simpl.
    now rewrite app_nil_r. }
  split; [exact Hall|].
  intros cgs Hin. rewrite Hall. apply in_map.
  apply in_app_iff.
  destruct (inSpec ddc cgs) eqn:Hspec.
  - left.
    destruct (clearCGs_run K H ddc (removedStatuses ddc) (keptStatuses ddc) w)
      as (outcomes & eCGs' & w1' & log1' & Hrun & _ & _ & -> & _).
    rewrite Hrun1 in Hrun. injection Hrun as -> _ _.
    apply in_app_iff. left. apply filter_In. auto.
  - right. apply filter_In. rewrite Hspec. auto.
Qed.

Lemma filter_none_all {A} (f : A -> bool) (l : list A) :
  forallb f l = true ->
  List.filter f l = l /\ List.filter (fun x => negb (f x)) l = [].
Proof.
  induction l as [|x l IH]; simpl; [easy|].
  intros [Hx Hl]%andb_true_iff. rewrite Hx. simpl.
  destruct (IH Hl) as [-> ->]. easy.
Qed.

(** X13. When every status belongs to a group of the specification,
    [ClearResources] leaves the cluster as it is: it deletes no StatefulSet
    and no Service and runs no drain; it only reclaims storage. *)
Theorem ClearResources_without_removals
    (ddc : DorisDisaggregatedCluster) (w : W) :
  replicasSet ddc ->
  forallb (inSpec ddc) (ComputeGroupStatuses ddc) = true ->
  exists w' log,
    ClearResources K H ddc w = Ret (true, None, ddc) w' log
    /\ forallb reclaimCall log = true
    /\ List.filter teardownCall log = []
    /\ noDrain log.
Proof.
  intros Hset Hall. unfold ClearResources. rewrite splitStatuses_filter.
  unfold removedStatuses, keptStatuses.
  destruct (filter_none_all _ _ Hall) as [-> ->].
  unfold bind. simpl.
  destruct (clearPVCs_emits K H ddc (ComputeGroupStatuses ddc) Hset w)
    as ([] & w1 & log1 & -> & Hcalls1).
  simpl. rewrite !app_nil_r.
  exists w1, log1.
  rename Hcalls1 into Hcalls.
  split; [now destruct ddc|].
  split; [exact Hcalls|].
  split.
  - apply (filter_teardown_none _ _ Hcalls). now intros [].
  - apply (no_drain _ _ Hcalls). now intros [].
Qed.

Lemma scaledOutBENodesBySQL_drainsOnly cluster cgName keep cgNames :
  In cgName cgNames ->
  emits (drainsOnly cgNames) (scaledOutBENodesBySQL K H cluster cgName keep).
Proof.
  intros Hin w.
  destruct (scaledOutBENodesBySQL_cases K H cluster cgName keep w)
    as (secret & confMap & Hcases).
  assert (Hname : existsb (String.eqb cgName) cgNames = true).
  { apply existsb_exists. exists cgName. split; [exact Hin | apply String.eqb_refl]. }
  cbv zeta in Hcases. unfold computeDrainOpening in Hcases.
  destruct Hcases as [(e & w' & ->)|[(e & w' & ->)|[(bs & e & w' & Hsel & ->)
    |[(bs & w' & Hsel & ->)|(bs & nodes & dropped & w' & Hsel & Hne & ->)]]]];
    do 3 eexists; (split; [reflexivity|]); cbn; now rewrite ?Hname.
Qed.

Lemma clearCG_drainsOnly ddc eCGs cgs cgNames :
  In (clearedName cgs) cgNames ->
  emits (drainsOnly cgNames) (clearCG K H ddc eCGs cgs).
Proof.
  intros Hin. unfold clearCG.
  emits_step; [unfold k8s_DeleteStatefulset; emits_step|].
  emits_step; [destruct a; [unfold K8srecorder_Event|]; emits_step|].
  emits_step; [unfold k8s_DeleteService; emits_step|].
  emits_step; [destruct a1; [unfold K8srecorder_Event|]; emits_step|].
  destruct (negb (isNil a && isNil a1)); [emits_step|].
  emits_step; [now apply scaledOutBENodesBySQL_drainsOnly|].
  emits_step; [destruct a3; [unfold K8srecorder_Event|]; emits_step|].
  emits_step.
Qed.

Lemma drainsOnly_groups cgNames log :
  forallb (drainsOnly cgNames) log = true ->
  forall cgName, In cgName (drainedGroups log) -> In cgName cgNames.
Proof.
  intros Hlog cgName Hin. unfold drainedGroups in Hin.
  apply in_flat_map in Hin as (c & Hc & Hname).
  rewrite forallb_forall in Hlog. apply Hlog in Hc.
  destruct c; try contradiction. destruct Hname as [<-|[]].
  simpl in Hc. apply existsb_exists in Hc as (n & Hn & ->%String.eqb_eq).
  exact Hn.
Qed.

(** X14. [ClearResources] lists the backends of a group, the first step of
    dropping them, only under the name of a status whose group left the
    specification: its identifier with every underscore replaced by a
    dash. *)
Theorem ClearResources_drains_only_removed_groups
    (ddc : DorisDisaggregatedCluster) (w : W) :
  replicasSet ddc ->
  exists ddc' w' log,
    ClearResources K H ddc w = Ret (true, None, ddc') w' log
    /\ forall cgName,
         In cgName (drainedGroups log) ->
         exists cgs,
           In cgs (ComputeGroupStatuses ddc)
           /\ inSpec ddc cgs = false
           /\ cgName = Go.ReplaceAll (CgsUniqueId cgs) "_" "-".
Proof.
  intros Hset. unfold ClearResources. rewrite splitStatuses_filter.
  unfold bind.
  set (cgNames := List.map clearedName (removedStatuses ddc)).
  destruct (emits_forRange (drainsOnly cgNames) (clearCG K H ddc)
              (removedStatuses ddc)
              (fun acc cgs Hin =>
                 clearCG_drainsOnly ddc acc cgs cgNames (in_map clearedName _ _ Hin))
              (keptStatuses ddc) w)
    as (eCGs & w1 & log1 & -> & Hcalls1).
  destruct (clearPVCs_emits K H ddc eCGs Hset w1) as ([] & w2 & log2 & -> & Hcalls2).
  destruct (clearPVCs_emits K H ddc (removedStatuses ddc) Hset w2)
    as ([] & w3 & log3 & -> & Hcalls3).
  do 3 eexists. split; [reflexivity|].
  intros cgName Hin.
  assert (Hreclaim : forall log, forallb reclaimCall log = true ->
                     forallb (drainsOnly cgNames) log = true).
  { intros log Hlog. rewrite forallb_forall in *. intros c Hc.
    apply Hlog in Hc. now destruct c. }
  assert (Hlog : forallb (drainsOnly cgNames) (log1 ++ log2 ++ log3 ++ []) = true).
  { rewrite !forallb_app, Hcalls1, (Hreclaim _ Hcalls2), (Hreclaim _ Hcalls3).
    reflexivity. }
  apply (drainsOnly_groups _ _ Hlog) in Hin.
  apply in_map_iff in Hin as (cgs & <- & Hin).
  apply filter_In in Hin as [Hin Hspec].
  exists cgs. split; [exact Hin|]. split; [|reflexivity].
  now apply negb_true_iff.
Qed.

End TeardownCoverage.

(** ** The validation of the specification *)

Section Validation.

Context (P : SyncHelpers).

Lemma append_nonempty_l (s t : string) : s <> EmptyString -> (s ++ t)%string <> EmptyString.
Proof. destruct s; [congruence | discriminate]. Qed.

Lemma append_nonempty_r (s t : string) : t <> EmptyString -> (s ++ t)%string <> EmptyString.
Proof. destruct s; [easy | discriminate]. Qed.

Lemma validateDuplicated_loop_nonempty cgs : forall dupl uniqueIds,
  dupl <> EmptyString ->
  fst (fold_left
         (fun '(dupl, uniqueIds) cg =>
            ((if Find P uniqueIds (UniqueId cg)
              then dupl ++ UniqueId cg ++ ";" else dupl)%string,
             Add P uniqueIds (UniqueId cg)))
         cgs (dupl, uniqueIds)) <> EmptyString.
Proof.
  induction cgs as [|cg cgs IH]; intros dupl uniqueIds Hdupl; simpl; [exact Hdupl|].
  apply IH. destruct (Find P uniqueIds (UniqueId cg)); [|exact Hdupl].
  now apply append_nonempty_l.
Qed.

Lemma validateDuplicated_loop cgs : lawfulSet P -> forall dupl uniqueIds seen,
  (forall t, Find P uniqueIds t = true <-> In t seen) ->
  List.NoDup seen ->
  fst (fold_left
         (fun '(dupl, uniqueIds) cg =>
            ((if Find P uniqueIds (UniqueId cg)
              then dupl ++ UniqueId cg ++ ";" else dupl)%string,
             Add P uniqueIds (UniqueId cg)))
         cgs (dupl, uniqueIds)) = EmptyString
  <-> dupl = EmptyString /\ List.NoDup (seen ++ groupIds cgs).
Proof.
  intros [Hnew Hadd].
  induction cgs as [|cg cgs IH]; intros dupl uniqueIds seen Hseen Hnodup; simpl.
  - rewrite app_nil_r. tauto.
  - destruct (Find P uniqueIds (UniqueId cg)) eqn:Hfound.
    + split.
      * intros Hnil. exfalso. revert Hnil. apply validateDuplicated_loop_nonempty.
        apply append_nonempty_r, append_nonempty_r. discriminate.
      * intros [_ Hno]. exfalso. apply Hseen in Hfound.
        apply List.NoDup_remove_2 in Hno. apply Hno.
        apply in_app_iff. now left.
    + rewrite (IH dupl (Add P uniqueIds (UniqueId cg)) (seen ++ [UniqueId cg])%list).
      * now rewrite <- app_assoc.
      * intros t. rewrite Hadd, orb_true_iff, String.eqb_eq, Hseen, in_app_iff.
        simpl. tauto.
      * apply List.NoDup_app; [exact Hnodup | repeat constructor; easy |].
        intros t Ht [<-|[]]. apply Hseen in Ht. congruence.
Qed.

(** The duplicates are found exactly when there are some. *)
Lemma validateDuplicated_unique cgs :
  lawfulSet P ->
  validateDuplicated P cgs = EmptyString <-> List.NoDup (groupIds cgs).
Proof.
  intros Hset. unfold validateDuplicated.
  rewrite (validateDuplicated_loop cgs Hset EmptyString (NewSetString P) []).
  - simpl. tauto.
  - intros t. destruct Hset as [Hnew _]. rewrite Hnew. simpl. split; [discriminate | easy].
  - constructor.
Qed.

(** X15. [validateDuplicated] returns the empty string exactly when no two
    groups of the specification share an identifier, for every string set
    that holds what was added to it and nothing else. *)
Theorem validateDuplicated_nil_iff_unique (cgs : list ComputeGroup) :
  lawfulSet P ->
  validateDuplicated P cgs = EmptyString <-> List.NoDup (groupIds cgs).
Proof. apply validateDuplicated_unique. Qed.

Lemma validateRegex_loop_nonempty cgs : forall regStr,
  regStr <> EmptyString ->
  fold_left
    (fun regStr cg =>
       let (res, _) := regexpMatch P (compute_group_name_regex P) (UniqueId cg) in
       if negb res
       then (regStr ++ UniqueId cg ++ " not match " ++ compute_group_name_regex P)%string
       else regStr)
    cgs regStr <> EmptyString.
Proof.
  induction cgs as [|cg cgs IH]; intros regStr Hreg; simpl; [exact Hreg|].
  apply IH. destruct (regexpMatch P _ _) as [[|] err]; simpl; [exact Hreg|].
  now apply append_nonempty_l.
Qed.

Lemma validateRegex_loop cgs :
  fold_left
    (fun regStr cg =>
       let (res, _) := regexpMatch P (compute_group_name_regex P) (UniqueId cg) in
       if negb res
       then (regStr ++ UniqueId cg ++ " not match " ++ compute_group_name_regex P)%string
       else regStr)
    cgs EmptyString = EmptyString
  <-> forallb (matchesRegex P) cgs = true.
Proof.
  induction cgs as [|cg cgs IH]; simpl; [tauto|].
  unfold matchesRegex at 1.
  destruct (regexpMatch P _ _) as [[|] err]; simpl; [exact IH|].
  split; [|discriminate].
  intros Hnil. exfalso. revert Hnil. apply validateRegex_loop_nonempty.
  apply append_nonempty_r, append_nonempty_r. discriminate.
Qed.

Lemma validateRegex_matches cgs :
  validateRegex P cgs
  = if forallb (matchesRegex P) cgs then (EmptyString, true)
    else (fst (validateRegex P cgs), false).
Proof.
  unfold validateRegex.
  pose proof (validateRegex_loop cgs) as Hloop.
  destruct (String.eqb_spec
              (fold_left
                 (fun regStr cg =>
                    let (res, _) :=
                      regexpMatch P (compute_group_name_regex P) (UniqueId cg) in
                    if negb res
                    then (regStr ++ UniqueId cg ++ " not match "
                          ++ compute_group_name_regex P)%string
                    else regStr)
                 cgs EmptyString) EmptyString) as [Heq|Hne]; simpl.
  - now rewrite (proj1 Hloop Heq).
  - destruct (forallb (matchesRegex P) cgs); [|reflexivity].
    exfalso. apply Hne, Hloop. reflexivity.
Qed.

(** X16. [validateRegex] accepts a specification exactly when the
    identifier of every group matches the pattern; it then returns the
    empty string, and otherwise a text that is not empty. An error of
    [regexp.Match] does not change the verdict. *)
Theorem validateRegex_accepts_iff_all_match (cgs : list ComputeGroup) :
  (snd (validateRegex P cgs) = true <-> forallb (matchesRegex P) cgs = true)
  /\ (fst (validateRegex P cgs) = EmptyString <-> snd (validateRegex P cgs) = true).
Proof.
  rewrite validateRegex_matches.
  destruct (forallb (matchesRegex P) cgs) eqn:Hall; simpl; [tauto|].
  split; [tauto|]. split; [|discriminate].
  unfold validateRegex.
  match goal with |- context [String.eqb ?s EmptyString] =>
    destruct (String.eqb_spec s EmptyString) as [Heq|Hne] end; simpl.
  - apply validateRegex_loop in Heq. congruence.
  - intros Heq. contradiction.
Qed.

(** X17. [validateComputeGroup] accepts a specification exactly when the
    identifiers are unique and all match the pattern, and it returns an
    event exactly when it rejects: a warning, for duplicates when there are
    some, whatever the pattern says, and else for the pattern. *)
Theorem validateComputeGroup_accepts_iff_valid (cgs : list ComputeGroup) :
  lawfulSet P ->
  (snd (validateComputeGroup P cgs) = true
   <-> List.NoDup (groupIds cgs) /\ forallb (matchesRegex P) cgs = true)
  /\ (fst (validateComputeGroup P cgs) = None
      <-> snd (validateComputeGroup P cgs) = true)
  /\ (forall ev, fst (validateComputeGroup P cgs) = Some ev ->
        SeType ev = EventWarning
        /\ (SeReason ev = CGUniqueIdentifierDuplicate
            <-> ~ List.NoDup (groupIds cgs))
        /\ (SeReason ev = CGUniqueIdentifierNotMatchRegex
            <-> List.NoDup (groupIds cgs))).
Proof.
  intros Hset. unfold validateComputeGroup.
  pose proof (validateDuplicated_unique cgs Hset) as Hdup.
  destruct (String.eqb_spec (validateDuplicated P cgs) EmptyString) as [Heq|Hne];
    simpl.
  - apply Hdup in Heq. rewrite validateRegex_matches.
    destruct (forallb (matchesRegex P) cgs); simpl.
    + split; [tauto|]. split; [tauto|]. discriminate.
    + split; [split; [discriminate | intros [_ [=]]]|].
      split; [split; discriminate|].
      intros ev [= <-]. simpl. split; [reflexivity|].
      split; [split; [discriminate | contradiction] | tauto].
  - assert (Hnot : ~ List.NoDup (groupIds cgs)) by tauto.
    split; [split; [discriminate | tauto]|].
    split; [split; discriminate|].
    intros ev [= <-]. simpl. split; [reflexivity|].
    split; [tauto | split; [discriminate | contradiction]].
Qed.

End Validation.

(** ** The synchronization of the compute groups *)

Section SyncRuns.

Context {W : Type} (K : Externals W) (H : Helpers)
  (X : SyncExternals W) (P : SyncHelpers).

Lemma feAvailable_run ddc w :
  exists got w1,
    GetEndpoints X (Namespace ddc) (GetFEServiceName P ddc) w = (got, w1)
    /\ feAvailable X P ddc w
       = SyncRet (feReady X P ddc w) w1
           [GetEndpointsCall (Namespace ddc) (GetFEServiceName P ddc) got].
Proof.
  unfold feReady, feAvailable, syncBind, syncCall.
  destruct (GetEndpoints X _ _ w) as [[e|subsets] w1]; do 2 eexists;
    (split; [reflexivity|]); reflexivity.
Qed.

(** X24. [feAvailable] never fails: it reads the Endpoints of the FE
    Service, once, and answers true exactly when the read succeeded and
    one of the subsets has an address; an error of the read, not found or
    other, is a plain false. *)
Theorem feAvailable_true_iff_address (ddc : DorisDisaggregatedCluster) (w : W) :
  exists got available w',
    feAvailable X P ddc w
    = SyncRet available w'
        [GetEndpointsCall (Namespace ddc) (GetFEServiceName P ddc) got]
    /\ (available = true <->
        exists subsets sub,
          got = inr subsets /\ In sub subsets /\ Addresses sub <> []).
Proof.
  unfold feAvailable, syncBind, syncCall.
  destruct (GetEndpoints X _ _ w) as [[e|subsets] w1]; simpl;
    do 3 eexists; (split; [reflexivity|]).
  - split; [discriminate | now intros (? & ? & [=] & _)].
  - rewrite existsb_exists. split.
    + intros (sub & Hin & Hlen). exists subsets, sub.
      split; [reflexivity|]. split; [exact Hin|].
      destruct (Addresses sub); [discriminate Hlen | discriminate].
    + intros (subsets' & sub & [= <-] & Hin & Hne). exists sub.
      split; [exact Hin|]. now destruct (Addresses sub).
Qed.

Lemma validateComputeGroup_event cgs :
  snd (validateComputeGroup P cgs) = false ->
  exists ev, validateComputeGroup P cgs = (Some ev, false).
Proof.
  unfold validateComputeGroup.
  destruct (negb (String.eqb (validateDuplicated P cgs) EmptyString));
    [eexists; reflexivity|].
  destruct (validateRegex P cgs) as [reg [|]]; simpl; [discriminate|].
  eexists; reflexivity.
Qed.

(** X18. Unless there are groups, the FE is available and the
    specification is valid, [Sync] returns with the cluster as it was, and
    all it called is the read of the Endpoints and the event recorder. It
    returns an error only for a specification that is not valid, and then
    the error of the validation. *)
Theorem Sync_guards (ddc : DorisDisaggregatedCluster) (w : W) :
  passesGuards X P ddc w = false ->
  exists err w' log,
    Sync K H X P ddc w = SyncRet (err, ddc) w' log
    /\ forallb guardCall log = true
    /\ length (syncEvents log) = 1%nat
    /\ (err = None <-> ComputeGroups ddc = [] \/ feReady X P ddc w = false)
    /\ (err <> None -> err = Some validationError).
Proof.
  unfold passesGuards, Sync.
  destruct (ComputeGroups ddc) as [|cg cgs] eqn:Hgroups; simpl.
  { intros _. unfold syncBind, K8srecorder_SyncEvent, syncCall. simpl.
    do 3 eexists. split; [reflexivity|]. repeat split; auto. congruence. }
  destruct (feAvailable_run ddc w) as (got & w1 & _ & Hrun).
  unfold syncBind at 1. rewrite Hrun.
  destruct (feReady X P ddc w); simpl.
  2:{ intros _. unfold syncBind, K8srecorder_SyncEvent, syncCall. simpl.
      do 3 eexists. split; [reflexivity|]. repeat split; auto. congruence. }
  intros Hinvalid.
  destruct (validateComputeGroup_event _ Hinvalid) as (ev & ->). simpl.
  unfold syncBind, K8srecorder_Eventf, K8srecorder_SyncEvent, syncCall. simpl.
  do 3 eexists. split; [reflexivity|].
  split; [reflexivity|]. split; [reflexivity|].
  split; [|reflexivity].
  split; [discriminate | intros [[=]|[=]]].
Qed.

Lemma statusIds_setPhaseAt cluster i phase :
  statusIds (ComputeGroupStatuses (setPhaseAt cluster i phase))
  = statusIds (ComputeGroupStatuses cluster).
Proof.
  unfold setPhaseAt, statusIds. simpl.
  generalize (ComputeGroupStatuses cluster). intros cgss. revert i.
  induction cgss as [|cgs cgss IH]; intros [|i]; simpl; try reflexivity.
  f_equal. apply IH.
Qed.

(** What a run of [computeGroupSync] that returns did. *)
Lemma computeGroupSync_run ddc i w event err ddc' w' log :
  computeGroupSync K H X P ddc i w = SyncRet (event, err, ddc') w' log ->
  exists cg cvs,
    let ddc0 :=
      set_ComputeGroups ddc (<[i := defaultReplicas cg]> (ComputeGroups ddc)) in
    let st := NewStatefulset P ddc0 (defaultReplicas cg) cvs in
    let svc := newService P ddc0 (defaultReplicas cg) cvs in
    ComputeGroups ddc !! i = Some cg
    /\ ComputeGroups ddc' = <[i := defaultReplicas cg]> (ComputeGroups ddc)
    /\ statusIds (ComputeGroupStatuses ddc')
       = (statusIds (ComputeGroupStatuses ddc)
          ++ match statusOf (UniqueId cg) (ComputeGroupStatuses ddc) with
             | Some _ => []
             | None => [UniqueId cg]
             end)%list
    /\ exists reconciled rest,
         log = Base (GetConfigValuesCall (Namespace ddc) (BE_RESOLVEKEY H)
                       (ConfigMaps cg) cvs)
               :: ReconcileServiceCall svc reconciled :: List.map Base rest
         /\ match snd reconciled with
            | Some e =>
                rest = [] /\ event = fst reconciled /\ err = Some e
                /\ initialCGStatus H ddc0 (defaultReplicas cg) = Some ddc'
            | None =>
                exists ddc1 w2 ev,
                  initialCGStatus H ddc0 (defaultReplicas cg) = Some ddc1
                  /\ reconcileStatefulset K H st ddc1 (defaultReplicas cg) w2
                     = Ret (ev, err, ddc') w' rest
                  /\ event = ofEvent <$> ev
            end.
Proof.
  unfold computeGroupSync, syncBind.
  destruct (ComputeGroups ddc !! i) as [cg|] eqn:Hcg; simpl; [|discriminate].
  fold (defaultReplicas cg).
  assert (Hmaps : ConfigMaps (defaultReplicas cg) = ConfigMaps cg)
    by (unfold defaultReplicas; now destruct (Replicas cg)).
  assert (Hid : UniqueId (defaultReplicas cg) = UniqueId cg)
    by (unfold defaultReplicas; now destruct (Replicas cg)).
  assert (Hreplicas : exists r, Replicas (defaultReplicas cg) = Some r)
    by (unfold defaultReplicas; destruct (Replicas cg) eqn:Hr; simpl; eauto).
  destruct Hreplicas as (r & Hr).
  rewrite Hmaps.
  unfold lift at 1, k8s_GetConfigValuesFromConfigMaps, call.
  destruct (GetConfigValuesFromConfigMaps K _ _ _ w) as [cvs w1]. simpl.
  set (ddc0 := set_ComputeGroups ddc (<[i := defaultReplicas cg]> (ComputeGroups ddc))).
  assert (Hinit : exists ddc1,
            initialCGStatus H ddc0 (defaultReplicas cg) = Some ddc1
            /\ ComputeGroups ddc1 = <[i := defaultReplicas cg]> (ComputeGroups ddc)
            /\ statusIds (ComputeGroupStatuses ddc1)
               = (statusIds (ComputeGroupStatuses ddc)
                  ++ match statusOf (UniqueId cg) (ComputeGroupStatuses ddc) with
                     | Some _ => []
                     | None => [UniqueId cg]
                     end)%list).
  { unfold initialCGStatus. rewrite Hr. eexists. split; [reflexivity|].
    split; [reflexivity|]. simpl.
    rewrite initialStatuses_ids by reflexivity. now rewrite Hid. }
  destruct Hinit as (ddc1 & Hinit & Hgroups1 & Hids1). rewrite Hinit. simpl.
  unfold syncCall.
  destruct (DefaultReconcileService X _ w1) as [[ev0 [e|]] w2]; simpl.
  - intros [= <- <- <- <- <-]. exists cg, cvs. cbv zeta.
    split; [reflexivity|]. split; [exact Hgroups1|]. split; [exact Hids1|].
    exists (ev0, Some e), []. split; [reflexivity|]. simpl. auto.
  - unfold lift.
    destruct (reconcileStatefulset K H _ ddc1 (defaultReplicas cg) w2)
      as [[[ev err0] ddc2] w3 rest|rest] eqn:Hrun; simpl; [|discriminate].
    intros [= <- <- <- <- <-]. exists cg, cvs. cbv zeta.
    destruct (reconcileStatefulset_run K H _ _ _ _ _ _ _ _ _ Hrun)
      as (_ & _ & Hframe & _).
    assert (Hsame : ComputeGroups ddc2 = ComputeGroups ddc1
                    /\ statusIds (ComputeGroupStatuses ddc2)
                       = statusIds (ComputeGroupStatuses ddc1)).
    { destruct Hframe as [->|(j & phase & _ & _ & ->)]; [easy|].
      split; [reflexivity | apply statusIds_setPhaseAt]. }
    destruct Hsame as [Hgroups2 Hids2].
    split; [reflexivity|]. split; [now rewrite Hgroups2|].
    split; [now rewrite Hids2|].
    exists (ev0, None), rest. split; [now rewrite app_nil_r|]. simpl.
    exists ddc1, w2, ev. auto.
Qed.

Lemma syncGroup_run ddc i w ddc' w' log :
  syncGroup K H X P ddc i w = SyncRet ddc' w' log ->
  exists cg,
    ComputeGroups ddc !! i = Some cg
    /\ ComputeGroups ddc' = <[i := defaultReplicas cg]> (ComputeGroups ddc)
    /\ statusIds (ComputeGroupStatuses ddc')
       = (statusIds (ComputeGroupStatuses ddc)
          ++ match statusOf (UniqueId cg) (ComputeGroupStatuses ddc) with
             | Some _ => []
             | None => [UniqueId cg]
             end)%list
    /\ length (reconciledServices log) = 1%nat.
Proof.
  unfold syncGroup, syncBind.
  destruct (computeGroupSync K H X P ddc i w)
    as [[[event err] ddc1] w1 log1|log1] eqn:Hrun; [|discriminate].
  destruct (computeGroupSync_run _ _ _ _ _ _ _ _ Hrun)
    as (cg & cvs & Hcg & Hgroups & Hids & reconciled & rest & -> & _).
  assert (Hservices : forall rest' : list SyncCall,
            reconciledServices rest' = [] ->
            length (reconciledServices
                      ((Base (GetConfigValuesCall (Namespace ddc) (BE_RESOLVEKEY H)
                                (ConfigMaps cg) cvs)
                        :: ReconcileServiceCall
                             (newService P
                                (set_ComputeGroups ddc
                                   (<[i := defaultReplicas cg]> (ComputeGroups ddc)))
                                (defaultReplicas cg) cvs) reconciled
                        :: List.map Base rest) ++ rest')) = 1%nat).
  { intros rest' Hrest'. unfold reconciledServices in *. simpl.
    rewrite flat_map_app, Hrest', app_nil_r.
    clear. induction rest as [|c rest IH]; simpl; [reflexivity | exact IH]. }
  destruct err as [e|], event as [ev|]; simpl;
    unfold syncRet, K8srecorder_SyncEvent, syncCall; simpl;
    intros [= <- <- <-]; exists cg;
    (split; [exact Hcg|]); (split; [exact Hgroups|]); (split; [exact Hids|]);
    now apply Hservices.
Qed.

(** The loop of [Sync] over the groups from index [k] on. *)
Lemma syncGroups_run n : forall k ddc w ddc' w' log,
  syncForRange (syncGroup K H X P) (seq k n) ddc w = SyncRet ddc' w' log ->
  length (ComputeGroups ddc') = length (ComputeGroups ddc)
  /\ (forall j,
        ComputeGroups ddc' !! j
        = if decide (k <= j < k + n)%nat
          then defaultReplicas <$> ComputeGroups ddc !! j
          else ComputeGroups ddc !! j)
  /\ incl (statusIds (ComputeGroupStatuses ddc)) (statusIds (ComputeGroupStatuses ddc'))
  /\ (forall j cg,
        (k <= j < k + n)%nat -> ComputeGroups ddc !! j = Some cg ->
        In (UniqueId cg) (statusIds (ComputeGroupStatuses ddc')))
  /\ length (reconciledServices log) = n.
Proof.
  induction n as [|n IH]; intros k ddc w ddc' w' log; simpl.
  - intros [= <- <- <-]. split; [reflexivity|].
    split; [intros j; destruct (decide _); [lia | reflexivity]|].
    split; [apply incl_refl|]. split; [lia | reflexivity].
  - unfold syncBind.
    destruct (syncGroup K H X P ddc k w) as [ddc1 w1 log1|log1] eqn:Hstep;
      [|discriminate].
    destruct (syncForRange (syncGroup K H X P) (seq (S k) n) ddc1 w1)
      as [ddc2 w2 log2|log2] eqn:Hrest; [|discriminate].
    intros [= <- <- <-].
    destruct (syncGroup_run _ _ _ _ _ _ Hstep) as (cg & Hcg & Hgroups & Hids & Hone).
    destruct (IH _ _ _ _ _ _ Hrest) as (Hlen & Hlookup & Hincl & Hstatus & Hn).
    assert (Hk : (k < length (ComputeGroups ddc))%nat)
      by (eapply lookup_lt_Some; exact Hcg).
    assert (Hincl1 : incl (statusIds (ComputeGroupStatuses ddc))
                       (statusIds (ComputeGroupStatuses ddc1))).
    { rewrite Hids. apply incl_appl, incl_refl. }
    assert (Hin1 : In (UniqueId cg) (statusIds (ComputeGroupStatuses ddc1))).
    { rewrite Hids. apply in_app_iff.
      destruct (statusOf (UniqueId cg) (ComputeGroupStatuses ddc)) eqn:Hfind.
      - left. eapply statusOf_In. exact Hfind.
      - right. now left. }
    split; [now rewrite Hlen, Hgroups, length_insert|].
    split.
    { intros j. rewrite Hlookup, Hgroups.
      destruct (decide (j = k)) as [->|Hjk].
      - rewrite list_lookup_insert_eq by exact Hk.
        destruct (decide (S k <= k < S k + n)%nat); [lia|].
        destruct (decide (k <= k < k + S n)%nat); [|lia].
        now rewrite Hcg.
      - rewrite list_lookup_insert_ne by congruence.
        destruct (decide (S k <= j < S k + n)%nat);
          destruct (decide (k <= j < k + S n)%nat); try reflexivity; lia. }
    split; [eapply incl_tran; eassumption|].
    split.
    { intros j cg' Hj Hcg'.
      destruct (decide (j = k)) as [->|Hjk].
      - rewrite Hcg in Hcg'. injection Hcg' as <-. now apply Hincl.
      - apply (Hstatus j); [lia|].
        rewrite Hgroups, list_lookup_insert_ne by congruence. exact Hcg'. }
    unfold reconciledServices in *. rewrite flat_map_app, length_app. lia.
Qed.

Lemma defaultReplicas_set cg : Replicas (defaultReplicas cg) <> None.
Proof. unfold defaultReplicas. destruct (Replicas cg) eqn:Hr; simpl; congruence. Qed.

Lemma defaultReplicas_id cg : UniqueId (defaultReplicas cg) = UniqueId cg.
Proof. unfold defaultReplicas. now destruct (Replicas cg). Qed.

(** What a run of [Sync] that passed its guards and returned did. *)
Lemma Sync_run ddc w err ddc' w' log :
  passesGuards X P ddc w = true ->
  Sync K H X P ddc w = SyncRet (err, ddc') w' log ->
  err = None
  /\ ComputeGroups ddc' = List.map defaultReplicas (ComputeGroups ddc)
  /\ incl (statusIds (ComputeGroupStatuses ddc)) (statusIds (ComputeGroupStatuses ddc'))
  /\ (forall cg, In cg (ComputeGroups ddc) ->
        In (UniqueId cg) (statusIds (ComputeGroupStatuses ddc')))
  /\ length (reconciledServices log) = length (ComputeGroups ddc).
Proof.
  unfold passesGuards, Sync.
  intros [[Hne Hready]%andb_true_iff Hvalid]%andb_true_iff.
  apply negb_true_iff in Hne. rewrite Hne.
  destruct (feAvailable_run ddc w) as (got & w1 & _ & Hrun).
  unfold syncBind at 1. rewrite Hrun, Hready. simpl.
  destruct (validateComputeGroup P (ComputeGroups ddc)) as [event res].
  simpl in Hvalid. subst res. simpl.
  unfold syncBind.
  destruct (syncForRange _ _ ddc w1) as [ddc2 w2 log2|log2] eqn:Hloop;
    [|discriminate].
  simpl. intros [= <- <- <- <-].
  destruct (syncGroups_run _ _ _ _ _ _ _ Hloop)
    as (Hlen & Hlookup & Hincl & Hstatus & Hn).
  split; [reflexivity|].
  split.
  { apply list_eq. intros j. rewrite Hlookup, list_lookup_fmap.
    destruct (decide _) as [|Hout]; [reflexivity|].
    rewrite lookup_ge_None_2 by lia. reflexivity. }
  split; [exact Hincl|].
  split.
  { intros cg Hin. apply list_elem_of_In, list_elem_of_lookup in Hin as (j & Hj).
    apply (Hstatus j); [|exact Hj].
    apply lookup_lt_Some in Hj. lia. }
  unfold reconciledServices in *. simpl. rewrite app_nil_r. exact Hn.
Qed.

(** X19. When [Sync] passed its guards and returns, it returns nil,
    whatever happened to the groups, and it leaves a cluster in which every
    group has a replica count, one where it had none, and a status; the
    groups are otherwise as they were, and no status is lost. So the
    replica counts storage reclamation dereferences are there. *)
Theorem Sync_sets_replicas_and_statuses
    (ddc ddc' : DorisDisaggregatedCluster) (w w' : W) (err : option Error)
    (log : list SyncCall) :
  passesGuards X P ddc w = true ->
  Sync K H X P ddc w = SyncRet (err, ddc') w' log ->
  err = None
  /\ ComputeGroups ddc' = List.map defaultReplicas (ComputeGroups ddc)
  /\ replicasSet ddc'
  /\ (forall cg, In cg (ComputeGroups ddc') ->
        is_Some (statusOf (UniqueId cg) (ComputeGroupStatuses ddc')))
  /\ (forall uniqueId,
        is_Some (statusOf uniqueId (ComputeGroupStatuses ddc)) ->
        is_Some (statusOf uniqueId (ComputeGroupStatuses ddc'))).
Proof.
  intros Hgates Hrun.
  destruct (Sync_run _ _ _ _ _ _ Hgates Hrun) as (Herr & Hgroups & Hincl & Hstatus & _).
  assert (Hsome : forall uniqueId cgss,
            In uniqueId (statusIds cgss) -> is_Some (statusOf uniqueId cgss)).
  { intros uniqueId cgss Hin.
    destruct (statusOf uniqueId cgss) eqn:Hfind; [eauto|].
    now apply statusOf_None in Hfind. }
  split; [exact Herr|]. split; [exact Hgroups|].
  split.
  { intros cg. rewrite Hgroups. intros (cg0 & <- & _)%in_map_iff.
    apply defaultReplicas_set. }
  split.
  { intros cg. rewrite Hgroups. intros (cg0 & <- & Hin)%in_map_iff.
    rewrite defaultReplicas_id. apply Hsome. now apply Hstatus. }
  intros uniqueId [cgs Hfind]. apply Hsome, Hincl.
  eapply statusOf_In. exact Hfind.
Qed.

(** X20. A group that fails does not stop the others: when [Sync] went
    past its guards and returns, it reconciled one Service for each group
    of the specification. *)
Theorem Sync_attempts_every_group
    (ddc ddc' : DorisDisaggregatedCluster) (w w' : W) (err : option Error)
    (log : list SyncCall) :
  passesGuards X P ddc w = true ->
  Sync K H X P ddc w = SyncRet (err, ddc') w' log ->
  length (reconciledServices log) = length (ComputeGroups ddc).
Proof.
  intros Hgates Hrun. now destruct (Sync_run _ _ _ _ _ _ Hgates Hrun) as (_ & _ & _ & _ & ?).
Qed.

Lemma baseCalls_Base (log : list Call) : baseCalls (List.map Base log) = log.
Proof.
  unfold baseCalls. induction log as [|c log IH]; simpl; [reflexivity|].
  now rewrite IH.
Qed.

(** X21. [computeGroupSync] reconciles the Service first. When that fails
    it returns the event and the error of the Service and reads or writes
    nothing of the StatefulSet: its only other call is the read of the
    configuration. The replica count is defaulted and the status
    initialized all the same. When the Service is reconciled, the error
    is the one [reconcileStatefulset] returns. *)
Theorem computeGroupSync_service_first
    (ddc ddc' : DorisDisaggregatedCluster) (i : nat) (w w' : W)
    (event : option SyncEvent) (err : option Error) (log : list SyncCall) :
  computeGroupSync K H X P ddc i w = SyncRet (event, err, ddc') w' log ->
  exists cg svc reconciled,
    ComputeGroups ddc !! i = Some cg
    /\ reconciledServices log = [svc]
    /\ In (ReconcileServiceCall svc reconciled) log
    /\ is_Some (statusOf (UniqueId cg) (ComputeGroupStatuses ddc'))
    /\ ComputeGroups ddc' !! i = Some (defaultReplicas cg)
    /\ match snd reconciled with
       | Some e =>
           err = Some e /\ event = fst reconciled
           /\ exists cvs,
                baseCalls log
                = [GetConfigValuesCall (Namespace ddc) (BE_RESOLVEKEY H)
                     (ConfigMaps cg) cvs]
       | None =>
           exists st ddc1 w2 ev rest,
             reconcileStatefulset K H st ddc1 (defaultReplicas cg) w2
             = Ret (ev, err, ddc') w' rest
             /\ event = ofEvent <$> ev
       end.
Proof.
  intros Hrun.
  destruct (computeGroupSync_run _ _ _ _ _ _ _ _ Hrun)
    as (cg & cvs & Hcg & Hgroups & Hids & reconciled & rest & -> & Hrest).
  cbv zeta in Hrest.
  exists cg. do 2 eexists. split; [exact Hcg|].
  split.
  { unfold reconciledServices. simpl. f_equal.
    clear. induction rest as [|c rest IH]; simpl; [reflexivity | exact IH]. }
  split; [right; left; reflexivity|].
  split.
  { destruct (statusOf (UniqueId cg) (ComputeGroupStatuses ddc')) eqn:Hfind; [eauto|].
    exfalso. apply statusOf_None in Hfind. apply Hfind. rewrite Hids.
    apply in_app_iff.
    destruct (statusOf (UniqueId cg) (ComputeGroupStatuses ddc)) eqn:Hold.
    - left. eapply statusOf_In. exact Hold.
    - right. now left. }
  split.
  { rewrite Hgroups. apply list_lookup_insert_eq. eapply lookup_lt_Some. exact Hcg. }
  destruct (snd reconciled) as [e|].
  - destruct Hrest as (-> & -> & -> & _). split; [reflexivity|].
    split; [reflexivity|]. exists cvs. reflexivity.
  - destruct Hrest as (ddc1 & w2 & ev & _ & Hst & ->).
    do 5 eexists. split; [exact Hst | reflexivity].
Qed.

Lemma classifyPods_available (items : list PodStatus) : forall a c f,
  0 <= a ->
  a + Z.of_nat (length items) < 2 ^ 31 ->
  fst (fst (fold_left
              (fun '(availableReplicas, creatingReplicas, failedReplicas) pod =>
                 if PodIsReady P pod
                 then (Go.wrap32 (availableReplicas + 1), creatingReplicas,
                       failedReplicas)
                 else if String.eqb (PsPhase pod) PodRunning
                         || String.eqb (PsPhase pod) PodPending
                 then (availableReplicas, Go.wrap32 (creatingReplicas + 1),
                       failedReplicas)
                 else (availableReplicas, creatingReplicas,
                       Go.wrap32 (failedReplicas + 1)))
              items (a, c, f)))
  = a + Z.of_nat (length (readyPods P items)).
Proof.
  unfold readyPods.
  induction items as [|pod items IH]; intros a c f Ha Hbound; simpl; [lia|].
  simpl in Hbound.
  destruct (PodIsReady P pod); simpl.
  - rewrite wrap32_small by (unfold Go.in_int32; lia).
    rewrite IH by lia. lia.
  - destruct (String.eqb (PsPhase pod) PodRunning || String.eqb (PsPhase pod) PodPending);
      rewrite IH by lia; reflexivity.
Qed.

(** X22. [updateCGStatus] lists the pods of the group once. When the
    listing fails it returns the error and leaves the status as it is.
    Otherwise it returns nil and writes the number of ready pods as the
    available replicas (for fewer than 2^31 pods); the phase becomes
    [Ready] when that number is the replica count of the status and else
    stays what it was, so a group that is [Ready] stays [Ready]; nothing
    else of the status changes. *)
Theorem updateCGStatus_counts_ready_pods
    (ddc : DorisDisaggregatedCluster) (cgs : ComputeGroupStatus) (w : W) :
  exists listed err cgs' w',
    updateCGStatus H X P ddc cgs w
    = SyncRet (err, cgs') w'
        [ListPodsCall (Namespace ddc)
           (newCGPodsSelector H (Name ddc) (CgsUniqueId cgs)) listed]
    /\ match listed with
       | inl failure => err = Some failure /\ cgs' = cgs
       | inr items =>
           err = None
           /\ (Z.of_nat (length items) < 2 ^ 31 ->
               CgsAvailableReplicas cgs' = Z.of_nat (length (readyPods P items)))
           /\ CgsPhase cgs'
              = (if CgsAvailableReplicas cgs' =? CgsReplicas cgs
                 then Ready else CgsPhase cgs)
           /\ (CgsPhase cgs = Ready -> CgsPhase cgs' = Ready)
           /\ set_Phase (set_AvailableReplicas cgs' 0) Ready
              = set_Phase (set_AvailableReplicas cgs 0) Ready
       end.
Proof.
  unfold updateCGStatus, syncBind, syncCall.
  destruct (ListPods X _ _ w) as [[failure|items] w1]; simpl.
  { do 4 eexists. split; [reflexivity|]. split; reflexivity. }
  pose proof (classifyPods_available items 0 0 0) as Hcount.
  fold (classifyPods P items) in Hcount.
  destruct (classifyPods P items) as [[available creating] failed].
  simpl in Hcount. simpl.
  do 4 eexists. split; [reflexivity|]. split; [reflexivity|].
  destruct (available =? CgsReplicas cgs) eqn:Heq; simpl; rewrite ?Heq;
    (split; [intros Hbound; apply Hcount; lia|]);
    (split; [reflexivity|]); (split; [auto|]); reflexivity.
Qed.

End SyncRuns.

(** ** The ordinal of a pod *)

Lemma digitsValue_mono d : forall acc, 0 <= acc -> acc <= digitsValue d acc.
Proof.
  induction d as [|d IH|d IH|d IH|d IH|d IH|d IH|d IH|d IH|d IH|d IH];
    intros acc Hacc; simpl; [lia|..];
    (etransitivity; [|apply IH]; lia).
Qed.

(** One digit of [parseUint], read within the bounds. *)
Ltac parse_digit d IH Hmax :=
  match goal with
  | |- context [Z.of_nat (nat_of_ascii ?c) - 48] =>
      let v := eval vm_compute in (Z.of_nat (nat_of_ascii c) - 48) in
      change (Z.of_nat (nat_of_ascii c) - 48) with v
  end;
  simpl in Hmax;
  match type of Hmax with
  | digitsValue d ?acc' <= _ =>
      pose proof (digitsValue_mono d acc' ltac:(lia)) as Hmono
  end;
  unfold Go.maxUint64 in *;
  change (2 ^ 64 - 1) with 18446744073709551615 in *;
  change (18446744073709551615 / 10 + 1) with 1844674407370955162;
  match goal with
  | |- context [?acc >=? 1844674407370955162] =>
      destruct (Z.geb_spec acc 1844674407370955162) as [Hbig|_]; [exfalso; lia|]
  end;
  match goal with
  | |- context [?n1 >? 18446744073709551615] =>
      destruct (Z.gtb_spec n1 18446744073709551615) as [Hover|_]; [exfalso; lia|]
  end;
  match goal with
  | |- Go.parseUint _ ?a = inr (digitsValue _ ?b) => replace a with b by lia
  end;
  apply IH; lia.

Lemma parseUint_digits d : forall acc,
  0 <= acc -> digitsValue d acc <= Go.maxUint64 ->
  Go.parseUint (NilEmpty.string_of_uint d) acc = inr (digitsValue d acc).
Proof.
  induction d as [|d IH|d IH|d IH|d IH|d IH|d IH|d IH|d IH|d IH|d IH];
    intros acc Hacc Hmax; simpl; [reflexivity|..]; parse_digit d IH Hmax.
Qed.

Lemma digitsValue_pos d : forall acc,
  digitsValue d (Z.pos acc) = Z.pos (Pos.of_uint_acc d acc).
Proof.
  induction d as [|d IH|d IH|d IH|d IH|d IH|d IH|d IH|d IH|d IH|d IH];
    intros acc; simpl; [reflexivity|..];
    rewrite <- IH; f_equal; lia.
Qed.

Lemma digitsValue_zero d : digitsValue d 0 = Z.of_N (Pos.of_uint d).
Proof.
  induction d as [|d IH|d IH|d IH|d IH|d IH|d IH|d IH|d IH|d IH|d IH];
    simpl; [reflexivity | exact IH |..]; apply digitsValue_pos.
Qed.

(** The digits of a number hold no other byte. *)
Lemma digits_contain_no c d :
  Go.digit c = None -> contains c (NilEmpty.string_of_uint d) = false.
Proof.
  intros Hc.
  induction d as [|d IH|d IH|d IH|d IH|d IH|d IH|d IH|d IH|d IH|d IH];
    cbn [NilEmpty.string_of_uint contains]; [reflexivity|..];
    rewrite IH, orb_false_r;
    match goal with
    | |- Ascii.eqb ?k c = false =>
        destruct (Ascii.eqb_spec k c) as [<-|]; [discriminate Hc | reflexivity]
    end.
Qed.

Lemma Itoa_positive p :
  Go.Itoa (Z.pos p) = NilEmpty.string_of_uint (Pos.to_uint p).
Proof.
  unfold Go.Itoa. simpl.
  pose proof (DecimalPos.Unsigned.to_uint_nonnil p) as Hnil.
  now destruct (Pos.to_uint p).
Qed.

Lemma Itoa_contains_no c n :
  0 <= n -> Go.digit c = None -> contains c (Go.Itoa n) = false.
Proof.
  intros Hn Hc. destruct n as [|p|p]; [|rewrite Itoa_positive; now apply digits_contain_no|lia].
  change (Go.Itoa 0) with "0". cbn [contains]. rewrite orb_false_r.
  destruct (Ascii.eqb_spec "0"%char c) as [<-|]; [discriminate Hc | reflexivity].
Qed.

(** [Atoi] reads back what [Itoa] writes. *)
Lemma Atoi_Itoa n : 0 <= n < 2 ^ 63 -> Go.Atoi (Go.Itoa n) = inr n.
Proof.
  intros [Hn Hmax]. destruct n as [|p|p]; [reflexivity| |lia].
  rewrite Itoa_positive.
  pose proof (parseUint_digits (Pos.to_uint p) 0 ltac:(lia)) as Hparse.
  rewrite digitsValue_zero, DecimalPos.Unsigned.of_to in Hparse. simpl Z.of_N in Hparse.
  specialize (Hparse ltac:(unfold Go.maxUint64; lia)).
  pose proof (digits_contain_no "-" (Pos.to_uint p) eq_refl) as Hminus.
  pose proof (digits_contain_no "+" (Pos.to_uint p) eq_refl) as Hplus.
  pose proof (DecimalPos.Unsigned.to_uint_nonnil p) as Hnil.
  destruct (NilEmpty.string_of_uint (Pos.to_uint p)) as [|s0 rest] eqn:Hs.
  { destruct (Pos.to_uint p); try discriminate Hs. contradiction. }
  unfold Go.Atoi. simpl in Hminus, Hplus.
  apply orb_false_iff in Hminus as [Hminus _], Hplus as [Hplus _].
  rewrite Hminus, Hplus. cbn [orb negb andb]. rewrite Hparse.
  destruct (Z.geb_spec (Z.pos p) (2 ^ 63)) as [Hbig|_]; [lia | reflexivity].
Qed.

Lemma Split_without sep s : contains sep s = false -> Go.Split sep s = [s].
Proof.
  induction s as [|c s IH]; simpl; [reflexivity|].
  intros [Hc Hs]%orb_false_iff. rewrite Hc, (IH Hs). reflexivity.
Qed.

Lemma Split_first sep s rest :
  contains sep s = false ->
  List.hd EmptyString (Go.Split sep (s ++ String sep rest)) = s.
Proof.
  induction s as [|c s IH]; simpl.
  - intros _. now rewrite Ascii.eqb_refl.
  - intros [Hc Hs]%orb_false_iff. rewrite Hc. specialize (IH Hs).
    destruct (Go.Split sep (s ++ String sep rest)) as [|piece pieces]; simpl in *;
      now rewrite IH.
Qed.

Lemma Split_last sep s piece :
  contains sep piece = false ->
  exists init, Go.Split sep (s ++ String sep piece) = (init ++ [piece])%list
               /\ init <> [].
Proof.
  intros Hpiece. induction s as [|c s IH]; simpl.
  - rewrite Ascii.eqb_refl, (Split_without _ _ Hpiece).
    exists [EmptyString]. split; [reflexivity | discriminate].
  - destruct IH as (init & -> & Hinit).
    destruct (Ascii.eqb c sep).
    + exists (EmptyString :: init). split; [reflexivity | discriminate].
    + destruct init as [|first init]; [contradiction|]. simpl.
      exists (String c first :: init). split; [reflexivity | discriminate].
Qed.

Lemma append_assoc (s t u : string) : ((s ++ t) ++ u = s ++ t ++ u)%string.
Proof.
  induction s as [|c s IH]; [reflexivity|].
  change (String c ((s ++ t) ++ u) = String c (s ++ t ++ u))%string.
  now rewrite IH.
Qed.

Lemma contains_app c s t :
  contains c (s ++ t) = contains c s || contains c t.
Proof.
  induction s as [|c' s IH]; simpl; [reflexivity|].
  now rewrite IH, orb_assoc.
Qed.

Lemma podNum_podHost (stsName domain : string) (n : Z) :
  0 <= n < 2 ^ 63 ->
  contains "." stsName = false ->
  podNum (podHost stsName n domain) = inr n.
Proof.
  intros Hn Hdot. unfold podNum, podHost.
  replace (stsName ++ "-" ++ Go.Itoa n ++ "." ++ domain)%string
    with ((stsName ++ "-" ++ Go.Itoa n) ++ String "." domain)%string
    by (now rewrite !append_assoc).
  rewrite Split_first.
  2:{ rewrite contains_app, Hdot. simpl.
      apply Itoa_contains_no; [lia | reflexivity]. }
  destruct (Split_last "-" stsName (Go.Itoa n)) as (init & Hsplit & Hinit).
  { apply Itoa_contains_no; [lia | reflexivity]. }
  change (stsName ++ "-" ++ Go.Itoa n)%string
    with (stsName ++ String "-" (Go.Itoa n))%string.
  rewrite Hsplit, last_last, Atoi_Itoa by exact Hn. reflexivity.
Qed.

(** X23. The ordinal the drain reads from a host is the ordinal of the
    pod: for a StatefulSet whose name holds no dot, the host of its pod of
    ordinal [n], [stsName-n.domain], parses to [n]; so a backend on that
    host is selected for removal exactly when [n] is at least the keep
    amount. *)
Theorem podNum_reads_the_ordinal (stsName domain : string) (n : Z) :
  0 <= n < 2 ^ 63 ->
  contains "." stsName = false ->
  podNum (podHost stsName n domain) = inr n
  /\ forall id cgKeepAmount,
       ordinalAtLeast cgKeepAmount
         {| BackendID := id; Host := podHost stsName n domain |}
       = (cgKeepAmount <=? n).
Proof.
  intros Hn Hdot. split; [now apply podNum_podHost|].
  intros id cgKeepAmount. unfold ordinalAtLeast. simpl.
  now rewrite podNum_podHost.
Qed.

(** ** Further runs on the scripted worlds *)

Section MoreRuns.

Import Scripted ScriptedSync.


(** The tier shrinks from five replicas to three. *)
Lemma prepareStatefulsetApply_drains_on_shrink_witness :
  GetStatefulSet (world (byName [observer "3"; observer "4"])) "doris"
    (GenerateComponentStatefulSetName names (metadataTier 3 3)) tt
  = (Found (feSet 5), tt)
  /\ StReplicas (feSet 5) = Some 5
  /\ desiredFeReplicas names (metadataTier 3 3) < 5
  /\ Go.in_int32 (desiredFeReplicas names (metadataTier 3 3) - 5)
  /\ exists w2 err w' before drainLog,
       dropObserverBySqlClient (world (byName [observer "3"; observer "4"])) names
         (set_FeReplicas (metadataTier 3 3)
            (Some (desiredFeReplicas names (metadataTier 3 3)))) w2
       = Ret err w' drainLog
       /\ prepareStatefulsetApply (world (byName [observer "3"; observer "4"])) names
            (metadataTier 3 3) tt
          = Ret (err, set_FeReplicas (metadataTier 3 3)
                        (Some (desiredFeReplicas names (metadataTier 3 3))))
              w' (before ++ drainLog)%list
       /\ noDrain before.
Proof.
  split; [reflexivity|]. split; [reflexivity|].
  split; [reflexivity|].
  split; [vm_compute; split; [discriminate | reflexivity]|].
  apply (prepareStatefulsetApply_drains_on_shrink
           (world (byName [observer "3"; observer "4"])) names
           (metadataTier 3 3) (feSet 5) 5 tt tt).
  - reflexivity.
  - reflexivity.
  - reflexivity.
  - vm_compute. split; [discriminate | reflexivity].
Defined.

(** The leader does not answer the scale-down of [cg1]. *)
Lemma reconcileStatefulset_outcome_witness :
  exists event err cluster' log,
    reconcileStatefulset (world (running 5 (Some refused) fiveBackends)) names
      (cg1Set 3) (ddc [group 3] [status Reconciling "cg1" 5]) (group 3) tt
    = Ret (event, err, cluster') tt log
    /\ (forall ev, event = Some ev ->
          exists e, err = Some e /\ Type_ ev = EventWarning
                    /\ Message ev = ErrorText e).
Proof.
  do 4 eexists.
  refine ((fun Hrun =>
             conj Hrun
               (proj1 (proj2 (reconcileStatefulset_outcome
                                (world (running 5 (Some refused) fiveBackends)) names
                                _ _ _ _ _ _ _ _ _ Hrun)))) _).
  vm_compute. reflexivity.
Defined.

Lemma initialCGStatus_keeps_the_others_witness :
  Replicas (group 3) = Some 3
  /\ exists ddc',
       initialCGStatus names (ddc [group 3] [status Ready "cg0" 1]) (group 3)
       = Some ddc'
       /\ statusIds (ComputeGroupStatuses ddc') = ["cg0"; "cg1"].
Proof.
  split; [reflexivity|].
  destruct (initialCGStatus_keeps_the_others names
              (ddc [group 3] [status Ready "cg0" 1]) (group 3) 3 eq_refl)
    as (ddc' & Hrun & _ & _ & Hids & _).
  exists ddc'. split; [exact Hrun | exact Hids].
Defined.

Lemma initialCGStatus_refreshes_the_status_witness :
  Replicas (group 3) = Some 3
  /\ exists ddc' cgs,
       initialCGStatus names (ddc [group 3] [status Ready "cg1" 5]) (group 3)
       = Some ddc'
       /\ statusOf "cg1" (ComputeGroupStatuses ddc') = Some cgs
       /\ CgsReplicas cgs = 3
       /\ CgsAvailableReplicas cgs = 0.
Proof.
  split; [reflexivity|].
  destruct (initialCGStatus_refreshes_the_status names
              (ddc [group 3] [status Ready "cg1" 5]) (group 3) 3 eq_refl)
    as (ddc' & cgs & Hrun & Hfind & _ & Hreplicas & _ & _ & Havailable & _).
  exists ddc', cgs. auto.
Defined.

(** The volumes of [cg1] cannot be listed. *)
Lemma ClearStatefulsetUnusedPVCs_reports_witness :
  exists err log,
    ClearStatefulsetUnusedPVCs (world volumesUnavailable) names
      (ddc [group 2] [status Ready "cg1" 2]) (status Ready "cg1" 2) tt
    = Ret err tt log
    /\ exists listed rest,
         log = ListPVCCall "doris" (newCGPodsSelector names "ddc" "cg1") listed :: rest
         /\ listedSelectors rest = [].
Proof.
  do 2 eexists.
  refine ((fun Hrun =>
             conj Hrun
               (match ClearStatefulsetUnusedPVCs_reports
                        (world volumesUnavailable) names _ _ _ _ _ _ Hrun with
                | ex_intro _ listed (ex_intro _ rest (conj Hlog (conj Hrest _))) =>
                    ex_intro _ listed (ex_intro _ rest (conj Hlog Hrest))
                end)) _).
  vm_compute. reflexivity.
Defined.


Lemma ClearResources_reclaims_every_status_witness :
  replicasSet afterRemoval
  /\ exists ddc' w' log,
       ClearResources (world leftBehind) names afterRemoval tt
       = Ret (true, None, ddc') w' log
       /\ listedSelectors log
          = List.map (selectorOf names afterRemoval)
              (ComputeGroupStatuses ddc' ++ removedStatuses afterRemoval).
Proof.
  split; [exact replicasSet_afterRemoval|].
  destruct (ClearResources_reclaims_every_status (world leftBehind) names
              afterRemoval tt replicasSet_afterRemoval)
    as (ddc' & w' & log & Hrun & Hlisted & _).
  exists ddc', w', log. split; [exact Hrun | exact Hlisted].
Defined.

Lemma replicasSet_cg1 : replicasSet (ddc [group 3] [status Ready "cg1" 3]).
Proof. intros cg [<-|[]]. discriminate. Defined.

Lemma ClearResources_without_removals_witness :
  replicasSet (ddc [group 3] [status Ready "cg1" 3])
  /\ forallb (inSpec (ddc [group 3] [status Ready "cg1" 3]))
       (ComputeGroupStatuses (ddc [group 3] [status Ready "cg1" 3])) = true
  /\ exists w' log,
       ClearResources (world leftBehind) names
         (ddc [group 3] [status Ready "cg1" 3]) tt
       = Ret (true, None, ddc [group 3] [status Ready "cg1" 3]) w' log
       /\ forallb reclaimCall log = true
       /\ List.filter teardownCall log = []
       /\ noDrain log.
Proof.
  split; [exact replicasSet_cg1|]. split; [reflexivity|].
  apply (ClearResources_without_removals (world leftBehind) names
           (ddc [group 3] [status Ready "cg1" 3]) tt replicasSet_cg1).
  reflexivity.
Defined.

Lemma ClearResources_drains_only_removed_groups_witness :
  replicasSet afterRemoval
  /\ exists ddc' w' log,
       ClearResources (world leftBehind) names afterRemoval tt
       = Ret (true, None, ddc') w' log
       /\ forall cgName,
            In cgName (drainedGroups log) ->
            exists cgs,
              In cgs (ComputeGroupStatuses afterRemoval)
              /\ inSpec afterRemoval cgs = false
              /\ cgName = Go.ReplaceAll (CgsUniqueId cgs) "_" "-".
Proof.
  split; [exact replicasSet_afterRemoval|].
  apply (ClearResources_drains_only_removed_groups (world leftBehind) names
           afterRemoval tt replicasSet_afterRemoval).
Defined.

Lemma lawfulSet_syncNames : lawfulSet syncNames.
Proof. split; intros; reflexivity. Defined.

Lemma validateDuplicated_nil_iff_unique_witness :
  lawfulSet syncNames
  /\ (validateDuplicated syncNames [group 3; group 2] = EmptyString
      <-> List.NoDup (groupIds [group 3; group 2])).
Proof.
  split; [exact lawfulSet_syncNames|].
  apply (validateDuplicated_nil_iff_unique syncNames [group 3; group 2]
           lawfulSet_syncNames).
Defined.

Lemma validateComputeGroup_accepts_iff_valid_witness :
  lawfulSet syncNames
  /\ (snd (validateComputeGroup syncNames (ComputeGroups twoGroups)) = true
      <-> List.NoDup (groupIds (ComputeGroups twoGroups))
          /\ forallb (matchesRegex syncNames) (ComputeGroups twoGroups) = true).
Proof.
  split; [exact lawfulSet_syncNames|].
  apply (validateComputeGroup_accepts_iff_valid syncNames (ComputeGroups twoGroups)
           lawfulSet_syncNames).
Defined.

(** The specification names [cg1] twice. *)
Lemma Sync_guards_witness :
  passesGuards (syncWorld (answers feUp serviceOk)) syncNames duplicated tt = false
  /\ exists err w' log,
       Sync (world (running 3 None [])) names (syncWorld (answers feUp serviceOk))
         syncNames duplicated tt
       = SyncRet (err, duplicated) w' log
       /\ forallb guardCall log = true
       /\ length (syncEvents log) = 1%nat
       /\ (err = None <->
           ComputeGroups duplicated = []
           \/ feReady (syncWorld (answers feUp serviceOk)) syncNames duplicated tt
              = false)
       /\ (err <> None -> err = Some validationError).
Proof.
  split; [reflexivity|].
  apply (Sync_guards (world (running 3 None [])) names
           (syncWorld (answers feUp serviceOk)) syncNames duplicated tt).
  reflexivity.
Defined.

(** The Services of both groups cannot be reconciled. *)
Lemma Sync_sets_replicas_and_statuses_witness :
  passesGuards (syncWorld (answers feUp serviceFails)) syncNames twoGroups tt = true
  /\ exists err ddc' log,
       Sync (world (running 3 None [])) names (syncWorld (answers feUp serviceFails))
         syncNames twoGroups tt
       = SyncRet (err, ddc') tt log
       /\ err = None
       /\ ComputeGroups ddc' = List.map defaultReplicas (ComputeGroups twoGroups)
       /\ replicasSet ddc'.
Proof.
  split; [reflexivity|].
  do 3 eexists.
  refine ((fun Hrun =>
             conj Hrun
               (match Sync_sets_replicas_and_statuses
                        (world (running 3 None [])) names
                        (syncWorld (answers feUp serviceFails)) syncNames
                        twoGroups _ tt _ _ _ eq_refl Hrun with
                | conj Herr (conj Hgroups (conj Hset _)) =>
                    conj Herr (conj Hgroups Hset)
                end)) _).
  vm_compute. reflexivity.
Defined.

Lemma Sync_attempts_every_group_witness :
  passesGuards (syncWorld (answers feUp serviceFails)) syncNames twoGroups tt = true
  /\ exists err ddc' log,
       Sync (world (running 3 None [])) names (syncWorld (answers feUp serviceFails))
         syncNames twoGroups tt
       = SyncRet (err, ddc') tt log
       /\ length (reconciledServices log) = 2%nat.
Proof.
  split; [reflexivity|].
  do 3 eexists.
  refine ((fun Hrun =>
             conj Hrun
               (Sync_attempts_every_group
                  (world (running 3 None [])) names
                  (syncWorld (answers feUp serviceFails)) syncNames
                  twoGroups _ tt _ _ _ eq_refl Hrun)) _).
  vm_compute. reflexivity.
Defined.

Lemma computeGroupSync_service_first_witness :
  exists event err ddc' log,
    computeGroupSync (world (running 3 None [])) names
      (syncWorld (answers feUp serviceFails)) syncNames twoGroups 0 tt
    = SyncRet (event, err, ddc') tt log
    /\ exists cg svc reconciled,
         ComputeGroups twoGroups !! 0%nat = Some cg
         /\ reconciledServices log = [svc]
         /\ In (ReconcileServiceCall svc reconciled) log.
Proof.
  do 4 eexists.
  refine ((fun Hrun =>
             conj Hrun
               (match computeGroupSync_service_first
                        (world (running 3 None [])) names
                        (syncWorld (answers feUp serviceFails)) syncNames
                        _ _ _ _ _ _ _ _ Hrun with
                | ex_intro _ cg (ex_intro _ svc (ex_intro _ reconciled
                    (conj Hcg (conj Hsvc (conj Hin _))))) =>
                    ex_intro _ cg (ex_intro _ svc (ex_intro _ reconciled
                      (conj Hcg (conj Hsvc Hin))))
                end)) _).
  vm_compute. reflexivity.
Defined.

Lemma podNum_reads_the_ordinal_witness :
  0 <= 12 < 2 ^ 63
  /\ contains "." "ddc-cg1" = false
  /\ podNum (podHost "ddc-cg1" 12 "ddc-cg1.doris.svc.cluster.local") = inr 12.
Proof.
  split; [lia|]. split; [reflexivity|].
  apply (podNum_reads_the_ordinal "ddc-cg1" "ddc-cg1.doris.svc.cluster.local" 12);
    [lia | reflexivity].
Defined.

End MoreRuns.
